(** * Label normalisation and dataset merging of finetune_yolo_anticheat.py

    A shallow embedding of [src/training/finetune_yolo_anticheat.py]:
    the configuration tables, [normalize_class], [convert_labels],
    [prepare_dataset], [download_datasets], [finetune_model] and the main
    program, together with the part of the Python runtime they rely on
    (text methods, [int], list indexing, a directory tree with the [os] /
    [shutil] calls used by the script).

    Conventions of the model.
    - Python text is a [string] whose characters are the code points
      0..255; [lower], [strip] and [split] follow CPython on that range.
    - A Python exception is a value [Raise e]; the state reached when it
      is raised is kept, since files written before it stay on disk.
    - A path is the list of its components below one fixed base
      directory; [os.path.join dir name] is [dir ++ [name]]. The empty
      list is the empty text: [os.path.exists] is false for it, and
      joining components to it gives paths below the base directory.
    - [print] and [os.system] append an event to the trace of the world.
    - A file holds text; decoding is not modelled, newlines are written
      as they are (POSIX), and there are no links or permissions.
    - [yaml.safe_load] and [yaml.dump] are parameters, as are the effect of
      the commands given to [os.system] and the calls into the training
      library; the command line is given parsed. *)

From Stdlib Require Import String Ascii List ZArith Lia Bool Arith.
From Stdlib Require Import DecimalString.
Import ListNotations.

Local Open Scope string_scope.
Local Open Scope Z_scope.

Set Warnings "-register-all,-notation-for-abbreviation".

(** ** Python values: exceptions and results *)

Inductive exn : Set :=
| OSError | ValueError | IndexError | TypeError | AttributeError | YAMLError.

Inductive result (A : Type) : Type :=
| Ok (a : A)
| Raise (e : exn).

Arguments Ok {A} a.
Arguments Raise {A} e.

(** ** Text methods *)

Module Str.

Definition code (c : ascii) : N := N_of_ascii c.

(** [str.isspace] for one character, code points below 256. *)
Definition is_space (c : ascii) : bool :=
  let n := code c in
  ((9 <=? n) && (n <=? 13) || (28 <=? n) && (n <=? 32)
   || (n =? 133) || (n =? 160))%N.

(** Cased upper-case letters below 256: A-Z and the Latin-1 capitals. *)
Definition is_upper (c : ascii) : bool :=
  let n := code c in
  ((65 <=? n) && (n <=? 90) || (192 <=? n) && (n <=? 214)
   || (216 <=? n) && (n <=? 222))%N.

Definition lower_char (c : ascii) : ascii :=
  if is_upper c then ascii_of_N (code c + 32) else c.

(** [s.lower()] *)
Fixpoint lower (s : string) : string :=
  match s with
  | EmptyString => EmptyString
  | String c s' => String (lower_char c) (lower s')
  end.

Fixpoint lstrip (s : string) : string :=
  match s with
  | EmptyString => EmptyString
  | String c s' => if is_space c then lstrip s' else s
  end.

Fixpoint rstrip (s : string) : string :=
  match s with
  | EmptyString => EmptyString
  | String c s' =>
      match rstrip s' with
      | EmptyString => if is_space c then EmptyString else String c EmptyString
      | r => String c r
      end
  end.

(** [s.strip()] *)
Definition strip (s : string) : string := rstrip (lstrip s).

(** [s.split()]: the maximal runs of non-space characters. *)
Fixpoint split (s : string) : list string :=
  match s with
  | EmptyString => []
  | String c s' =>
      if is_space c then split s'
      else match split s' with
           | [] => [String c EmptyString]
           | t :: ts =>
               match s' with
               | EmptyString => [String c EmptyString]
               | String c' _ =>
                   if is_space c' then String c EmptyString :: t :: ts
                   else String c t :: ts
               end
           end
  end.

(** [sep.join(parts)] *)
Fixpoint join (sep : string) (parts : list string) : string :=
  match parts with
  | [] => EmptyString
  | [p] => p
  | p :: ps => p ++ sep ++ join sep ps
  end.

(** [s.endswith(suffix)] *)
Definition endswith (s suffix : string) : bool :=
  let n := String.length s in
  let k := String.length suffix in
  (k <=? n)%nat && String.eqb (substring (n - k) k s) suffix.

(** [s.endswith((a, b, ...))] *)
Definition endswith_any (s : string) (suffixes : list string) : bool :=
  existsb (endswith s) suffixes.

Definition is_digit (c : ascii) : bool :=
  let n := code c in ((48 <=? n) && (n <=? 57))%N.

Definition digit_val (c : ascii) : Z := Z.of_N (code c) - 48.

(** Digits of a decimal literal after its sign: at least one digit, single
    underscores allowed between digits. [acc] is the value read so far,
    [prev] tells whether the previous character was a digit. *)
Fixpoint digits (s : string) (acc : Z) (prev : bool) : option Z :=
  match s with
  | EmptyString => if prev then Some acc else None
  | String c s' =>
      if is_digit c then digits s' (10 * acc + digit_val c) true
      else if (code c =? 95)%N && prev then
             match s' with
             | EmptyString => None
             | String c' _ => if is_digit c' then digits s' acc false else None
             end
           else None
  end.

(** [int(s)] for a text without surrounding white space: an optional sign
    and a decimal literal; anything else raises ValueError. (The
    interpreter's bound on the number of digits is not modelled.) *)
Definition int (s : string) : result Z :=
  let body sign rest :=
    match digits rest 0 false with
    | Some v => Ok (sign * v)
    | None => Raise ValueError
    end in
  match s with
  | String "-" rest => body (-1) rest
  | String "+" rest => body 1 rest
  | _ => body 1 s
  end.

(** [str(n)] for an integer. *)
Definition of_int (n : Z) : string := NilZero.string_of_int (Z.to_int n).

End Str.

(** ** Configuration tables *)

Definition TARGET_CLASSES : list string :=
  ["person"; "phone"; "material"; "headphones"].

(** The dict literal, in insertion order. *)
Definition CLASS_MAPPING : list (string * string) :=
  [ ("person", "person"); ("student", "person"); ("face", "person");
    ("head", "person"); ("human", "person"); ("people", "person");
    ("man", "person"); ("woman", "person");
    ("phone", "phone"); ("mobile", "phone"); ("cell phone", "phone");
    ("telephone", "phone"); ("smartphone", "phone"); ("cellphone", "phone");
    ("mobile phone", "phone"); ("iphone", "phone"); ("android", "phone");
    ("paper", "material"); ("document", "material"); ("book", "material");
    ("notebook", "material"); ("notes", "material"); ("sheet", "material");
    ("material", "material"); ("cheat sheet", "material");
    ("headphone", "headphones"); ("headphones", "headphones");
    ("earphone", "headphones"); ("earphones", "headphones");
    ("headset", "headphones"); ("earbuds", "headphones");
    ("earbud", "headphones"); ("airpods", "headphones");
    ("ear device", "headphones") ].

Definition ROBOFLOW_DATASETS : list (string * string) :=
  [ ("phone_1", "https://app.roboflow.com/ds/5ReObgnLbQ?key=HTPSgVzDLW");
    ("phone_2", "https://app.roboflow.com/ds/f9k54F7Azq?key=eYssUekSYc");
    ("paper_1", "https://app.roboflow.com/ds/inuabMtp6t?key=jbu7HTlrBf");
    ("paper_2", "https://app.roboflow.com/ds/b4oxAhlW40?key=4A761Kjm5F");
    ("headphones_1", "https://app.roboflow.com/ds/qqqEeSKAlk?key=GT1Xa65onI");
    ("headphones_2", "https://app.roboflow.com/ds/cKHwOqmuda?key=qL10KsWlBt");
    ("person_1", "https://app.roboflow.com/ds/PwRwV0c1jL?key=FgXbXeqlpH") ].

(** ** normalize_class *)

(** [xs.index(x)]: position of the first occurrence, ValueError if none. *)
Fixpoint list_index (x : string) (xs : list string) : result Z :=
  match xs with
  | [] => Raise ValueError
  | y :: ys =>
      if String.eqb y x then Ok 0
      else match list_index x ys with
           | Ok i => Ok (i + 1)
           | Raise e => Raise e
           end
  end.

(** The [for key, target in CLASS_MAPPING.items()] loop. *)
Fixpoint scan_mapping (tbl : list (string * string)) (class_name : string)
  : result Z :=
  match tbl with
  | [] => Ok (-1)
  | (key, target) :: tbl' =>
      if String.eqb (Str.lower key) class_name
      then list_index target TARGET_CLASSES
      else scan_mapping tbl' class_name
  end.

Definition normalize_class (class_name : string) : result Z :=
  let class_name := Str.strip (Str.lower class_name) in
  scan_mapping CLASS_MAPPING class_name.

(** ** YAML documents and the values read from a manifest *)

(** What [yaml.safe_load] returns; a mapping keeps its insertion order.
    Booleans and floats behave like [YInt] in this script (no [len], no
    [lower]). *)
Inductive yaml : Type :=
| YNull
| YInt (n : Z)
| YStr (s : string)
| YList (items : list yaml)
| YMap (entries : list (yaml * yaml)).

Definition is_key (k : string) (y : yaml) : bool :=
  match y with YStr s => String.eqb s k | _ => false end.

(** [d.get(k, default)] on the entries of a mapping. *)
Fixpoint dict_get (k : string) (entries : list (yaml * yaml)) (default : yaml)
  : yaml :=
  match entries with
  | [] => default
  | (y, v) :: rest => if is_key k y then v else dict_get k rest default
  end.

(** [config.get('names', [])] followed by the [isinstance(..., dict)]
    conversion to the list of values. *)
Definition source_classes_of (config : yaml) : result yaml :=
  match config with
  | YMap entries =>
      match dict_get "names" entries (YList []) with
      | YMap names => Ok (YList (map snd names))
      | v => Ok v
      end
  | _ => Raise AttributeError
  end.

(** [len(v)] *)
Definition py_len (v : yaml) : result Z :=
  match v with
  | YList items => Ok (Z.of_nat (List.length items))
  | YStr s => Ok (Z.of_nat (String.length s))
  | YMap entries => Ok (Z.of_nat (List.length entries))
  | _ => Raise TypeError
  end.

(** Python position of index [i] in a sequence of length [n]: negative
    indices count from the end. *)
Definition py_position (n i : Z) : option nat :=
  let j := if i <? 0 then i + n else i in
  if (0 <=? j) && (j <? n) then Some (Z.to_nat j) else None.

(** [v[i]] for an integer [i]. *)
Definition py_getitem (v : yaml) (i : Z) : result yaml :=
  match v with
  | YList items =>
      match py_position (Z.of_nat (List.length items)) i with
      | Some j => match nth_error items j with
                  | Some x => Ok x
                  | None => Raise IndexError
                  end
      | None => Raise IndexError
      end
  | YStr s =>
      match py_position (Z.of_nat (String.length s)) i with
      | Some j => match String.get j s with
                  | Some c => Ok (YStr (String c EmptyString))
                  | None => Raise IndexError
                  end
      | None => Raise IndexError
      end
  | _ => Raise TypeError
  end.

(** [normalize_class(v)]: only text has [lower]. *)
Definition normalize_value (v : yaml) : result Z :=
  match v with
  | YStr s => normalize_class s
  | _ => Raise AttributeError
  end.

(** ** Rewriting the lines of one label file *)

Definition rbind {A B} (m : result A) (k : A -> result B) : result B :=
  match m with
  | Ok a => k a
  | Raise e => Raise e
  end.

Notation "'let?' x ':=' m 'in' k" := (rbind m (fun x => k))
  (at level 10, x name, m at level 100, k at level 200).

(** One iteration of [for line in lines]: [Ok None] when the line is
    skipped, [Ok (Some l)] when [l] is appended to [new_lines]. *)
Definition convert_line (source_classes : yaml) (line : string)
  : result (option string) :=
  let parts := Str.split (Str.strip line) in
  if (List.length parts <? 5)%nat then Ok None
  else
    let? old_class_id := Str.int (hd EmptyString parts) in
    let? n := py_len source_classes in
    if old_class_id <? n then
      let? old_class_name := py_getitem source_classes old_class_id in
      let? new_class_id := normalize_value old_class_name in
      if 0 <=? new_class_id then
        Ok (Some (Str.join " " (Str.of_int new_class_id :: tl parts)))
      else Ok None
    else Ok None.

(** The whole loop: the value of [new_lines] when it ends. *)
Fixpoint convert_lines (source_classes : yaml) (lines : list string)
  : result (list string) :=
  match lines with
  | [] => Ok []
  | line :: rest =>
      let? kept := convert_line source_classes line in
      let? more := convert_lines source_classes rest in
      Ok (match kept with Some l => l :: more | None => more end)
  end.

(** [f.readlines()] of a file opened in text mode: "\r\n" and "\r" are
    read as "\n", and each line keeps its "\n". *)
Fixpoint readlines (text : string) : list string :=
  let nl := String "010" EmptyString in
  match text with
  | EmptyString => []
  | String "010" rest => nl :: readlines rest
  | String "013" rest =>
      match rest with
      | String "010" rest' => nl :: readlines rest'
      | _ => nl :: readlines rest
      end
  | String c rest =>
      match readlines rest with
      | [] => [String c EmptyString]
      | l :: ls =>
          match rest with
          | EmptyString => [String c EmptyString]
          | String _ _ => String c l :: ls
          end
      end
  end.

(** ** The directory tree *)

(** A directory lists its entries in the order [os.listdir] and [os.walk]
    report them; entry names are single path components. *)
Inductive node : Type :=
| File (data : string)
| Dir (entries : list (string * node)).

Definition path := list string.

Fixpoint find_entry (x : string) (es : list (string * node)) : option node :=
  match es with
  | [] => None
  | (y, c) :: es' => if String.eqb y x then Some c else find_entry x es'
  end.

(** Replace the entry named [x], or add it after the existing ones. *)
Fixpoint set_entry (x : string) (c : node) (es : list (string * node))
  : list (string * node) :=
  match es with
  | [] => [(x, c)]
  | (y, d) :: es' =>
      if String.eqb y x then (x, c) :: es' else (y, d) :: set_entry x c es'
  end.

Fixpoint del_entry (x : string) (es : list (string * node))
  : list (string * node) :=
  match es with
  | [] => []
  | (y, d) :: es' =>
      if String.eqb y x then del_entry x es' else (y, d) :: del_entry x es'
  end.

Fixpoint lookup (t : node) (p : path) : option node :=
  match p with
  | [] => Some t
  | x :: p' =>
      match t with
      | Dir es => match find_entry x es with
                  | Some c => lookup c p'
                  | None => None
                  end
      | File _ => None
      end
  end.

(** Apply [f] to the entry list of the directory at [dir]; the tree is
    unchanged when [dir] is not a directory of it. *)
Fixpoint modify (t : node) (dir : path)
  (f : list (string * node) -> list (string * node)) : node :=
  match t with
  | File _ => t
  | Dir es =>
      match dir with
      | [] => Dir (f es)
      | x :: dir' =>
          match find_entry x es with
          | Some c => Dir (set_entry x (modify c dir' f) es)
          | None => t
          end
      end
  end.

(** The tree without the entry at [p]. *)
Fixpoint remove (t : node) (p : path) : node :=
  match t with
  | File _ => t
  | Dir es =>
      match p with
      | [] => t
      | [x] => Dir (del_entry x es)
      | x :: p' =>
          match find_entry x es with
          | Some c => Dir (set_entry x (remove c p') es)
          | None => t
          end
      end
  end.

(** [os.makedirs(p, exist_ok=True)]: [None] when a component of [p] is a
    regular file, in which case nothing has been created. *)
Fixpoint tree_makedirs (t : node) (p : path) : option node :=
  match t with
  | File _ => None
  | Dir es =>
      match p with
      | [] => Some t
      | x :: p' =>
          let c := match find_entry x es with
                   | Some c => c
                   | None => Dir []
                   end in
          match tree_makedirs c p' with
          | Some c' => Some (Dir (set_entry x c' es))
          | None => None
          end
      end
  end.

(** [open(p, 'w').write(data)]: the parent must be a directory and [p]
    must not be one. *)
Fixpoint tree_write (t : node) (p : path) (data : string) : option node :=
  match t with
  | File _ => None
  | Dir es =>
      match p with
      | [] => None
      | [x] =>
          match find_entry x es with
          | Some (Dir _) => None
          | _ => Some (Dir (set_entry x (File data) es))
          end
      | x :: p' =>
          match find_entry x es with
          | Some c =>
              match tree_write c p' data with
              | Some c' => Some (Dir (set_entry x c' es))
              | None => None
              end
          | None => None
          end
      end
  end.

Definition is_file (c : node) : bool :=
  match c with File _ => true | Dir _ => false end.

(** ['name' in files] for the [files] of one [os.walk] step. *)
Definition has_file (name : string) (es : list (string * node)) : bool :=
  existsb (fun e => String.eqb (fst e) name && is_file (snd e)) es.

(** The [os.walk] loop of [convert_labels]: the first directory, top-down
    and in listing order, that has a regular file [name]; the result is
    its path below [t]. *)
Fixpoint walk_find (name : string) (t : node) : option path :=
  match t with
  | File _ => None
  | Dir es =>
      if has_file name es then Some []
      else
        (fix subdirs (l : list (string * node)) : option path :=
           match l with
           | [] => None
           | (x, c) :: l' =>
               match c with
               | File _ => subdirs l'
               | Dir _ =>
                   match walk_find name c with
                   | Some p => Some (x :: p)
                   | None => subdirs l'
                   end
               end
           end) es
  end.

(** [os.path.join(dir, a, b, ...)] for relative components. *)
Notation os_path_join := (@app string).

(** [Path(p).name] and [os.path.basename]: the last component. *)
Definition path_name (p : path) : string := last p EmptyString.

Fixpoint path_eqb (p q : path) : bool :=
  match p, q with
  | [], [] => true
  | x :: p', y :: q' => String.eqb x y && path_eqb p' q'
  | _, _ => false
  end.

(** Position of the last "." of a file name, counted from [i]. *)
Fixpoint last_dot (s : string) (i : nat) : option nat :=
  match s with
  | EmptyString => None
  | String c s' =>
      match last_dot s' (S i) with
      | Some j => Some j
      | None => if Ascii.eqb c "." then Some i else None
      end
  end.

Fixpoint all_dots (s : string) : bool :=
  match s with
  | EmptyString => true
  | String c s' => Ascii.eqb c "." && all_dots s'
  end.

(** [os.path.splitext(name)[0]] for a name without separator: the part
    before the last dot, unless only dots precede that dot. *)
Definition splitext_root (name : string) : string :=
  match last_dot name 0 with
  | None => name
  | Some d =>
      let pre := substring 0 d name in
      if all_dots pre then name else pre
  end.

(** ** The world: directory tree and trace of observable events *)

(** One constructor per [print] call of the script. *)
Inductive message : Type :=
| MsgAlreadyExists (name : string)
| MsgDownloading (name : string)
| MsgAllDownloaded
| MsgNoDataYaml (dataset_dir : path)
| MsgSourceClasses (source_classes : yaml)
| MsgPreparing
| MsgProcessing (name : string)
| MsgAdded (train_count valid_count : Z)
| MsgPrepared
| MsgTotalTrain (total_train : Z)
| MsgTotalValid (total_valid : Z)
| MsgClasses (classes : list string).

(** The three command lines given to [os.system]. *)
Inductive shell_cmd : Type :=
| Curl (url : string) (archive : path)
| Unzip (archive dest : path)
| Rm (archive : path).

Inductive event : Type :=
| Print (m : message)
| System (c : shell_cmd).

Record world : Type := World { fs : node; trace : list event }.

(** A computation returns or raises, and leaves a world either way. *)
Definition M (A : Type) : Type := world -> result A * world.

Definition ret {A} (a : A) : M A := fun w => (Ok a, w).

Definition bind {A B} (m : M A) (k : A -> M B) : M B :=
  fun w =>
    match m w with
    | (Ok a, w') => k a w'
    | (Raise e, w') => (Raise e, w')
    end.

Notation "x <- m ;; k" := (bind m (fun x => k))
  (at level 61, m at next level, right associativity).
Notation "m ;;; k" := (bind m (fun _ => k))
  (at level 61, right associativity).

Definition lift {A} (r : result A) : M A := fun w => (r, w).

(** A [for] loop that updates the local variable [acc]. *)
Fixpoint for_each {A X} (body : A -> X -> M A) (acc : A) (xs : list X)
  : M A :=
  match xs with
  | [] => ret acc
  | x :: xs' => acc' <- body acc x ;; for_each body acc' xs'
  end.

Definition print (m : message) : M unit :=
  fun w => (Ok tt, World (fs w) (trace w ++ [Print m])).

(** Filesystem calls *)

Definition set_fs (w : world) (t : node) : world := World t (trace w).

(** [os.path.exists(p)]; the empty text names no file. *)
Definition path_exists (p : path) : M bool :=
  fun w =>
    (Ok match p with
        | [] => false
        | _ :: _ =>
            match lookup (fs w) p with Some _ => true | None => false end
        end, w).

Definition makedirs (p : path) : M unit :=
  fun w =>
    match tree_makedirs (fs w) p with
    | Some t => (Ok tt, set_fs w t)
    | None => (Raise OSError, w)
    end.

Definition listdir (p : path) : M (list string) :=
  fun w =>
    match lookup (fs w) p with
    | Some (Dir es) => (Ok (map fst es), w)
    | _ => (Raise OSError, w)
    end.

Definition read_text (p : path) : M string :=
  fun w =>
    match lookup (fs w) p with
    | Some (File data) => (Ok data, w)
    | _ => (Raise OSError, w)
    end.

Definition write_text (p : path) (data : string) : M unit :=
  fun w =>
    match tree_write (fs w) p data with
    | Some t => (Ok tt, set_fs w t)
    | None => (Raise OSError, w)
    end.

(** [shutil.copy(src, dst)]: into [dst] when it is a directory; copying a
    file onto itself, from a directory or to an unwritable place raises. *)
Definition copy (src dst : path) : M unit :=
  fun w =>
    let dst' := match lookup (fs w) dst with
                | Some (Dir _) => os_path_join dst [path_name src]
                | _ => dst
                end in
    match lookup (fs w) src with
    | Some (File data) =>
        if path_eqb src dst' then (Raise OSError, w)
        else match tree_write (fs w) dst' data with
             | Some t => (Ok tt, set_fs w t)
             | None => (Raise OSError, w)
             end
    | _ => (Raise OSError, w)
    end.

(** [shutil.rmtree(p)]: [p] must be a directory below the base. *)
Definition rmtree (p : path) : M unit :=
  fun w =>
    match p, lookup (fs w) p with
    | _ :: _, Some (Dir _) => (Ok tt, set_fs w (remove (fs w) p))
    | _, _ => (Raise OSError, w)
    end.

(** The search for data.yaml below [dataset_dir]. *)
Definition find_data_yaml (dataset_dir : path) : M (option path) :=
  fun w =>
    (Ok match lookup (fs w) dataset_dir with
        | Some t => match walk_find "data.yaml" t with
                    | Some root =>
                        Some (os_path_join dataset_dir
                                (os_path_join root ["data.yaml"]))
                    | None => None
                    end
        | None => None
        end, w).

(** ** convert_labels and prepare_dataset *)

Section Merge.

(** [yaml.safe_load] on the text of a file and [yaml.dump] to text belong
    to the YAML library; the script is modelled for any such pair. *)
Variable yaml_safe_load : string -> result yaml.
Variable yaml_dump : yaml -> string.

Definition IMAGE_SUFFIXES : list string := [".jpg"; ".jpeg"; ".png"].

(** Body of [for img_file in os.listdir(img_dir)]; returns [count]. *)
Definition convert_image (dataset_dir img_dir lbl_dir images_out labels_out
                            : path)
    (source_classes : yaml) (count : Z) (img_file : string) : M Z :=
  if negb (Str.endswith_any (Str.lower img_file) IMAGE_SUFFIXES)
  then ret count
  else
    let src_img := os_path_join img_dir [img_file] in
    let dst_img :=
      os_path_join images_out [path_name dataset_dir ++ "_" ++ img_file] in
    copy src_img dst_img ;;;
    let lbl_file := splitext_root img_file ++ ".txt" in
    let src_lbl := os_path_join lbl_dir [lbl_file] in
    let dst_lbl :=
      os_path_join labels_out [path_name dataset_dir ++ "_" ++ lbl_file] in
    present <- path_exists src_lbl ;;
    if present then
      text <- read_text src_lbl ;;
      new_lines <- lift (convert_lines source_classes (readlines text)) ;;
      match new_lines with
      | [] => ret count
      | _ :: _ =>
          write_text dst_lbl (Str.join (String "010" EmptyString) new_lines) ;;;
          ret (count + 1)
      end
    else ret count.

(** Body of [for split_name in ['train', 'valid', 'test']]. *)
Definition convert_split (dataset_dir images_out labels_out : path)
    (source_classes : yaml) (count : Z) (split_name : string) : M Z :=
  let img_dir := os_path_join dataset_dir [split_name; "images"] in
  let lbl_dir := os_path_join dataset_dir [split_name; "labels"] in
  present <- path_exists img_dir ;;
  if negb present then ret count
  else
    files <- listdir img_dir ;;
    for_each (convert_image dataset_dir img_dir lbl_dir images_out labels_out
                source_classes) count files.

Definition convert_labels (dataset_dir output_dir : path) (split : string)
  : M Z :=
  let images_out := os_path_join output_dir [split; "images"] in
  let labels_out := os_path_join output_dir [split; "labels"] in
  makedirs images_out ;;;
  makedirs labels_out ;;;
  data_yaml <- find_data_yaml dataset_dir ;;
  match data_yaml with
  | None => print (MsgNoDataYaml dataset_dir) ;;; ret 0
  | Some data_yaml =>
      text <- read_text data_yaml ;;
      config <- lift (yaml_safe_load text) ;;
      source_classes <- lift (source_classes_of config) ;;
      print (MsgSourceClasses source_classes) ;;;
      for_each (convert_split dataset_dir images_out labels_out
                  source_classes) 0 ["train"; "valid"; "test"]
  end.

(** [os.path.join] of the components, as the text stored in the manifest. *)
Definition path_text (p : path) : string := Str.join "/" p.

(** [{i: name for i, name in enumerate(names)}] *)
Fixpoint enumerate_names (i : Z) (names : list string) : list (yaml * yaml) :=
  match names with
  | [] => []
  | n :: names' => (YInt i, YStr n) :: enumerate_names (i + 1) names'
  end.

Definition merged_manifest (output_dir : path) : yaml :=
  YMap [ (YStr "path", YStr (path_text output_dir));
         (YStr "train", YStr "train/images");
         (YStr "val", YStr "valid/images");
         (YStr "names", YMap (enumerate_names 0 TARGET_CLASSES));
         (YStr "nc", YInt (Z.of_nat (List.length TARGET_CLASSES))) ].

(** Body of [for name, _ in ROBOFLOW_DATASETS]; the accumulator is
    [(total_train, total_valid)]. *)
Definition merge_one (raw_dir output_dir : path) (totals : Z * Z)
    (entry : string * string) : M (Z * Z) :=
  let name := fst entry in
  let dataset_dir := os_path_join raw_dir [name] in
  present <- path_exists dataset_dir ;;
  if negb present then ret totals
  else
    print (MsgProcessing name) ;;;
    train_count <- convert_labels dataset_dir output_dir "train" ;;
    valid_count <- convert_labels dataset_dir output_dir "valid" ;;
    print (MsgAdded train_count valid_count) ;;;
    ret (fst totals + train_count, snd totals + valid_count).

(** The clearing of the output directory. *)
Definition clear_output (output_dir : path) : M unit :=
  present <- path_exists output_dir ;;
  if present then rmtree output_dir else ret tt.

(** The rest of [prepare_dataset], from [total_train = 0] on. *)
Definition rebuild_output (raw_dir output_dir : path) : M path :=
  totals <- for_each (merge_one raw_dir output_dir) (0, 0) ROBOFLOW_DATASETS ;;
  write_text (os_path_join output_dir ["data.yaml"])
    (yaml_dump (merged_manifest output_dir)) ;;;
  print MsgPrepared ;;;
  print (MsgTotalTrain (fst totals)) ;;;
  print (MsgTotalValid (snd totals)) ;;;
  print (MsgClasses TARGET_CLASSES) ;;;
  ret (os_path_join output_dir ["data.yaml"]).

Definition prepare_dataset (raw_dir output_dir : path) : M path :=
  print MsgPreparing ;;;
  clear_output output_dir ;;;
  rebuild_output raw_dir output_dir.

End Merge.

(** ** download_datasets *)

Section Fetch.

(** What running a command line does to the directory tree is up to the
    external programs and the network. *)
Variable run_command : shell_cmd -> node -> node.

(** [os.system(cmd)]; the exit status is ignored by the script. *)
Definition system (c : shell_cmd) : M unit :=
  fun w => (Ok tt, World (run_command c (fs w)) (trace w ++ [System c])).

(** Body of [for name, url in ROBOFLOW_DATASETS]. *)
Definition download_one (output_dir : path) (_ : unit)
    (entry : string * string) : M unit :=
  let name := fst entry in
  let url := snd entry in
  let dataset_dir := os_path_join output_dir [name] in
  present <- path_exists dataset_dir ;;
  if present then print (MsgAlreadyExists name)
  else
    print (MsgDownloading name) ;;;
    makedirs dataset_dir ;;;
    system (Curl url (os_path_join dataset_dir ["dataset.zip"])) ;;;
    system (Unzip (os_path_join dataset_dir ["dataset.zip"]) dataset_dir) ;;;
    system (Rm (os_path_join dataset_dir ["dataset.zip"])).

Definition download_datasets (output_dir : path) : M unit :=
  makedirs output_dir ;;;
  for_each (download_one output_dir) tt ROBOFLOW_DATASETS ;;;
  print MsgAllDownloaded.

End Fetch.

(** ** Checks on the tables, and sample inputs *)

(** Every key is already lower case and stripped, and occurs once. *)
Fixpoint keys_normal (tbl : list (string * string)) : bool :=
  match tbl with
  | [] => true
  | (k, _) :: tbl' =>
      String.eqb (Str.lower k) k && String.eqb (Str.strip k) k
      && negb (existsb (fun e => String.eqb (fst e) k) tbl')
      && keys_normal tbl'
  end.

(** Every target is one of the canonical classes. *)
Definition targets_known (tbl : list (string * string)) : bool :=
  forallb (fun e => existsb (String.eqb (snd e)) TARGET_CLASSES) tbl.

(** ** Predicates used in the statements *)

(** A text that does not begin with white space. *)
Definition starts_clean (s : string) : Prop :=
  match s with
  | EmptyString => True
  | String c _ => Str.is_space c = false
  end.

Fixpoint no_space (s : string) : bool :=
  match s with
  | EmptyString => true
  | String c s' => negb (Str.is_space c) && no_space s'
  end.

(** A field: a non-empty text without white space. *)
Definition field (s : string) : Prop := s <> EmptyString /\ no_space s = true.

(** What a kept line is made of: [o] is [line] with its first field
    replaced by the canonical index [c] of the class named at the old
    index. *)
Definition kept_from (sc : yaml) (line : string) (c : Z) (o : string)
  : Prop :=
  let parts := Str.split (Str.strip line) in
  (5 <= List.length parts)%nat
  /\ exists old n name,
       Str.int (hd EmptyString parts) = Ok old
       /\ py_len sc = Ok n /\ old < n
       /\ py_getitem sc old = Ok (YStr name)
       /\ normalize_class name = Ok c /\ 0 <= c <= 3
       /\ o = Str.join " " (Str.of_int c :: tl parts).

(** [m] relates the tree it starts from to the tree it leaves by [R],
    whether it returns or raises. *)
Definition preserves (R : node -> node -> Prop) {A} (m : M A) : Prop :=
  forall w r w', m w = (r, w') -> R (fs w) (fs w').

(** [p] is [dir] or lies below it. *)
Definition under (dir p : path) : Prop := exists q, p = (dir ++ q)%list.

(** The text of a label file: the kept lines of some source lines, at
    least one, joined by newlines. *)
Definition label_text (text : string) : Prop :=
  exists sc lines new_lines,
    convert_lines sc lines = Ok new_lines /\ new_lines <> []
    /\ text = Str.join (String "010" EmptyString) new_lines.

(** ** Sample inputs *)

(** A stand-in for the YAML library that knows the manifest text of the
    samples below. *)
Definition sample_safe_load (text : string) : result yaml :=
  if String.eqb text "names: [phone]"
  then Ok (YMap [(YStr "names", YList [YStr "phone"])])
  else Raise YAMLError.

Definition sample_dump (_ : yaml) : string := "merged manifest".

(** raw/phone_1 with data.yaml, one image train/images/a.jpg and its
    label file train/labels/a.txt holding [label]. *)
Definition sample_tree (label : string) : node :=
  Dir [("raw",
        Dir [("phone_1",
              Dir [("data.yaml", File "names: [phone]");
                   ("train",
                    Dir [("images", Dir [("a.jpg", File "JPEG")]);
                         ("labels", Dir [("a.txt", File label)])])])])].

Definition sample_world (label : string) : world :=
  World (sample_tree label) [].

(** The three commands [download_datasets] runs for one entry. *)
Definition dataset_commands (output_dir : path) (entry : string * string)
  : list shell_cmd :=
  let dataset_dir := os_path_join output_dir [fst entry] in
  [ Curl (snd entry) (os_path_join dataset_dir ["dataset.zip"]);
    Unzip (os_path_join dataset_dir ["dataset.zip"]) dataset_dir;
    Rm (os_path_join dataset_dir ["dataset.zip"]) ].

(** The commands recorded in a trace. *)
Fixpoint commands_run (tr : list event) : list shell_cmd :=
  match tr with
  | [] => []
  | System c :: tr' => c :: commands_run tr'
  | Print _ :: tr' => commands_run tr'
  end.

(** The search of [walk_find] through the entries of one directory. *)
Fixpoint walk_subdirs (name : string) (l : list (string * node))
  : option path :=
  match l with
  | [] => None
  | (x, c) :: l' =>
      match c with
      | File _ => walk_subdirs name l'
      | Dir _ =>
          match walk_find name c with
          | Some p => Some (x :: p)
          | None => walk_subdirs name l'
          end
      end
  end.

(** The scan of [convert_labels] finds no data.yaml below [dataset_dir]:
    the directory is missing, is a file, or has no such file inside. *)
Definition no_manifest (t : node) (dataset_dir : path) : Prop :=
  match lookup t dataset_dir with
  | None => True
  | Some n => walk_find "data.yaml" n = None
  end.

(** raw/phone_1 with one image and no data.yaml. *)
Definition bare_tree : node :=
  Dir [("raw",
        Dir [("phone_1",
              Dir [("train",
                    Dir [("images", Dir [("a.jpg", File "JPEG")])])])])].

(** The sample world once the two output folders of the train split
    exist. *)
Definition sample_started (label : string) : world :=
  snd ((makedirs ["merged"; "train"; "images"] ;;;
        makedirs ["merged"; "train"; "labels"]) (sample_world label)).

(** [p] is a directory of [t]; [p] is not a regular file of [t]. *)
Definition dir_at (t : node) (p : path) : Prop :=
  exists es, lookup t p = Some (Dir es).

Definition no_file_at (t : node) (p : path) : Prop :=
  forall c, lookup t p <> Some (File c).

(** [t'] is [t] up to what lies at or below [out], where [out] stays a
    directory or absent; [out] is given by its parent and its name. *)
Definition only_below (parent : path) (x : string) (t t' : node) : Prop :=
  dir_at t parent ->
  dir_at t' parent
  /\ remove t' (parent ++ [x])%list = remove t (parent ++ [x])%list
  /\ (no_file_at t (parent ++ [x])%list -> no_file_at t' (parent ++ [x])%list).

(** The result of [m] and the tree it leaves depend on the tree only, not
    on the trace so far. *)
Definition stable {A} (m : M A) : Prop :=
  forall w w2, fs w = fs w2 ->
    fst (m w) = fst (m w2) /\ fs (snd (m w)) = fs (snd (m w2)).

(** The regular files below [t], with their paths relative to [t], in
    listing order. *)
Fixpoint all_files (t : node) : list (path * string) :=
  match t with
  | File data => [([], data)]
  | Dir es =>
      (fix below (l : list (string * node)) : list (path * string) :=
         match l with
         | [] => []
         | (x, c) :: l' =>
             (map (fun f => (x :: fst f, snd f)) (all_files c) ++ below l')%list
         end) es
  end.

Definition image_files (t : node) : list (path * string) :=
  filter (fun f => Str.endswith_any (Str.lower (path_name (fst f)))
                     [".jpg"; ".jpeg"; ".png"]) (all_files t).

Definition label_files (t : node) : list (path * string) :=
  filter (fun f => Str.endswith_any (path_name (fst f)) [".txt"])
    (all_files t).

(** A raw directory holding one dataset [name]: its manifest, one image
    in the images folder of [split] and the paired label file. *)
Definition synthetic_raw (name split img_file : string)
    (image manifest label : string) : node :=
  Dir [(name,
        Dir [("data.yaml", File manifest);
             (split,
              Dir [("images", Dir [(img_file, File image)]);
                   ("labels",
                    Dir [(splitext_root img_file ++ ".txt", File label)])])])].

(** What the merge makes of it in one output split. *)
Definition merged_split (name img_file : string) (image line : string)
  : node :=
  Dir [("images", Dir [(name ++ "_" ++ img_file, File image)]);
       ("labels",
        Dir [(name ++ "_" ++ (splitext_root img_file ++ ".txt"), File line)])].

(** The merged directory left by [prepare_dataset] on the sample dataset
    with a label line of class 0. *)
Definition sample_merged : node :=
  match lookup
          (fs (snd (prepare_dataset sample_safe_load sample_dump ["raw"]
                      ["merged"] (sample_world "0 0.5 0.5 0.2 0.2"))))
          ["merged"] with
  | Some merged => merged
  | None => Dir []
  end.

(** The regular files outside [out] are the same in [t] and [t']. *)
Definition same_outside (out : path) (t t' : node) : Prop :=
  forall p c,
    ~ under out p ->
    (lookup t' p = Some (File c) <-> lookup t p = Some (File c)).

(** No entry at [p]. *)
Definition absent (t : node) (p : path) : bool :=
  match lookup t p with
  | None => true
  | Some _ => false
  end.

(** The external commands neither create nor delete the directories of
    the entries considered. *)
Definition commands_keep (run_command : shell_cmd -> node -> node)
    (output_dir : path) (entries : list (string * string)) : Prop :=
  forall c t e,
    In e entries ->
    absent (run_command c t) (os_path_join output_dir [fst e])
    = absent t (os_path_join output_dir [fst e]).

(** ** The training driver *)

(** [old in s] *)
Fixpoint str_contains (old s : string) : bool :=
  String.prefix old s
  || match s with
     | EmptyString => false
     | String _ s' => str_contains old s'
     end.

(** [s.replace(old, new)] for a non-empty [old]: the occurrences of [old]
    are replaced from left to right, without overlap. [skip] counts the
    characters of the occurrence just replaced that are still to be
    passed over. *)
Fixpoint replace_from (old new : string) (skip : nat) (s : string) : string :=
  match s with
  | EmptyString => EmptyString
  | String c s' =>
      match skip with
      | S k => replace_from old new k s'
      | O =>
          if String.prefix old s
          then (new ++ replace_from old new (String.length old - 1) s')%string
          else String c (replace_from old new 0 s')
      end
  end.

Definition str_replace (old new s : string) : string :=
  replace_from old new 0 s.

(** The TRAIN_CONFIG table; it is only read, with the keys written out, so
    it is a record. A floating-point literal is kept as it is written. *)
Record train_config : Type := TrainConfig {
  epochs : Z;
  imgsz : Z;
  batch : Z;
  patience : Z;
  lr0 : string;
  lrf : string;
  warmup_epochs : Z;
  freeze : Z
}.

Definition TRAIN_CONFIG : train_config :=
  {| epochs := 50;
     imgsz := 640;
     batch := 16;
     patience := 15;
     lr0 := "0.001";
     lrf := "0.01";
     warmup_epochs := 3;
     freeze := 10 |}.

(** A keyword argument given to the training library. *)
Inductive pyval : Type :=
| PInt (n : Z)
| PFloat (literal : string)
| PStr (s : string)
| PBool (b : bool).

(** The calls into the training library. A model object is known by the
    weights file it was built from. *)
Inductive library_call : Type :=
| YOLO (weights : string)
| Train (model : string) (kwargs : list (string * pyval))
| Export (model : string) (kwargs : list (string * pyval)).

(** One constructor per [print] call of [finetune_model] and of the main
    program. *)
Inductive training_message : Type :=
| MsgLoadingBase (base_model_path : string)
| MsgStartingFineTuning
| MsgTrainingCompleted
| MsgExporting (best_model_path : string)
| MsgOnnxSaved (onnx_path : string)
| MsgCopyThisFile
| MsgRule
| MsgComplete.

Inductive training_event : Type :=
| Said (m : training_message)
| Called (c : library_call).

Fixpoint calls_made (evs : list training_event) : list library_call :=
  match evs with
  | [] => []
  | Called c :: evs' => c :: calls_made evs'
  | Said _ :: evs' => calls_made evs'
  end.

Section Training.

(** What the library sees and changes, and the effect of one call: it
    returns or raises, and leaves a state either way. *)
Variable S : Type.
Variable library : library_call -> S -> result unit * S.

Definition session : Type := (S * list training_event)%type.

Definition T (A : Type) : Type := session -> result A * session.

Definition tret {A} (a : A) : T A := fun s => (Ok a, s).

Definition tbind {A B} (m : T A) (k : A -> T B) : T B :=
  fun s =>
    match m s with
    | (Ok a, s') => k a s'
    | (Raise e, s') => (Raise e, s')
    end.

Definition say (m : training_message) : T unit :=
  fun s => (Ok tt, (fst s, snd s ++ [Said m])%list).

Definition call (c : library_call) : T unit :=
  fun s =>
    match library c (fst s) with
    | (r, st) => (r, (st, snd s ++ [Called c])%list)
    end.

Definition finetune_model (base_model_path : string)
    (data_yaml output_dir : path) : T string :=
  tbind (say (MsgLoadingBase base_model_path)) (fun _ =>
  tbind (call (YOLO base_model_path)) (fun _ =>
  tbind (say MsgStartingFineTuning) (fun _ =>
  tbind (call (Train base_model_path
                 [ ("data", PStr (path_text data_yaml));
                   ("epochs", PInt (epochs TRAIN_CONFIG));
                   ("imgsz", PInt (imgsz TRAIN_CONFIG));
                   ("batch", PInt (batch TRAIN_CONFIG));
                   ("patience", PInt (patience TRAIN_CONFIG));
                   ("lr0", PFloat (lr0 TRAIN_CONFIG));
                   ("lrf", PFloat (lrf TRAIN_CONFIG));
                   ("warmup_epochs", PInt (warmup_epochs TRAIN_CONFIG));
                   ("freeze", PInt (freeze TRAIN_CONFIG));
                   ("project", PStr (path_text output_dir));
                   ("name", PStr "anticheat_finetuned");
                   ("exist_ok", PBool true);
                   ("device", PInt 0);
                   ("verbose", PBool true) ])) (fun _ =>
  tbind (say MsgTrainingCompleted) (fun _ =>
  let best_model_path :=
    path_text
      (os_path_join output_dir ["anticheat_finetuned"; "weights"; "best.pt"]) in
  tbind (say (MsgExporting best_model_path)) (fun _ =>
  tbind (call (YOLO best_model_path)) (fun _ =>
  tbind (call (Export best_model_path
                 [ ("format", PStr "onnx");
                   ("imgsz", PInt 640);
                   ("simplify", PBool true);
                   ("dynamic", PBool false);
                   ("opset", PInt 17) ])) (fun _ =>
  let onnx_path := str_replace ".pt" ".onnx" best_model_path in
  tbind (say (MsgOnnxSaved onnx_path)) (fun _ =>
  tbind (say MsgCopyThisFile) (fun _ =>
  tret onnx_path)))))))))).

End Training.

Arguments tret {S A} a.
Arguments tbind {S A B} m k.
Arguments say {S} m.
Arguments call {S} library c.
Arguments finetune_model {S} library base_model_path data_yaml output_dir.

(** The library calls [calls], made in order from the state [st] until one
    raises: the outcome of the last call made, the state it leaves, and
    the calls made. *)
Fixpoint run_calls {S : Type} (library : library_call -> S -> result unit * S)
    (calls : list library_call) (st : S)
  : result unit * S * list library_call :=
  match calls with
  | [] => (Ok tt, st, [])
  | c :: calls' =>
      match library c st with
      | (Ok _, st') =>
          match run_calls library calls' st' with
          | (outcome, st'', made) => (outcome, st'', c :: made)
          end
      | (Raise e, st') => (Raise e, st', [c])
      end
  end.

(** ** The main program *)

(** The parsed command line. *)
Record arguments : Type := Arguments_ {
  arg_base_model : string;
  arg_output_dir : path;
  arg_skip_download : bool
}.

Section Main.

Variable yaml_safe_load : string -> result yaml.
Variable yaml_dump : yaml -> string.
Variable run_command : shell_cmd -> node -> node.
Variable library : library_call -> world -> result unit * world.

(** A step of the merge or of the download, within the whole run. *)
Definition step {A} (m : M A) : T world A :=
  fun s => match m (fst s) with (r, w) => (r, (w, snd s)) end.

Definition main (args : arguments) : T world unit :=
  let raw_datasets_dir := os_path_join (arg_output_dir args) ["raw_datasets"] in
  let merged_dataset_dir :=
    os_path_join (arg_output_dir args) ["merged_dataset"] in
  tbind (if negb (arg_skip_download args)
         then step (download_datasets run_command raw_datasets_dir)
         else tret tt) (fun _ =>
  tbind (step (prepare_dataset yaml_safe_load yaml_dump raw_datasets_dir
                 merged_dataset_dir)) (fun data_yaml =>
  tbind (finetune_model library (arg_base_model args) data_yaml
           (arg_output_dir args)) (fun _ =>
  tbind (say MsgRule) (fun _ =>
  tbind (say MsgComplete) (fun _ =>
  say MsgRule))))).

End Main.

(** The raw directory of the main program with output directory "." once
    phone_1 has been downloaded, holding only its data.yaml. *)
Definition downloaded_world : world :=
  World (Dir [("raw_datasets",
               Dir [("phone_1",
                     Dir [("data.yaml", File "names: [phone]")])])]) [].

(** ** Where a merged label file comes from *)

(** [text.split("\n")]: the lines of a text, without the newlines. *)
Fixpoint text_lines (text : string) : list string :=
  match text with
  | EmptyString => [EmptyString]
  | String c rest =>
      if Ascii.eqb c "010" then EmptyString :: text_lines rest
      else match text_lines rest with
           | l :: ls => String c l :: ls
           | [] => [String c EmptyString]
           end
  end.

Fixpoint no_newline (s : string) : bool :=
  match s with
  | EmptyString => true
  | String c s' => negb (Ascii.eqb c "010") && no_newline s'
  end.

(** [sc] is the class list that [convert_labels] reads for the dataset at
    [dataset_dir] of the tree [t]: the [names] of the first data.yaml the
    scan finds, loaded by [yaml_safe_load]. *)
Definition dataset_classes (yaml_safe_load : string -> result yaml)
    (t : node) (dataset_dir : path) (sc : yaml) : Prop :=
  exists n root text config,
    lookup t dataset_dir = Some n
    /\ walk_find "data.yaml" n = Some root
    /\ lookup t (os_path_join dataset_dir (os_path_join root ["data.yaml"]))
       = Some (File text)
    /\ yaml_safe_load text = Ok config
    /\ source_classes_of config = Ok sc.

(** [text] at [p] is the label file written for an image of the dataset:
    [p] is the dataset-prefixed name of the label file of an image
    [img_file] with a recognized extension in one of the three source
    folders, [src] is the text of that label file (in the tree [t], when
    it lies outside the output directory), and [text] is the kept lines
    [new_lines] of [src] with the class list [sc], at least one, joined by
    newlines. *)
Definition label_file_from (t : node) (dataset_dir output_dir : path)
    (split : string) (sc : yaml) (p : path) (text src : string)
    (new_lines : list string) : Prop :=
  exists split_name img_file,
    In split_name ["train"; "valid"; "test"]
    /\ Str.endswith_any (Str.lower img_file) IMAGE_SUFFIXES = true
    /\ p = os_path_join (os_path_join output_dir [split; "labels"])
             [path_name dataset_dir ++ "_" ++ (splitext_root img_file ++ ".txt")]
    /\ (let src_lbl :=
          os_path_join (os_path_join dataset_dir [split_name; "labels"])
            [splitext_root img_file ++ ".txt"] in
        ~ under output_dir src_lbl -> lookup t src_lbl = Some (File src))
    /\ convert_lines sc (readlines src) = Ok new_lines
    /\ new_lines <> []
    /\ text = Str.join (String "010" EmptyString) new_lines.

(** From [t] to [t'] the files outside the output directory stay as they
    are, and every file of [t'] below a labels folder of the output was in
    [t] with the same text or is a label file written for the dataset. *)
Definition labels_from (dataset_dir output_dir : path) (split : string)
    (sc : yaml) (t t' : node) : Prop :=
  same_outside output_dir t t'
  /\ forall s q text,
       lookup t' (os_path_join (os_path_join output_dir [s; "labels"]) q)
       = Some (File text) ->
       lookup t (os_path_join (os_path_join output_dir [s; "labels"]) q)
       = Some (File text)
       \/ exists src new_lines,
            label_file_from t dataset_dir output_dir split sc
              (os_path_join (os_path_join output_dir [s; "labels"]) q)
              text src new_lines.

(** The image [img_file] of the dataset is in the images folder of the
    output: the tree [t] holds a regular file under the dataset-prefixed
    name (or inside it, where that name was a directory), with the data
    that an image of that name has in one of the three source folders of
    the tree [t0]. *)
Definition image_copied (t0 t : node) (dataset_dir output_dir : path)
    (split img_file : string) : Prop :=
  let dst :=
    os_path_join (os_path_join output_dir [split; "images"])
      [path_name dataset_dir ++ "_" ++ img_file] in
  exists dst' data split_name,
    (dst' = dst \/ dst' = os_path_join dst [img_file])
    /\ lookup t dst' = Some (File data)
    /\ In split_name ["train"; "valid"; "test"]
    /\ lookup t0
         (os_path_join (os_path_join dataset_dir [split_name; "images"])
            [img_file])
       = Some (File data).

(** * Properties *)

(** [os.path.exists] of a path with at least one component. *)
Lemma path_exists_below (dir : path) (x : string) (q : path) w :
  path_exists (dir ++ x :: q)%list w
  = (Ok match lookup (fs w) (dir ++ x :: q)%list with
        | Some _ => true
        | None => false
        end, w).
Proof. unfold path_exists. now destruct dir. Qed.


(** ** Text *)

Ltac each_char c := destruct c as [[] [] [] [] [] [] [] []].

Lemma is_space_lower_char (c : ascii) :
  Str.is_space (Str.lower_char c) = Str.is_space c.
Proof. each_char c; reflexivity. Qed.

Lemma lower_char_idem (c : ascii) :
  Str.lower_char (Str.lower_char c) = Str.lower_char c.
Proof. each_char c; reflexivity. Qed.

Lemma lower_idem (s : string) : Str.lower (Str.lower s) = Str.lower s.
Proof.
  induction s as [|c s IH]; simpl; [reflexivity|].
  now rewrite lower_char_idem, IH.
Qed.

Lemma lower_lstrip (s : string) :
  Str.lower (Str.lstrip s) = Str.lstrip (Str.lower s).
Proof.
  induction s as [|c s IH]; simpl; [reflexivity|].
  rewrite is_space_lower_char.
  destruct (Str.is_space c); [exact IH | reflexivity].
Qed.

Lemma lower_rstrip (s : string) :
  Str.lower (Str.rstrip s) = Str.rstrip (Str.lower s).
Proof.
  induction s as [|c s IH]; simpl; [reflexivity|].
  rewrite <- IH, is_space_lower_char.
  destruct (Str.rstrip s); simpl.
  - destruct (Str.is_space c); reflexivity.
  - reflexivity.
Qed.

Lemma lower_strip (s : string) :
  Str.lower (Str.strip s) = Str.strip (Str.lower s).
Proof. unfold Str.strip. now rewrite lower_rstrip, lower_lstrip. Qed.

Lemma lstrip_clean (s : string) : starts_clean (Str.lstrip s).
Proof.
  induction s as [|c s IH]; simpl; [exact I|].
  destruct (Str.is_space c) eqn:E; [exact IH | exact E].
Qed.

Lemma lstrip_of_clean (s : string) : starts_clean s -> Str.lstrip s = s.
Proof. destruct s as [|c s]; simpl; [reflexivity|]. now intros ->. Qed.

Lemma rstrip_clean (s : string) : starts_clean s -> starts_clean (Str.rstrip s).
Proof.
  destruct s as [|c s]; simpl; [exact (fun H => H)|].
  intros E. destruct (Str.rstrip s); simpl; [rewrite E|]; exact E.
Qed.

Lemma rstrip_idem (s : string) : Str.rstrip (Str.rstrip s) = Str.rstrip s.
Proof.
  induction s as [|c s IH]; simpl; [reflexivity|].
  destruct (Str.rstrip s) as [|d r] eqn:E.
  - destruct (Str.is_space c) eqn:Ec; simpl; [reflexivity | now rewrite Ec].
  - change (Str.rstrip (String c (String d r)) = String c (String d r)).
    simpl Str.rstrip at 1. simpl in IH. rewrite IH. reflexivity.
Qed.

Lemma strip_idem (s : string) : Str.strip (Str.strip s) = Str.strip s.
Proof.
  unfold Str.strip.
  rewrite (lstrip_of_clean (Str.rstrip (Str.lstrip s))).
  - apply rstrip_idem.
  - apply rstrip_clean, lstrip_clean.
Qed.

Lemma strip_lower_idem (s : string) :
  Str.strip (Str.lower (Str.strip (Str.lower s))) = Str.strip (Str.lower s).
Proof. now rewrite lower_strip, lower_idem, strip_idem. Qed.

(** ** normalize_class *)

Lemma class_mapping_keys_normal : keys_normal CLASS_MAPPING = true.
Proof. vm_compute. reflexivity. Qed.

Lemma class_mapping_targets_known : targets_known CLASS_MAPPING = true.
Proof. vm_compute. reflexivity. Qed.

Lemma keys_normal_cons k t tbl :
  keys_normal ((k, t) :: tbl) = true ->
  Str.lower k = k /\ Str.strip k = k /\ ~ In k (map fst tbl)
  /\ keys_normal tbl = true.
Proof.
  simpl. rewrite !andb_true_iff, negb_true_iff.
  intros [[[Hl Hs] Hn] Hk].
  apply String.eqb_eq in Hl. apply String.eqb_eq in Hs.
  repeat split; try assumption.
  intros Hin. apply in_map_iff in Hin. destruct Hin as [[k' t'] [E Hin]].
  simpl in E. subst k'.
  assert (X : existsb (fun e => String.eqb (fst e) k) tbl = true).
  { apply existsb_exists. exists (k, t'). split; [exact Hin|].
    apply String.eqb_refl. }
  congruence.
Qed.

Lemma keys_normal_in k t tbl :
  keys_normal tbl = true -> In (k, t) tbl ->
  Str.lower k = k /\ Str.strip k = k.
Proof.
  induction tbl as [|[k0 t0] tbl IH]; intros Hn Hin; [destruct Hin|].
  apply keys_normal_cons in Hn. destruct Hn as (Hl & Hs & _ & Hn).
  destruct Hin as [E|Hin]; [inversion E; subst; now split | now apply IH].
Qed.

Lemma scan_mapping_absent tbl k :
  keys_normal tbl = true -> ~ In k (map fst tbl) ->
  scan_mapping tbl k = Ok (-1).
Proof.
  induction tbl as [|[k0 t0] tbl IH]; intros Hn Hk; [reflexivity|].
  apply keys_normal_cons in Hn. destruct Hn as (Hl & _ & _ & Hn).
  simpl. rewrite Hl.
  destruct (String.eqb k0 k) eqn:E.
  - apply String.eqb_eq in E. exfalso. apply Hk. now left.
  - apply IH; [exact Hn|]. intros H. apply Hk. now right.
Qed.

Lemma scan_mapping_present tbl k t :
  keys_normal tbl = true -> In (k, t) tbl ->
  scan_mapping tbl k = list_index t TARGET_CLASSES.
Proof.
  induction tbl as [|[k0 t0] tbl IH]; intros Hn Hin; [destruct Hin|].
  apply keys_normal_cons in Hn. destruct Hn as (Hl & _ & Hfresh & Hn).
  simpl scan_mapping. rewrite Hl.
  destruct Hin as [E|Hin].
  - inversion E; subst. now rewrite String.eqb_refl.
  - destruct (String.eqb k0 k) eqn:E.
    + apply String.eqb_eq in E. subst k0. exfalso. apply Hfresh.
      apply in_map_iff. now exists (k, t).
    + now apply IH.
Qed.

Lemma target_index t :
  In t TARGET_CLASSES ->
  exists i, list_index t TARGET_CLASSES = Ok i /\ 0 <= i <= 3
            /\ nth_error TARGET_CLASSES (Z.to_nat i) = Some t.
Proof.
  intros H. simpl in H.
  destruct H as [H|[H|[H|[H|[]]]]]; subst t;
    [exists 0 | exists 1 | exists 2 | exists 3];
    (split; [reflexivity | split; [lia | reflexivity]]).
Qed.

Lemma class_mapping_target k t :
  In (k, t) CLASS_MAPPING -> In t TARGET_CLASSES.
Proof.
  intros Hin.
  pose proof class_mapping_targets_known as H. unfold targets_known in H.
  rewrite forallb_forall in H. specialize (H _ Hin).
  apply existsb_exists in H. destruct H as [x [Hx E]].
  simpl in E. apply String.eqb_eq in E. now subst x.
Qed.

(** The value of [normalize_class] is always produced: the [index] call
    never raises, and the result is -1 or a canonical index. *)
Lemma normalize_class_total (s : string) :
  exists i, normalize_class s = Ok i /\ -1 <= i <= 3.
Proof.
  unfold normalize_class.
  generalize (Str.strip (Str.lower s)) as k. intros k.
  assert (G : forall tbl, targets_known tbl = true ->
            exists i, scan_mapping tbl k = Ok i /\ -1 <= i <= 3).
  { induction tbl as [|[k0 t0] tbl IH]; intros Ht.
    - exists (-1). split; [reflexivity | lia].
    - unfold targets_known in Ht. cbn [forallb snd] in Ht.
      apply andb_true_iff in Ht. destruct Ht as [Ht0 Ht].
      simpl. destruct (String.eqb (Str.lower k0) k).
      + apply existsb_exists in Ht0. destruct Ht0 as [x [Hx E]].
        apply String.eqb_eq in E. subst x.
        destruct (target_index t0 Hx) as (i & Hi & Hr & _).
        exists i. split; [exact Hi | lia].
      + now apply IH. }
  apply G, class_mapping_targets_known.
Qed.

Lemma not_in_by_eqb (k : string) (l : list string) :
  existsb (String.eqb k) l = false -> ~ In k l.
Proof.
  intros H Hin.
  assert (X : existsb (String.eqb k) l = true).
  { apply existsb_exists. exists k. split; [exact Hin|]. apply String.eqb_refl. }
  congruence.
Qed.

(** C3, as amended: the table is consulted with the lower-cased, stripped
    form of the argument. When that form is a key, the result is the
    position of the key's target in (person, phone, material, headphones);
    when it is not, the result is -1. Every key of the table is its own
    lower-cased, stripped form, so table strings are covered by the first
    part. *)
Theorem normalize_class_by_normal_form :
  forall s : string,
    (forall target, In (Str.strip (Str.lower s), target) CLASS_MAPPING ->
       exists i, normalize_class s = Ok i /\ 0 <= i <= 3
                 /\ nth_error TARGET_CLASSES (Z.to_nat i) = Some target)
    /\ (~ In (Str.strip (Str.lower s)) (map fst CLASS_MAPPING) ->
        normalize_class s = Ok (-1))
    /\ (forall target, In (s, target) CLASS_MAPPING ->
        Str.strip (Str.lower s) = s).
Proof.
  intros s. split; [|split].
  - intros target Hin. unfold normalize_class.
    rewrite (scan_mapping_present _ _ _ class_mapping_keys_normal Hin).
    destruct (target_index target (class_mapping_target _ _ Hin))
      as (i & Hi & Hr & Hn).
    now exists i.
  - intros Hout. unfold normalize_class.
    now apply scan_mapping_absent; [apply class_mapping_keys_normal|].
  - intros target Hin.
    destruct (keys_normal_in _ _ _ class_mapping_keys_normal Hin) as [Hl Hs].
    now rewrite Hl, Hs.
Qed.

Lemma normalize_class_by_normal_form_witness :
  (exists i, normalize_class "Cell Phone " = Ok i /\ 0 <= i <= 3
             /\ nth_error TARGET_CLASSES (Z.to_nat i) = Some "phone")
  /\ normalize_class "laptop" = Ok (-1).
Proof.
  destruct (normalize_class_by_normal_form "Cell Phone ") as (H1 & _ & _).
  destruct (normalize_class_by_normal_form "laptop") as (_ & H2 & _).
  split.
  - apply H1. vm_compute. tauto.
  - apply H2. apply not_in_by_eqb. reflexivity.
Defined.

(** C3 as stated fails: " phone" is not a string of the table, and it is
    not mapped to -1. *)
Lemma normalize_class_absent_string_mapped :
  ~ In " phone" (map fst CLASS_MAPPING)
  /\ normalize_class " phone" = Ok 1
  /\ normalize_class " phone" <> Ok (-1).
Proof.
  split; [|split].
  - apply not_in_by_eqb. reflexivity.
  - reflexivity.
  - vm_compute. discriminate.
Qed.

(** C4: the lookup sees only the lower-cased, stripped form of its
    argument, so arguments that differ only in case get the same result,
    and table keys that differ only in case have the same target. *)
Theorem normalize_class_case_insensitive :
  (forall s, normalize_class s = normalize_class (Str.strip (Str.lower s)))
  /\ (forall s s', Str.lower s = Str.lower s' ->
        normalize_class s = normalize_class s')
  /\ (forall k1 t1 k2 t2,
        In (k1, t1) CLASS_MAPPING -> In (k2, t2) CLASS_MAPPING ->
        Str.lower k1 = Str.lower k2 ->
        t1 = t2 /\ normalize_class k1 = normalize_class k2).
Proof.
  split; [|split].
  - intros s. unfold normalize_class. now rewrite strip_lower_idem.
  - intros s s' E. unfold normalize_class. now rewrite E.
  - intros k1 t1 k2 t2 H1 H2 E.
    destruct (keys_normal_in _ _ _ class_mapping_keys_normal H1) as [L1 _].
    destruct (keys_normal_in _ _ _ class_mapping_keys_normal H2) as [L2 _].
    rewrite L1, L2 in E. subst k2. split; [|reflexivity].
    pose proof (scan_mapping_present _ _ _ class_mapping_keys_normal H1) as S1.
    pose proof (scan_mapping_present _ _ _ class_mapping_keys_normal H2) as S2.
    rewrite S1 in S2.
    destruct (target_index t1 (class_mapping_target _ _ H1))
      as (i & Hi & _ & Hn).
    destruct (target_index t2 (class_mapping_target _ _ H2))
      as (j & Hj & _ & Hm).
    rewrite Hi, Hj in S2. inversion S2; subst j. congruence.
Qed.

Lemma normalize_class_case_insensitive_witness :
  normalize_class "PHONE" = normalize_class "phone".
Proof.
  destruct normalize_class_case_insensitive as (_ & H & _).
  apply (H "PHONE" "phone"). reflexivity.
Defined.

(** ** Entry lists *)

Lemma find_set_entry x y c es :
  find_entry y (set_entry x c es)
  = if String.eqb x y then Some c else find_entry y es.
Proof.
  induction es as [|[z d] es IH]; simpl.
  - reflexivity.
  - destruct (String.eqb_spec z x) as [->|Hzx]; simpl.
    + destruct (String.eqb x y); reflexivity.
    + rewrite IH. destruct (String.eqb_spec z y) as [->|Hzy].
      * destruct (String.eqb_spec x y) as [->|_]; [congruence | reflexivity].
      * reflexivity.
Qed.

Lemma find_set_entry_same x c es : find_entry x (set_entry x c es) = Some c.
Proof. now rewrite find_set_entry, String.eqb_refl. Qed.

Lemma del_set_entry x c es : del_entry x (set_entry x c es) = del_entry x es.
Proof.
  induction es as [|[z d] es IH]; simpl.
  - now rewrite String.eqb_refl.
  - destruct (String.eqb_spec z x) as [->|Hzx]; simpl.
    + now rewrite String.eqb_refl.
    + destruct (String.eqb_spec z x); [congruence | now rewrite IH].
Qed.

Lemma set_set_entry x c d es :
  set_entry x c (set_entry x d es) = set_entry x c es.
Proof.
  induction es as [|[z e] es IH]; simpl.
  - now rewrite String.eqb_refl.
  - destruct (String.eqb_spec z x) as [->|Hzx]; simpl.
    + now rewrite String.eqb_refl.
    + destruct (String.eqb_spec z x); [congruence | now rewrite IH].
Qed.

Lemma set_entry_found x c es :
  find_entry x es = Some c -> set_entry x c es = es.
Proof.
  induction es as [|[z e] es IH]; simpl; [discriminate|].
  destruct (String.eqb_spec z x) as [->|Hzx].
  - now intros [= ->].
  - intros H. now rewrite IH.
Qed.

Lemma del_entry_absent x es : find_entry x es = None -> del_entry x es = es.
Proof.
  induction es as [|[z e] es IH]; simpl; [reflexivity|].
  destruct (String.eqb z x); [discriminate|].
  intros H. now rewrite IH.
Qed.

Lemma find_del_entry x es : find_entry x (del_entry x es) = None.
Proof.
  induction es as [|[z e] es IH]; simpl; [reflexivity|].
  destruct (String.eqb z x) eqn:E; [exact IH|].
  simpl. now rewrite E.
Qed.

(** ** Files after a tree operation *)

(** Creating directories creates no file and changes none. *)
Lemma lookup_file_makedirs p : forall t t' q c,
  tree_makedirs t p = Some t' ->
  lookup t' q = Some (File c) -> lookup t q = Some (File c).
Proof.
  induction p as [|x p IH]; intros t t' q c Hm Hl.
  - destruct t; simpl in Hm; [discriminate|]. now inversion Hm; subst.
  - destruct t as [|es]; simpl in Hm; [discriminate|].
    destruct (tree_makedirs
                match find_entry x es with Some c0 => c0 | None => Dir [] end p)
      as [c'|] eqn:E; [|discriminate].
    inversion Hm; subst t'. clear Hm.
    destruct q as [|y q]; simpl in Hl; [discriminate|].
    rewrite find_set_entry in Hl. simpl.
    destruct (String.eqb_spec x y) as [->|Hxy]; [|exact Hl].
    specialize (IH _ _ _ _ E Hl).
    destruct (find_entry y es) as [c0|]; [exact IH|].
    destruct q; simpl in IH; discriminate.
Qed.

(** Writing a file creates or changes that file only. *)
Lemma lookup_file_write p : forall t t' data q c,
  tree_write t p data = Some t' ->
  lookup t' q = Some (File c) ->
  (q = p /\ c = data) \/ lookup t q = Some (File c).
Proof.
  induction p as [|x p IH]; intros t t' data q c Hw Hl.
  - destruct t; simpl in Hw; discriminate.
  - destruct t as [|es]; simpl in Hw; [discriminate|].
    destruct q as [|y q]; [destruct p; simpl in Hl;
      [ destruct (find_entry x es) as [[]|]; inversion Hw; subst; discriminate
      | destruct (find_entry x es); [|discriminate];
        destruct (tree_write _ _ _); inversion Hw; subst; discriminate ]|].
    destruct p as [|x' p].
    + assert (Ht : t' = Dir (set_entry x (File data) es)).
      { destruct (find_entry x es) as [[]|]; now inversion Hw. }
      subst t'. simpl in Hl. rewrite find_set_entry in Hl. simpl.
      destruct (String.eqb_spec x y) as [->|Hxy]; [|now right].
      destruct q; simpl in Hl; [|discriminate].
      inversion Hl; subst. now left.
    + destruct (find_entry x es) as [c0|] eqn:Ex; [|discriminate].
      destruct (tree_write c0 (x' :: p) data) as [c'|] eqn:E; [|discriminate].
      inversion Hw; subst t'. clear Hw.
      simpl in Hl. rewrite find_set_entry in Hl. simpl.
      destruct (String.eqb_spec x y) as [->|Hxy]; [|now right].
      rewrite Ex.
      destruct (IH _ _ _ _ _ E Hl) as [[-> ->]|H]; [now left | now right].
Qed.

(** The written file is there afterwards. *)
Lemma lookup_written p : forall t t' data,
  tree_write t p data = Some t' -> lookup t' p = Some (File data).
Proof.
  induction p as [|x p IH]; intros t t' data Hw.
  - destruct t; simpl in Hw; discriminate.
  - destruct t as [|es]; simpl in Hw; [discriminate|].
    destruct p as [|x' p].
    + assert (Ht : t' = Dir (set_entry x (File data) es)).
      { destruct (find_entry x es) as [[]|]; now inversion Hw. }
      subst t'. simpl. now rewrite find_set_entry_same.
    + destruct (find_entry x es) as [c0|] eqn:Ex; [|discriminate].
      destruct (tree_write c0 (x' :: p) data) as [c'|] eqn:E; [|discriminate].
      inversion Hw; subst t'.
      change (lookup (Dir (set_entry x c' es)) (x :: x' :: p))
        with (match find_entry x (set_entry x c' es) with
              | Some c => lookup c (x' :: p) | None => None end).
      rewrite find_set_entry_same. exact (IH _ _ _ E).
Qed.

(** ** Fields of a line *)

Lemma field_cons c s :
  Str.is_space c = false -> no_space s = true -> field (String c s).
Proof. intros Hc Hs. split; [discriminate|]. simpl. now rewrite Hc, Hs. Qed.

Lemma split_fields (s : string) : Forall field (Str.split s).
Proof.
  induction s as [|c s IH]; simpl; [constructor|].
  destruct (Str.is_space c) eqn:Ec; [exact IH|].
  destruct (Str.split s) as [|t ts] eqn:Es.
  - constructor; [now apply field_cons | constructor].
  - destruct s as [|c' s']; [discriminate Es|].
    inversion IH as [|? ? [Ht1 Ht2] Hts]; subst.
    destruct (Str.is_space c').
    + constructor; [now apply field_cons | exact IH].
    + constructor; [now apply field_cons | exact Hts].
Qed.

Lemma split_field (p : string) : field p -> Str.split p = [p].
Proof.
  induction p as [|c p IH]; intros [Hne Hns]; [congruence|].
  simpl in Hns. apply andb_true_iff in Hns. destruct Hns as [Hc Hp].
  apply negb_true_iff in Hc. simpl. rewrite Hc.
  destruct p as [|c' p']; [reflexivity|].
  rewrite IH by (split; [discriminate | exact Hp]).
  simpl in Hp. apply andb_true_iff in Hp. destruct Hp as [Hc' _].
  apply negb_true_iff in Hc'. now rewrite Hc'.
Qed.

Lemma split_field_space (p r : string) :
  field p -> Str.split (p ++ String " " r) = p :: Str.split r.
Proof.
  induction p as [|c p IH]; intros [Hne Hns]; [congruence|].
  simpl in Hns. apply andb_true_iff in Hns. destruct Hns as [Hc Hp].
  apply negb_true_iff in Hc.
  change (String c p ++ String " " r) with (String c (p ++ String " " r)).
  simpl Str.split. rewrite Hc.
  destruct p as [|c' p'].
  - simpl. destruct (Str.split r); reflexivity.
  - rewrite IH by (split; [discriminate | exact Hp]).
    simpl in Hp. apply andb_true_iff in Hp. destruct Hp as [Hc' _].
    apply negb_true_iff in Hc'. simpl. now rewrite Hc'.
Qed.

Lemma split_join (ts : list string) :
  Forall field ts -> Str.split (Str.join " " ts) = ts.
Proof.
  induction ts as [|p ts IH]; intros H; [reflexivity|].
  inversion H as [|? ? Hp Hts]; subst.
  destruct ts as [|q ts].
  - simpl. now apply split_field.
  - change (Str.join " " (p :: q :: ts))
      with (p ++ String " " (Str.join " " (q :: ts))).
    rewrite split_field_space by exact Hp. now rewrite IH.
Qed.

Lemma of_int_canonical (c : Z) : 0 <= c <= 3 -> field (Str.of_int c).
Proof.
  intros H.
  assert (E : c = 0 \/ c = 1 \/ c = 2 \/ c = 3) by lia.
  destruct E as [-> | [-> | [-> | ->]]]; (split; [discriminate | reflexivity]).
Qed.

(** ** One line and one label file *)

(** A line with fewer than five fields is skipped, whatever the class
    list, and nothing is raised. *)
Lemma convert_line_short sc line :
  (List.length (Str.split (Str.strip line)) < 5)%nat ->
  convert_line sc line = Ok None.
Proof.
  intros H. unfold convert_line.
  apply Nat.ltb_lt in H. now rewrite H.
Qed.

Lemma convert_line_kept sc line o :
  convert_line sc line = Ok (Some o) -> exists c, kept_from sc line c o.
Proof.
  unfold convert_line, kept_from.
  set (parts := Str.split (Str.strip line)).
  destruct (List.length parts <? 5)%nat eqn:El; [discriminate|].
  apply Nat.ltb_ge in El. intros H.
  destruct (Str.int (hd EmptyString parts)) as [old|] eqn:Ei; [|discriminate].
  destruct (py_len sc) as [n|] eqn:En; [|discriminate].
  simpl in H.
  destruct (old <? n) eqn:Elt; [|discriminate].
  apply Z.ltb_lt in Elt.
  destruct (py_getitem sc old) as [v|] eqn:Eg; [|discriminate].
  simpl in H.
  destruct v as [| |name| |]; simpl in H; try discriminate.
  destruct (normalize_class_total name) as (c & Hc & Hr).
  rewrite Hc in H. simpl in H.
  destruct (0 <=? c) eqn:E0; [|discriminate].
  apply Z.leb_le in E0. inversion H; subst o.
  exists c. split; [exact El|].
  exists old, n, name. repeat split; try assumption; lia.
Qed.

Lemma kept_from_fields sc line c o :
  kept_from sc line c o ->
  List.length (Str.split o) = List.length (Str.split (Str.strip line)).
Proof.
  unfold kept_from.
  intros [Hlen (old & n & name & _ & _ & _ & _ & _ & Hc & ->)].
  pose proof (split_fields (Str.strip line)) as Hf.
  destruct (Str.split (Str.strip line)) as [|p ps]; [simpl in Hlen; lia|].
  inversion Hf; subst. simpl tl.
  rewrite split_join; [reflexivity|].
  constructor; [now apply of_int_canonical | assumption].
Qed.

Lemma convert_lines_in sc lines : forall out,
  convert_lines sc lines = Ok out ->
  forall o, In o out ->
    exists line, In line lines /\ convert_line sc line = Ok (Some o).
Proof.
  induction lines as [|l lines IH]; intros out H o Ho.
  - inversion H; subst. destruct Ho.
  - simpl in H.
    destruct (convert_line sc l) as [kept|] eqn:El; [|discriminate].
    destruct (convert_lines sc lines) as [more|] eqn:Em; [|discriminate].
    simpl in H. inversion H; subst out. clear H.
    destruct kept as [k|].
    + destruct Ho as [<-|Ho].
      * exists l. split; [now left | exact El].
      * destruct (IH _ eq_refl _ Ho) as (line & Hin & Hc).
        exists line. split; [now right | exact Hc].
    + destruct (IH _ eq_refl _ Ho) as (line & Hin & Hc).
      exists line. split; [now right | exact Hc].
Qed.

(** A skipped line leaves no trace in [new_lines]. *)
Lemma convert_lines_skip sc line before after :
  convert_line sc line = Ok None ->
  convert_lines sc (before ++ line :: after)
  = convert_lines sc (before ++ after).
Proof.
  intros H. induction before as [|l before IH]; simpl.
  - rewrite H. simpl. now destruct (convert_lines sc after).
  - now rewrite IH.
Qed.

(** ** Tree relations kept by the computations *)

Section Preservation.

Variable R : node -> node -> Prop.
Hypothesis R_refl : forall t, R t t.
Hypothesis R_trans : forall a b c, R a b -> R b c -> R a c.

Lemma preserves_ret {A} (a : A) : preserves R (ret a).
Proof. intros w r w' H. inversion H; subst. apply R_refl. Qed.

Lemma preserves_lift {A} (x : result A) : preserves R (lift x).
Proof. intros w r w' H. inversion H; subst. apply R_refl. Qed.

Lemma preserves_bind {A B} (m : M A) (k : A -> M B) :
  preserves R m -> (forall a, preserves R (k a)) -> preserves R (bind m k).
Proof.
  intros Hm Hk w r w' H. unfold bind in H.
  destruct (m w) as [[a|e] w1] eqn:E.
  - eapply R_trans; [exact (Hm _ _ _ E) | exact (Hk _ _ _ _ H)].
  - inversion H; subst. exact (Hm _ _ _ E).
Qed.

Lemma preserves_for_each {A X} (body : A -> X -> M A) (xs : list X) :
  (forall acc x, preserves R (body acc x)) ->
  forall acc, preserves R (for_each body acc xs).
Proof.
  intros Hb. induction xs as [|x xs IH]; intros acc; simpl.
  - apply preserves_ret.
  - apply preserves_bind; [apply Hb | intros a; apply IH].
Qed.

Lemma preserves_print m : preserves R (print m).
Proof. intros w r w' H. inversion H; subst. apply R_refl. Qed.

Lemma preserves_path_exists p : preserves R (path_exists p).
Proof. intros w r w' H. inversion H; subst. apply R_refl. Qed.

Lemma preserves_listdir p : preserves R (listdir p).
Proof.
  intros w r w' H. unfold listdir in H.
  destruct (lookup (fs w) p) as [[]|]; inversion H; subst; apply R_refl.
Qed.

Lemma preserves_read_text p : preserves R (read_text p).
Proof.
  intros w r w' H. unfold read_text in H.
  destruct (lookup (fs w) p) as [[]|]; inversion H; subst; apply R_refl.
Qed.

Lemma preserves_find_data_yaml p : preserves R (find_data_yaml p).
Proof. intros w r w' H. inversion H; subst. apply R_refl. Qed.

Lemma preserves_makedirs p :
  (forall t t', tree_makedirs t p = Some t' -> R t t') ->
  preserves R (makedirs p).
Proof.
  intros Hp w r w' H. unfold makedirs in H.
  destruct (tree_makedirs (fs w) p) as [t|] eqn:E; inversion H; subst.
  - now apply Hp.
  - apply R_refl.
Qed.

Lemma preserves_write_text p data :
  (forall t t', tree_write t p data = Some t' -> R t t') ->
  preserves R (write_text p data).
Proof.
  intros Hp w r w' H. unfold write_text in H.
  destruct (tree_write (fs w) p data) as [t|] eqn:E; inversion H; subst.
  - now apply Hp.
  - apply R_refl.
Qed.

Lemma preserves_copy src dst :
  (forall q t t' data,
     tree_write t (dst ++ q)%list data = Some t' -> R t t') ->
  preserves R (copy src dst).
Proof.
  intros Hp w r w' H. unfold copy in H.
  destruct (lookup (fs w) src) as [[data|]|];
    try (inversion H; subst; apply R_refl).
  match type of H with
  | context [tree_write _ ?d _] => set (dst' := d) in *
  end.
  assert (Hd : exists q, dst' = (dst ++ q)%list).
  { subst dst'. destruct (lookup (fs w) dst) as [[]|];
      [exists []; now rewrite app_nil_r | eexists; reflexivity
      | exists []; now rewrite app_nil_r]. }
  destruct Hd as [q Hq].
  destruct (path_eqb src dst'); [inversion H; subst; apply R_refl|].
  destruct (tree_write (fs w) dst' data) as [t|] eqn:E; inversion H; subst.
  - rewrite Hq in E. exact (Hp _ _ _ _ E).
  - apply R_refl.
Qed.

End Preservation.

(** ** What convert_labels and the merge loop may change

    Any reflexive, transitive relation on trees that is kept by the three
    kinds of update below an output directory is kept by [convert_labels]
    and by the loop of [prepare_dataset]. *)

Section MergePreservation.

Variable yaml_safe_load : string -> result yaml.
Variable R : node -> node -> Prop.
Hypothesis R_refl : forall t, R t t.
Hypothesis R_trans : forall a b c, R a b -> R b c -> R a c.

Variable output_dir : path.

Hypothesis R_makedirs : forall q t t',
  tree_makedirs t (output_dir ++ q)%list = Some t' -> R t t'.
Hypothesis R_image : forall split q t t' data,
  q <> [] ->
  tree_write t ((output_dir ++ [split; "images"]) ++ q)%list data = Some t' ->
  R t t'.
Hypothesis R_label : forall split x t t' data,
  label_text data ->
  tree_write t ((output_dir ++ [split; "labels"]) ++ [x])%list data = Some t' ->
  R t t'.

Lemma preserves_bind_lift {A B} (x : result A) (k : A -> M B) :
  (forall a, x = Ok a -> preserves R (k a)) -> preserves R (bind (lift x) k).
Proof.
  intros Hk w r w' H. unfold bind, lift in H.
  destruct x as [a|e].
  - exact (Hk a eq_refl _ _ _ H).
  - inversion H; subst. apply R_refl.
Qed.

Lemma preserves_convert_image split dataset_dir img_dir lbl_dir sc count img :
  preserves R
    (convert_image dataset_dir img_dir lbl_dir
       (output_dir ++ [split; "images"])%list
       (output_dir ++ [split; "labels"])%list sc count img).
Proof.
  unfold convert_image.
  destruct (negb _); [now apply preserves_ret|].
  apply preserves_bind; try assumption.
  { apply preserves_copy; try assumption.
    intros q t t' data Hw. rewrite <- app_assoc in Hw.
    eapply R_image; [|exact Hw]. discriminate. }
  intros _. apply preserves_bind; try assumption.
  { now apply preserves_path_exists. }
  intros [|]; [|now apply preserves_ret].
  apply preserves_bind; try assumption.
  { now apply preserves_read_text. }
  intros text. apply preserves_bind_lift.
  intros new_lines Hc.
  destruct new_lines as [|l ls]; [now apply preserves_ret|].
  apply preserves_bind; try assumption.
  - apply preserves_write_text; try assumption.
    intros t t' Hw. eapply R_label; [|exact Hw].
    exists sc, (readlines text), (l :: ls).
    repeat split; [exact Hc | discriminate].
  - intros _. now apply preserves_ret.
Qed.

Lemma preserves_convert_split split dataset_dir sc count split_name :
  preserves R
    (convert_split dataset_dir (output_dir ++ [split; "images"])%list
       (output_dir ++ [split; "labels"])%list sc count split_name).
Proof.
  unfold convert_split.
  apply preserves_bind; try assumption.
  { now apply preserves_path_exists. }
  intros present. destruct (negb present); [now apply preserves_ret|].
  apply preserves_bind; try assumption.
  { now apply preserves_listdir. }
  intros files. apply preserves_for_each; try assumption.
  intros acc x. apply preserves_convert_image.
Qed.

Lemma preserves_convert_labels dataset_dir split :
  preserves R (convert_labels yaml_safe_load dataset_dir output_dir split).
Proof.
  unfold convert_labels.
  apply preserves_bind; try assumption.
  { apply preserves_makedirs; try assumption. intros t t'. apply R_makedirs. }
  intros _. apply preserves_bind; try assumption.
  { apply preserves_makedirs; try assumption. intros t t'. apply R_makedirs. }
  intros _. apply preserves_bind; try assumption.
  { now apply preserves_find_data_yaml. }
  intros [data_yaml|].
  - apply preserves_bind; try assumption.
    { now apply preserves_read_text. }
    intros text. apply preserves_bind; try assumption.
    { now apply preserves_lift. }
    intros config. apply preserves_bind; try assumption.
    { now apply preserves_lift. }
    intros sc. apply preserves_bind; try assumption.
    { now apply preserves_print. }
    intros _. apply preserves_for_each; try assumption.
    intros acc x. apply preserves_convert_split.
  - apply preserves_bind; try assumption.
    { now apply preserves_print. }
    intros _. now apply preserves_ret.
Qed.

Lemma preserves_merge_one raw_dir totals entry :
  preserves R (merge_one yaml_safe_load raw_dir output_dir totals entry).
Proof.
  unfold merge_one.
  apply preserves_bind; try assumption.
  { now apply preserves_path_exists. }
  intros present. destruct (negb present); [now apply preserves_ret|].
  apply preserves_bind; try assumption.
  { now apply preserves_print. }
  intros _. apply preserves_bind; try assumption.
  { apply preserves_convert_labels. }
  intros train_count. apply preserves_bind; try assumption.
  { apply preserves_convert_labels. }
  intros valid_count. apply preserves_bind; try assumption.
  { now apply preserves_print. }
  intros _. now apply preserves_ret.
Qed.

Lemma preserves_merge_loop raw_dir totals entries :
  preserves R
    (for_each (merge_one yaml_safe_load raw_dir output_dir) totals entries).
Proof.
  apply preserves_for_each; try assumption.
  intros acc x. apply preserves_merge_one.
Qed.

End MergePreservation.

(** ** Paths below the output directory *)

Lemma images_not_labels (output_dir : path) s s' q q' :
  ((output_dir ++ [s; "labels"]) ++ q)%list
  = ((output_dir ++ [s'; "images"]) ++ q')%list -> False.
Proof.
  rewrite <- !app_assoc. intros H. apply app_inv_head in H.
  simpl in H. inversion H.
Qed.

Lemma kept_from_split sc line c o :
  kept_from sc line c o ->
  0 <= c <= 3
  /\ Str.split o = Str.of_int c :: tl (Str.split (Str.strip line))
  /\ Str.int (hd EmptyString (Str.split o)) = Ok c.
Proof.
  unfold kept_from.
  intros [Hlen (old & n & name & _ & _ & _ & _ & _ & Hc & ->)].
  split; [exact Hc|].
  pose proof (split_fields (Str.strip line)) as Hf.
  destruct (Str.split (Str.strip line)) as [|p ps]; [simpl in Hlen; lia|].
  inversion Hf; subst. simpl tl.
  assert (Hs : Str.split (Str.join " " (Str.of_int c :: ps))
               = Str.of_int c :: ps).
  { apply split_join.
    constructor; [now apply of_int_canonical | assumption]. }
  split; [exact Hs|]. rewrite Hs. simpl hd.
  assert (E : c = 0 \/ c = 1 \/ c = 2 \/ c = 3) by lia.
  destruct E as [-> | [-> | [-> | ->]]]; reflexivity.
Qed.

(** An index at or above the length of the class list drops the line. *)
Lemma convert_line_index_too_large sc line old n :
  (5 <= List.length (Str.split (Str.strip line)))%nat ->
  Str.int (hd EmptyString (Str.split (Str.strip line))) = Ok old ->
  py_len sc = Ok n -> n <= old ->
  convert_line sc line = Ok None.
Proof.
  intros Hlen Hi Hn Hge. unfold convert_line.
  apply Nat.ltb_ge in Hlen. rewrite Hlen, Hi. simpl. rewrite Hn. simpl.
  apply Z.ltb_ge in Hge. now rewrite Hge.
Qed.

(** C2 at its failing input: with the class list [phone], the line
    "-1 0.5 0.5 0.2 0.2" names no position 0..0 of the list, yet it
    passes the test [old_class_id < len(source_classes)], Python's
    negative indexing picks the last name, and the line is written to the
    merged label file with class 1. *)
Theorem negative_class_index_kept :
  convert_line (YList [YStr "phone"]) "-1 0.5 0.5 0.2 0.2"
  = Ok (Some "1 0.5 0.5 0.2 0.2")
  /\ let run := convert_labels sample_safe_load ["raw"; "phone_1"] ["merged"]
                  "train" (sample_world "-1 0.5 0.5 0.2 0.2") in
     fst run = Ok 1
     /\ lookup (fs (snd run)) ["merged"; "train"; "labels"; "phone_1_a.txt"]
        = Some (File "1 0.5 0.5 0.2 0.2").
Proof. vm_compute. repeat split; reflexivity. Qed.

(** ** Existing paths *)

Lemma lookup_parent_dir (p : path) : forall t x n,
  lookup t (p ++ [x])%list = Some n -> exists es, lookup t p = Some (Dir es).
Proof.
  induction p as [|y p IH]; intros t x n H; simpl in *.
  - destruct t as [|es]; [discriminate | now exists es].
  - destruct t as [|es]; [discriminate|].
    destruct (find_entry y es); [now apply (IH _ x n) | discriminate].
Qed.

Lemma makedirs_existing p : forall t es,
  lookup t p = Some (Dir es) -> tree_makedirs t p = Some t.
Proof.
  induction p as [|x p IH]; intros t es H; simpl in *.
  - now inversion H.
  - destruct t as [|es0]; [discriminate|].
    destruct (find_entry x es0) as [c|] eqn:E; [|discriminate].
    rewrite (IH _ _ H). now rewrite (set_entry_found _ _ _ E).
Qed.

Lemma makedirs_keeps_paths q : forall t t' p,
  tree_makedirs t q = Some t' -> lookup t p <> None -> lookup t' p <> None.
Proof.
  induction q as [|x q IH]; intros t t' p Hm Hp.
  - destruct t; simpl in Hm; [discriminate | now inversion Hm; subst].
  - destruct t as [|es]; simpl in Hm; [discriminate|].
    destruct (tree_makedirs
                match find_entry x es with Some c0 => c0 | None => Dir [] end q)
      as [c'|] eqn:E; [|discriminate].
    inversion Hm; subst t'. clear Hm.
    destruct p as [|y p]; [discriminate|].
    simpl in *. rewrite find_set_entry.
    destruct (String.eqb_spec x y) as [->|Hxy]; [|exact Hp].
    destruct (find_entry y es) as [d|]; [|congruence].
    exact (IH _ _ _ E Hp).
Qed.

Lemma makedirs_creates p : forall t t',
  tree_makedirs t p = Some t' -> exists es, lookup t' p = Some (Dir es).
Proof.
  induction p as [|x p IH]; intros t t' Hm.
  - destruct t as [|es]; simpl in Hm; [discriminate|].
    inversion Hm; subst. now exists es.
  - destruct t as [|es]; simpl in Hm; [discriminate|].
    destruct (tree_makedirs
                match find_entry x es with Some c0 => c0 | None => Dir [] end p)
      as [c'|] eqn:E; [|discriminate].
    inversion Hm; subst t'. simpl. rewrite find_set_entry_same.
    exact (IH _ _ E).
Qed.

Lemma commands_run_app tr tr' :
  commands_run (tr ++ tr') = (commands_run tr ++ commands_run tr')%list.
Proof.
  induction tr as [|[m|c] tr IH]; simpl; [reflexivity | exact IH |].
  now rewrite IH.
Qed.

(** ** download_datasets *)

Section FetchProperties.

Variable run_command : shell_cmd -> node -> node.

Lemma download_one_present output_dir entry w :
  lookup (fs w) (output_dir ++ [fst entry])%list <> None ->
  download_one run_command output_dir tt entry w
  = (Ok tt, World (fs w) (trace w ++ [Print (MsgAlreadyExists (fst entry))])).
Proof.
  intros H. unfold download_one, bind. rewrite path_exists_below.
  destruct (lookup (fs w) (output_dir ++ [fst entry])%list); [|congruence].
  reflexivity.
Qed.

Lemma download_one_absent output_dir entry w :
  lookup (fs w) (output_dir ++ [fst entry])%list = None ->
  download_one run_command output_dir tt entry w
  = match tree_makedirs (fs w) (output_dir ++ [fst entry])%list with
    | None =>
        (Raise OSError,
         World (fs w) (trace w ++ [Print (MsgDownloading (fst entry))]))
    | Some t =>
        (Ok tt,
         World (fold_left (fun t c => run_command c t)
                  (dataset_commands output_dir entry) t)
           (trace w ++ Print (MsgDownloading (fst entry))
              :: map System (dataset_commands output_dir entry)))
    end.
Proof.
  intros H. unfold download_one, bind. rewrite path_exists_below.
  unfold print, makedirs, system.
  rewrite H. simpl.
  destruct (tree_makedirs (fs w) (output_dir ++ [fst entry])%list); simpl.
  - now rewrite <- !app_assoc.
  - reflexivity.
Qed.

(** The commands of one entry name its own directory. *)
Lemma dataset_commands_other output_dir e e' c :
  fst e <> fst e' ->
  In c (dataset_commands output_dir e) ->
  In c (dataset_commands output_dir e') -> False.
Proof.
  intros Hne H H'. unfold dataset_commands in *. simpl in H, H'.
  assert (X : forall a b : list string,
            ((output_dir ++ [fst e]) ++ a = (output_dir ++ [fst e']) ++ b)%list
            -> False).
  { intros a b E. rewrite <- !app_assoc in E. apply app_inv_head in E.
    simpl in E. inversion E. contradiction. }
  destruct H as [<-|[<-|[<-|[]]]];
    destruct H' as [E|[E|[E|[]]]]; inversion E;
    match goal with
    | K : (_ ++ _)%list = (_ ++ _)%list |- _ =>
        first [exact (X _ _ K) | exact (X _ _ (eq_sym K))]
    end.
Qed.

Section Persistent.

(** External commands do not delete the directory [kept]. *)
Variable kept : path.
Hypothesis run_command_keeps : forall c t,
  lookup t kept <> None -> lookup (run_command c t) kept <> None.

Lemma download_one_keeps output_dir entry w r w' :
  download_one run_command output_dir tt entry w = (r, w') ->
  lookup (fs w) kept <> None -> lookup (fs w') kept <> None.
Proof.
  intros Hrun Hk.
  destruct (lookup (fs w) (output_dir ++ [fst entry])%list) eqn:E.
  - rewrite download_one_present in Hrun by congruence.
    now inversion Hrun; subst.
  - rewrite (download_one_absent _ _ _ E) in Hrun.
    destruct (tree_makedirs (fs w) (output_dir ++ [fst entry])%list)
      as [t|] eqn:Em; inversion Hrun; subst; simpl; [|exact Hk].
    repeat apply run_command_keeps.
    exact (makedirs_keeps_paths _ _ _ _ Em Hk).
Qed.

Lemma download_loop_skips output_dir e entries : forall w r w',
  kept = (output_dir ++ [fst e])%list ->
  lookup (fs w) kept <> None ->
  for_each (download_one run_command output_dir) tt entries w = (r, w') ->
  exists evs, trace w' = (trace w ++ evs)%list
    /\ forall c, In c (dataset_commands output_dir e) ->
                 ~ In c (commands_run evs).
Proof.
  intros w r w' Hkept. revert w r w'.
  induction entries as [|e' entries IH]; intros w r w' Hk Hrun.
  - inversion Hrun; subst. exists []. split; [now rewrite app_nil_r|].
    intros c _ [].
  - simpl in Hrun. unfold bind in Hrun.
    destruct (download_one run_command output_dir tt e' w) as [[[]|ex] w1]
      eqn:E1.
    + pose proof (download_one_keeps _ _ _ _ _ E1 Hk) as Hk1.
      destruct (IH _ _ _ Hk1 Hrun) as (evs & Ht & Hc).
      assert (H1 : exists evs1, trace w1 = (trace w ++ evs1)%list
                /\ forall c, In c (dataset_commands output_dir e) ->
                             ~ In c (commands_run evs1)).
      { destruct (lookup (fs w) (output_dir ++ [fst e'])%list) eqn:El.
        - rewrite download_one_present in E1 by congruence.
          inversion E1; subst. eexists. split; [reflexivity|].
          intros c _ [].
        - rewrite (download_one_absent _ _ _ El) in E1.
          destruct (tree_makedirs (fs w) (output_dir ++ [fst e'])%list);
            inversion E1; subst.
          eexists. split; [reflexivity|].
          intros c Hin Hrunc. simpl in Hrunc.
          assert (Hne : fst e <> fst e').
          { intros Heq. apply Hk. try subst kept. now rewrite Heq. }
          apply (dataset_commands_other output_dir e e' c Hne Hin).
          clear -Hrunc. unfold dataset_commands. simpl. tauto. }
      destruct H1 as (evs1 & Ht1 & Hc1).
      exists (evs1 ++ evs)%list. split.
      * now rewrite Ht, Ht1, app_assoc.
      * intros c Hin Hrunc. rewrite commands_run_app in Hrunc.
        apply in_app_or in Hrunc.
        destruct Hrunc; [exact (Hc1 _ Hin H) | exact (Hc _ Hin H)].
    + inversion Hrun; subst.
      destruct (lookup (fs w) (output_dir ++ [fst e'])%list) eqn:El.
      * rewrite download_one_present in E1 by congruence. inversion E1.
      * rewrite (download_one_absent _ _ _ El) in E1.
        destruct (tree_makedirs (fs w) (output_dir ++ [fst e'])%list);
          inversion E1; subst.
        eexists. split; [reflexivity|]. intros c _ [].
Qed.

Lemma download_loop_keeps output_dir entries : forall w r w',
  for_each (download_one run_command output_dir) tt entries w = (r, w') ->
  lookup (fs w) kept <> None -> lookup (fs w') kept <> None.
Proof.
  induction entries as [|e entries IH]; intros w r w' Hrun Hk.
  - now inversion Hrun; subst.
  - simpl in Hrun. unfold bind in Hrun.
    destruct (download_one run_command output_dir tt e w) as [[[]|ex] w1]
      eqn:E1.
    + exact (IH _ _ _ Hrun (download_one_keeps _ _ _ _ _ E1 Hk)).
    + inversion Hrun; subst. exact (download_one_keeps _ _ _ _ _ E1 Hk).
Qed.

End Persistent.

Lemma download_loop_all_present output_dir entries : forall w,
  (forall e, In e entries ->
     lookup (fs w) (output_dir ++ [fst e])%list <> None) ->
  for_each (download_one run_command output_dir) tt entries w
  = (Ok tt,
     World (fs w)
       (trace w ++ map (fun e => Print (MsgAlreadyExists (fst e))) entries)).
Proof.
  induction entries as [|e entries IH]; intros w H; simpl.
  - rewrite app_nil_r. now destruct w.
  - unfold bind. rewrite download_one_present by (apply H; now left).
    rewrite IH by (intros e' He'; apply H; now right).
    simpl. now rewrite <- app_assoc.
Qed.

Lemma download_loop_creates output_dir entries : forall w w',
  (forall e c t, In e entries ->
     lookup t (output_dir ++ [fst e])%list <> None ->
     lookup (run_command c t) (output_dir ++ [fst e])%list <> None) ->
  for_each (download_one run_command output_dir) tt entries w = (Ok tt, w') ->
  forall e, In e entries ->
    lookup (fs w') (output_dir ++ [fst e])%list <> None.
Proof.
  induction entries as [|e0 entries IH]; intros w w' Hkeep Hrun e He;
    [destruct He|].
  simpl in Hrun. unfold bind in Hrun.
  destruct (download_one run_command output_dir tt e0 w) as [[[]|ex] w1]
    eqn:E1; [|discriminate].
  destruct He as [<-|He].
  - apply (download_loop_keeps (output_dir ++ [fst e0])%list
             (fun c t => Hkeep e0 c t (or_introl eq_refl)) _ _ _ _ _ Hrun).
    destruct (lookup (fs w) (output_dir ++ [fst e0])%list) eqn:El.
    + rewrite download_one_present in E1 by congruence.
      inversion E1; subst. simpl. congruence.
    + rewrite (download_one_absent _ _ _ El) in E1.
      destruct (tree_makedirs (fs w) (output_dir ++ [fst e0])%list)
        as [t|] eqn:Em; inversion E1; subst. simpl.
      repeat apply (Hkeep e0 _ _ (or_introl eq_refl)).
      destruct (makedirs_creates _ _ _ Em) as [es Hes]. congruence.
  - apply (IH w1 w'); try assumption.
    intros e' c t He'. apply Hkeep. now right.
Qed.

End FetchProperties.

(** C8: the fetcher runs the download, extract and delete commands of an
    entry only when no directory of that name exists: an existing
    directory gets the "already exists" message and nothing else; a
    missing one is created and gets its three commands in order. In a
    whole run, no command of an entry whose directory exists at the start
    is ever run, as long as the external commands do not delete that
    directory; and a run that follows a completed run, with no deletion in
    between, runs no command at all. *)
Theorem fetch_skips_existing
    (run_command : shell_cmd -> node -> node) (output_dir : path) :
  (forall entry w,
     lookup (fs w) (output_dir ++ [fst entry])%list <> None ->
     download_one run_command output_dir tt entry w
     = (Ok tt,
        World (fs w) (trace w ++ [Print (MsgAlreadyExists (fst entry))])))
  /\ (forall entry w,
        lookup (fs w) (output_dir ++ [fst entry])%list = None ->
        download_one run_command output_dir tt entry w
        = match tree_makedirs (fs w) (output_dir ++ [fst entry])%list with
          | None =>
              (Raise OSError,
               World (fs w) (trace w ++ [Print (MsgDownloading (fst entry))]))
          | Some t =>
              (Ok tt,
               World (fold_left (fun t c => run_command c t)
                        (dataset_commands output_dir entry) t)
                 (trace w ++ Print (MsgDownloading (fst entry))
                    :: map System (dataset_commands output_dir entry)))
          end)
  /\ (forall entry w r w',
        (forall c t,
           lookup t (output_dir ++ [fst entry])%list <> None ->
           lookup (run_command c t) (output_dir ++ [fst entry])%list <> None) ->
        lookup (fs w) (output_dir ++ [fst entry])%list <> None ->
        download_datasets run_command output_dir w = (r, w') ->
        exists evs, trace w' = (trace w ++ evs)%list
          /\ forall c, In c (dataset_commands output_dir entry) ->
                       ~ In c (commands_run evs))
  /\ (forall w w1,
        (forall e c t, In e ROBOFLOW_DATASETS ->
           lookup t (output_dir ++ [fst e])%list <> None ->
           lookup (run_command c t) (output_dir ++ [fst e])%list <> None) ->
        download_datasets run_command output_dir w = (Ok tt, w1) ->
        exists evs,
          download_datasets run_command output_dir w1
          = (Ok tt, World (fs w1) (trace w1 ++ evs))
          /\ commands_run evs = []).
Proof.
  split; [|split; [|split]].
  - intros entry w H. now apply download_one_present.
  - intros entry w H. now apply download_one_absent.
  - intros entry w r w' Hkeep Hk Hrun.
    unfold download_datasets, bind, makedirs in Hrun.
    destruct (tree_makedirs (fs w) output_dir) as [t0|] eqn:Em.
    + destruct (for_each (download_one run_command output_dir) tt
                  ROBOFLOW_DATASETS (set_fs w t0)) as [[[]|ex] w1] eqn:El.
      * destruct (download_loop_skips run_command _ Hkeep output_dir entry
                    _ (set_fs w t0) _ _ eq_refl
                    (makedirs_keeps_paths _ _ _ _ Em Hk) El)
          as (evs & Ht & Hc).
        inversion Hrun; subst. simpl in *.
        exists (evs ++ [Print MsgAllDownloaded])%list. split.
        -- now rewrite Ht, app_assoc.
        -- intros c Hin. rewrite commands_run_app. simpl.
           rewrite app_nil_r. now apply Hc.
      * destruct (download_loop_skips run_command _ Hkeep output_dir entry
                    _ (set_fs w t0) _ _ eq_refl
                    (makedirs_keeps_paths _ _ _ _ Em Hk) El)
          as (evs & Ht & Hc).
        inversion Hrun; subst. now exists evs.
    + inversion Hrun; subst. exists []. split; [now rewrite app_nil_r|].
      intros c _ [].
  - intros w w1 Hkeep Hrun.
    unfold download_datasets, bind, makedirs in Hrun.
    destruct (tree_makedirs (fs w) output_dir) as [t0|] eqn:Em;
      [|discriminate].
    destruct (for_each (download_one run_command output_dir) tt
                ROBOFLOW_DATASETS (set_fs w t0)) as [[[]|ex] w0] eqn:El;
      [|discriminate].
    pose proof (download_loop_creates run_command output_dir _ _ _ Hkeep El)
      as Hall.
    assert (Hfs : fs w1 = fs w0) by (inversion Hrun; reflexivity).
    rewrite <- Hfs in Hall. clear Hrun El Hfs.
    assert (Hdir : exists es, lookup (fs w1) output_dir = Some (Dir es)).
    { destruct (lookup (fs w1) (output_dir ++ ["phone_1"])%list) as [n|] eqn:E.
      - exact (lookup_parent_dir _ _ _ _ E).
      - exfalso. apply (Hall (hd ("", "") ROBOFLOW_DATASETS));
          [now left | exact E]. }
    destruct Hdir as [es Hes].
    exists (map (fun e => Print (MsgAlreadyExists (fst e))) ROBOFLOW_DATASETS
            ++ [Print MsgAllDownloaded])%list.
    split; [|reflexivity].
    unfold download_datasets, bind, makedirs.
    rewrite (makedirs_existing _ _ _ Hes).
    replace (set_fs w1 (fs w1)) with w1 by (now destruct w1).
    rewrite download_loop_all_present by exact Hall.
    unfold print. simpl fs. simpl trace. now rewrite <- app_assoc.
Qed.

Lemma fetch_skips_existing_witness :
  download_one (fun _ t => t) ["raw"] tt
    ("phone_1", "https://app.roboflow.com/ds/5ReObgnLbQ?key=HTPSgVzDLW")
    (sample_world "0 0.5 0.5 0.2 0.2")
  = (Ok tt,
     World (sample_tree "0 0.5 0.5 0.2 0.2")
       [Print (MsgAlreadyExists "phone_1")]).
Proof.
  destruct (fetch_skips_existing (fun _ t => t) ["raw"]) as (H & _).
  apply (H ("phone_1", _) (sample_world "0 0.5 0.5 0.2 0.2")).
  vm_compute. discriminate.
Defined.

(** ** The scan for data.yaml *)

Lemma walk_find_dir name es :
  walk_find name (Dir es)
  = if has_file name es then Some [] else walk_subdirs name es.
Proof.
  simpl. destruct (has_file name es); [reflexivity|].
  induction es as [|[x c] es IH]; simpl; [reflexivity|].
  destruct c; [exact IH|]. now rewrite IH.
Qed.

Lemma walk_subdirs_none name es :
  walk_subdirs name es = None
  <-> Forall (fun e => walk_find name (snd e) = None) es.
Proof.
  induction es as [|[x c] es IH]; simpl.
  - split; [constructor | reflexivity].
  - destruct c as [data|d].
    + rewrite IH. split; intros H.
      * constructor; [reflexivity | exact H].
      * now inversion H.
    + destruct (walk_find name (Dir d)) eqn:E.
      * split; [discriminate|]. intros H. inversion H; subst.
        simpl in *. congruence.
      * rewrite IH. split; intros H.
        -- constructor; [exact E | exact H].
        -- now inversion H.
Qed.

Lemma has_file_false name es :
  has_file name es = false
  <-> Forall (fun e => String.eqb (fst e) name && is_file (snd e) = false) es.
Proof.
  unfold has_file. induction es as [|e es IH]; simpl.
  - split; [constructor | reflexivity].
  - rewrite orb_false_iff, IH. split.
    + intros [H1 H2]. now constructor.
    + intros H. now inversion H.
Qed.

Lemma Forall_set_entry (P : string * node -> Prop) x c es :
  P (x, c) -> Forall P es -> Forall P (set_entry x c es).
Proof.
  intros Hc. induction es as [|[y d] es IH]; intros H; simpl.
  - constructor; [exact Hc | constructor].
  - inversion H; subst. destruct (String.eqb y x).
    + now constructor.
    + constructor; [assumption | now apply IH].
Qed.

Lemma find_entry_in x c es :
  find_entry x es = Some c -> exists y, In (y, c) es.
Proof.
  induction es as [|[y d] es IH]; simpl; [discriminate|].
  destruct (String.eqb y x).
  - intros [= ->]. exists y. now left.
  - intros H. destruct (IH H) as [z Hz]. exists z. now right.
Qed.

Lemma makedirs_is_dir p t t' :
  tree_makedirs t p = Some t' -> exists es, t' = Dir es.
Proof.
  destruct t as [|es]; [destruct p; discriminate|].
  destruct p as [|x p]; simpl.
  - intros [= <-]. now exists es.
  - destruct (tree_makedirs _ p); [|discriminate].
    intros [= <-]. eexists. reflexivity.
Qed.

(** Creating directories adds no data.yaml. *)
Lemma walk_find_makedirs name p : forall t t',
  tree_makedirs t p = Some t' ->
  walk_find name t = None -> walk_find name t' = None.
Proof.
  induction p as [|x p IH]; intros t t' Hm Hw.
  - destruct t; simpl in Hm; [discriminate | now inversion Hm; subst].
  - destruct t as [|es]; simpl in Hm; [discriminate|].
    destruct (tree_makedirs
                match find_entry x es with Some c0 => c0 | None => Dir [] end p)
      as [c'|] eqn:E; [|discriminate].
    inversion Hm; subst t'. clear Hm.
    rewrite walk_find_dir in Hw. rewrite walk_find_dir.
    destruct (has_file name es) eqn:Hf; [discriminate|].
    apply walk_subdirs_none in Hw. apply has_file_false in Hf.
    destruct (makedirs_is_dir _ _ _ E) as [es' ->].
    assert (Hc' : walk_find name (Dir es') = None).
    { apply (IH _ _ E).
      destruct (find_entry x es) as [c0|] eqn:Ex; [|reflexivity].
      destruct (find_entry_in _ _ _ Ex) as [y Hy].
      rewrite Forall_forall in Hw. exact (Hw _ Hy). }
    replace (has_file name (set_entry x (Dir es') es)) with false.
    + apply walk_subdirs_none. now apply Forall_set_entry.
    + symmetry. apply has_file_false. apply Forall_set_entry; [|exact Hf].
      simpl. apply andb_false_r.
Qed.

Lemma no_manifest_makedirs ds : forall p t t',
  tree_makedirs t p = Some t' -> no_manifest t ds -> no_manifest t' ds.
Proof.
  unfold no_manifest.
  induction ds as [|y ds IH]; intros p t t' Hm Hn.
  - simpl in *. exact (walk_find_makedirs _ _ _ _ Hm Hn).
  - destruct t as [|es]; [destruct p; discriminate|].
    destruct p as [|x p]; simpl in Hm.
    + now inversion Hm; subst.
    + destruct (tree_makedirs
                  match find_entry x es with Some c0 => c0 | None => Dir [] end
                  p) as [c'|] eqn:E; [|discriminate].
      inversion Hm; subst t'. clear Hm.
      simpl in *. rewrite find_set_entry.
      destruct (String.eqb_spec x y) as [->|Hxy]; [|exact Hn].
      apply (IH _ _ _ E).
      destruct (find_entry y es) as [c0|]; [exact Hn|].
      destruct ds; simpl; [reflexivity | exact I].
Qed.

Lemma makedirs_keeps_files q : forall t t' p c,
  tree_makedirs t q = Some t' ->
  lookup t p = Some (File c) -> lookup t' p = Some (File c).
Proof.
  induction q as [|x q IH]; intros t t' p c Hm Hp.
  - destruct t; simpl in Hm; [discriminate | now inversion Hm; subst].
  - destruct t as [|es]; simpl in Hm;
      [discriminate|].
    destruct (tree_makedirs
                match find_entry x es with Some c0 => c0 | None => Dir [] end q)
      as [c'|] eqn:E; [|discriminate].
    inversion Hm; subst t'. clear Hm.
    destruct p as [|y p]; [discriminate|].
    simpl in *. rewrite find_set_entry.
    destruct (String.eqb_spec x y) as [->|Hxy]; [|exact Hp].
    destruct (find_entry y es) as [d|]; [|discriminate].
    exact (IH _ _ _ _ E Hp).
Qed.

(** C9: when the scan finds no data.yaml below the dataset directory,
    [convert_labels] only creates the two output folders, prints the
    "No data.yaml found" message and returns 0; the files of the tree
    afterwards are exactly the files before, so the dataset contributes
    no image and no label file. (When an output folder cannot be
    created, the call raises before the scan.) *)
Theorem missing_manifest_skips_dataset
    yaml_safe_load dataset_dir output_dir split w :
  no_manifest (fs w) dataset_dir ->
  convert_labels yaml_safe_load dataset_dir output_dir split w
  = match tree_makedirs (fs w) (output_dir ++ [split; "images"])%list with
    | None => (Raise OSError, w)
    | Some t1 =>
        match tree_makedirs t1 (output_dir ++ [split; "labels"])%list with
        | None => (Raise OSError, set_fs w t1)
        | Some t2 =>
            (Ok 0, World t2 (trace w ++ [Print (MsgNoDataYaml dataset_dir)]))
        end
    end
  /\ forall p c,
       lookup
         (fs (snd (convert_labels yaml_safe_load dataset_dir output_dir
                     split w))) p = Some (File c)
       <-> lookup (fs w) p = Some (File c).
Proof.
  intros Hno.
  assert (Hrun :
    convert_labels yaml_safe_load dataset_dir output_dir split w
    = match tree_makedirs (fs w) (output_dir ++ [split; "images"])%list with
      | None => (Raise OSError, w)
      | Some t1 =>
          match tree_makedirs t1 (output_dir ++ [split; "labels"])%list with
          | None => (Raise OSError, set_fs w t1)
          | Some t2 =>
              (Ok 0,
               World t2 (trace w ++ [Print (MsgNoDataYaml dataset_dir)]))
          end
      end).
  { unfold convert_labels, bind, makedirs.
    destruct (tree_makedirs (fs w) (output_dir ++ [split; "images"])%list)
      as [t1|] eqn:E1; [|reflexivity].
    simpl fs.
    destruct (tree_makedirs t1 (output_dir ++ [split; "labels"])%list)
      as [t2|] eqn:E2; [|reflexivity].
    pose proof (no_manifest_makedirs _ _ _ _ E2
                  (no_manifest_makedirs _ _ _ _ E1 Hno)) as Hno2.
    unfold no_manifest in Hno2.
    unfold find_data_yaml, print, set_fs. cbn [fs trace].
    destruct (lookup t2 dataset_dir) as [n|]; [rewrite Hno2|]; reflexivity. }
  split; [exact Hrun|].
  intros p c. rewrite Hrun.
  destruct (tree_makedirs (fs w) (output_dir ++ [split; "images"])%list)
    as [t1|] eqn:E1; [|reflexivity].
  destruct (tree_makedirs t1 (output_dir ++ [split; "labels"])%list)
    as [t2|] eqn:E2; simpl.
  - split; intros H.
    + exact (lookup_file_makedirs _ _ _ _ _ E1
               (lookup_file_makedirs _ _ _ _ _ E2 H)).
    + exact (makedirs_keeps_files _ _ _ _ _ E2
               (makedirs_keeps_files _ _ _ _ _ E1 H)).
  - split; intros H.
    + exact (lookup_file_makedirs _ _ _ _ _ E1 H).
    + exact (makedirs_keeps_files _ _ _ _ _ E1 H).
Qed.

Lemma missing_manifest_skips_dataset_witness :
  convert_labels sample_safe_load ["raw"; "phone_1"] ["merged"] "train"
    (World bare_tree [])
  = (Ok 0,
     World (Dir [("raw",
                  Dir [("phone_1",
                        Dir [("train",
                              Dir [("images",
                                    Dir [("a.jpg", File "JPEG")])])])]);
                 ("merged",
                  Dir [("train", Dir [("images", Dir []);
                                      ("labels", Dir [])])])])
       [Print (MsgNoDataYaml ["raw"; "phone_1"])]).
Proof.
  assert (Hno : no_manifest (fs (World bare_tree [])) ["raw"; "phone_1"])
    by reflexivity.
  destruct (missing_manifest_skips_dataset sample_safe_load
              ["raw"; "phone_1"] ["merged"] "train" (World bare_tree []) Hno)
    as [H _].
  rewrite H. reflexivity.
Defined.

(** ** One image *)

Lemma lookup_write_other p : forall t t' data q c,
  tree_write t p data = Some t' -> q <> p ->
  lookup t q = Some (File c) -> lookup t' q = Some (File c).
Proof.
  induction p as [|x p IH]; intros t t' data q c Hw Hne Hl.
  - destruct t; simpl in Hw; discriminate.
  - destruct t as [|es]; simpl in Hw; [discriminate|].
    destruct q as [|y q]; [discriminate|].
    destruct p as [|x' p].
    + assert (Ht : t' = Dir (set_entry x (File data) es)).
      { destruct (find_entry x es) as [[]|]; now inversion Hw. }
      subst t'. simpl in *. rewrite find_set_entry.
      destruct (String.eqb_spec x y) as [->|Hxy]; [|exact Hl].
      destruct q as [|z q]; [congruence|].
      destruct (find_entry y es) as [[|es']|]; discriminate.
    + destruct (find_entry x es) as [c0|] eqn:Ex; [|discriminate].
      destruct (tree_write c0 (x' :: p) data) as [c'|] eqn:E; [|discriminate].
      inversion Hw; subst t'. clear Hw.
      simpl in Hl. simpl. rewrite find_set_entry.
      destruct (String.eqb_spec x y) as [->|Hxy]; [|exact Hl].
      rewrite Ex in Hl. apply (IH _ _ _ _ _ E); [congruence | exact Hl].
Qed.

Lemma copy_raises src dst w e w' :
  copy src dst w = (Raise e, w') -> w' = w.
Proof.
  unfold copy. destruct (lookup (fs w) src) as [[data|]|]; try now intros [=].
  destruct (path_eqb src _); [now intros [=]|].
  destruct (tree_write _ _ _); now intros [=].
Qed.

Lemma copy_returns src dst w w1 :
  copy src dst w = (Ok tt, w1) ->
  exists data dst',
    lookup (fs w) src = Some (File data)
    /\ (dst' = dst \/ dst' = (dst ++ [path_name src])%list)
    /\ tree_write (fs w) dst' data = Some (fs w1)
    /\ trace w1 = trace w.
Proof.
  unfold copy. destruct (lookup (fs w) src) as [[data|]|]; try now intros [=].
  match goal with
  | |- context [tree_write _ ?d _] => set (dst' := d)
  end.
  destruct (path_eqb src dst'); [now intros [=]|].
  destruct (tree_write (fs w) dst' data) as [t|] eqn:E; [|now intros [=]].
  intros [= <-]. exists data, dst'. repeat split; try assumption.
  subst dst'. destruct (lookup (fs w) dst) as [[]|]; auto.
Qed.

Lemma path_name_join (dir : path) (name : string) :
  path_name (dir ++ [name])%list = name.
Proof. unfold path_name. apply last_last. Qed.

Section OneImage.

Variables (dataset_dir img_dir lbl_dir output_dir : path) (split : string).
Variables (source_classes : yaml) (count : Z) (img_file : string).

Let images_out : path := (output_dir ++ [split; "images"])%list.
Let labels_out : path := (output_dir ++ [split; "labels"])%list.
Let src_img : path := (img_dir ++ [img_file])%list.
Let dst_img : path :=
  os_path_join images_out [path_name dataset_dir ++ "_" ++ img_file].
Let src_lbl : path := os_path_join lbl_dir [splitext_root img_file ++ ".txt"].
Let dst_lbl : path :=
  os_path_join labels_out
    [path_name dataset_dir ++ "_" ++ (splitext_root img_file ++ ".txt")].
Let step : M Z :=
  convert_image dataset_dir img_dir lbl_dir images_out labels_out
    source_classes count img_file.

Hypothesis recognized :
  Str.endswith_any (Str.lower img_file) IMAGE_SUFFIXES = true.

(** The step after a successful copy, case by case. *)
Lemma convert_image_after_copy w w1 :
  copy src_img dst_img w = (Ok tt, w1) ->
  step w
  = match lookup (fs w1) src_lbl with
    | None => (Ok count, w1)
    | Some (Dir _) => (Raise OSError, w1)
    | Some (File text) =>
        match convert_lines source_classes (readlines text) with
        | Raise e => (Raise e, w1)
        | Ok [] => (Ok count, w1)
        | Ok (l :: ls) =>
            match tree_write (fs w1) dst_lbl
                    (Str.join (String "010" EmptyString) (l :: ls)) with
            | Some t => (Ok (count + 1), set_fs w1 t)
            | None => (Raise OSError, w1)
            end
        end
    end.
Proof.
  intros Hc.
  unfold step, src_img, dst_img, src_lbl, dst_lbl, convert_image in *.
  rewrite recognized. change (negb true) with false. cbv iota zeta.
  unfold bind at 1. cbv beta. rewrite Hc.
  unfold bind at 1. rewrite path_exists_below.
  unfold bind, read_text, lift, write_text, ret.
  destruct (lookup (fs w1) _) as [[text|es]|] eqn:El;
    cbv beta iota; rewrite ?El; cbv beta iota; try reflexivity.
  destruct (convert_lines source_classes (readlines text)) as [[|l ls]|];
    cbv beta iota; try reflexivity.
  match goal with
  | |- context [tree_write ?a ?b ?c] => destruct (tree_write a b c)
  end; reflexivity.
Qed.

Lemma convert_image_copy_fails w e w1 :
  copy src_img dst_img w = (Raise e, w1) -> step w = (Raise e, w).
Proof.
  intros Hc. unfold step, src_img, dst_img, convert_image in *.
  rewrite recognized. change (negb true) with false. cbv iota zeta.
  unfold bind at 1. cbv beta. rewrite Hc.
  now rewrite (copy_raises _ _ _ _ _ Hc).
Qed.

Lemma dst_lbl_not_image (dst' : path) :
  dst' = dst_img \/ dst' = (dst_img ++ [path_name src_img])%list ->
  dst' <> dst_lbl.
Proof.
  intros [->| ->] E; unfold dst_img, dst_lbl, images_out, labels_out in E;
    symmetry in E.
  - exact (images_not_labels _ _ _ _ _ E).
  - rewrite <- (app_assoc _ [_] [_]) in E.
    exact (images_not_labels _ _ _ _ _ E).
Qed.

(** Unless the copy itself raises, the image is in the images folder when
    the step ends, whatever happened with its label file. *)
Lemma convert_image_copies w r w' :
  step w = (r, w') ->
  (exists e, copy src_img dst_img w = (Raise e, w) /\ r = Raise e /\ w' = w)
  \/ exists data dst',
       lookup (fs w) src_img = Some (File data)
       /\ (dst' = dst_img \/ dst' = (dst_img ++ [img_file])%list)
       /\ lookup (fs w') dst' = Some (File data).
Proof.
  intros Hs.
  destruct (copy src_img dst_img w) as [[[]|e] w1] eqn:Hc.
  - right.
    destruct (copy_returns _ _ _ _ Hc) as (data & dst' & Hsrc & Hd & Hw & _).
    exists data, dst'. split; [exact Hsrc|]. split.
    { unfold src_img in Hd. now rewrite path_name_join in Hd. }
    pose proof (lookup_written _ _ _ _ Hw) as H1.
    rewrite (convert_image_after_copy _ _ Hc) in Hs.
    destruct (lookup (fs w1) src_lbl) as [[text|es]|];
      try (inversion Hs; subst; exact H1).
    destruct (convert_lines source_classes (readlines text)) as [[|l ls]|];
      try (inversion Hs; subst; exact H1).
    destruct (tree_write (fs w1) dst_lbl _) as [t|] eqn:Ew;
      inversion Hs; subst; [|exact H1].
    simpl. apply (lookup_write_other _ _ _ _ _ _ Ew); [|exact H1].
    now apply dst_lbl_not_image.
  - left. exists e.
    pose proof (copy_raises _ _ _ _ _ Hc) as ->.
    rewrite (convert_image_copy_fails _ _ _ Hc) in Hs.
    inversion Hs; subst. now repeat split.
Qed.

End OneImage.

(** ** Changes confined to the output directory *)

Lemma remove_cons y (p : path) es :
  p <> [] ->
  remove (Dir es) (y :: p)
  = match find_entry y es with
    | Some c => Dir (set_entry y (remove c p) es)
    | None => Dir es
    end.
Proof. destruct p; [congruence | reflexivity]. Qed.

Lemma tree_write_cons y (p : path) es data :
  p <> [] ->
  tree_write (Dir es) (y :: p) data
  = match find_entry y es with
    | Some c => match tree_write c p data with
                | Some c' => Some (Dir (set_entry y c' es))
                | None => None
                end
    | None => None
    end.
Proof. destruct p; [congruence | reflexivity]. Qed.

Lemma tree_write_is_dir p t t' data :
  tree_write t p data = Some t' -> exists es, t' = Dir es.
Proof.
  destruct t as [|es]; [destruct p; discriminate|].
  destruct p as [|x [|y p]]; [discriminate | |].
  - simpl.
    destruct (find_entry x es) as [[]|]; intros [= <-]; eexists; reflexivity.
  - rewrite tree_write_cons by discriminate.
    destruct (find_entry x es) as [c|]; [|discriminate].
    destruct (tree_write c (y :: p) data); [|discriminate].
    intros [= <-]. eexists. reflexivity.
Qed.

Lemma app_last_not_nil (d : path) (x : string) : (d ++ [x])%list <> [].
Proof. destruct d; discriminate. Qed.

Lemma frame_makedirs (d : path) (x : string) : forall (q : path) t t',
  dir_at t d ->
  tree_makedirs t ((d ++ [x]) ++ q)%list = Some t' ->
  dir_at t' d /\ dir_at t' (d ++ [x])%list
  /\ remove t' (d ++ [x])%list = remove t (d ++ [x])%list.
Proof.
  induction d as [|y d IH]; intros q t t' [es Hd] Hm.
  - simpl in Hd. inversion Hd; subst t. simpl in Hm.
    destruct (tree_makedirs
                match find_entry x es with Some c0 => c0 | None => Dir [] end q)
      as [c'|] eqn:E; [|discriminate].
    inversion Hm; subst t'. destruct (makedirs_is_dir _ _ _ E) as [es' ->].
    split; [eexists; reflexivity|]. split.
    + exists es'. simpl. now rewrite find_set_entry_same.
    + simpl. now rewrite del_set_entry.
  - destruct t as [|es0]; [discriminate|]. simpl in Hd.
    destruct (find_entry y es0) as [c0|] eqn:Ey; [|discriminate].
    change (((y :: d) ++ [x]) ++ q)%list
      with (y :: ((d ++ [x]) ++ q))%list in Hm.
    simpl in Hm. rewrite Ey in Hm.
    destruct (tree_makedirs c0 ((d ++ [x]) ++ q)%list) as [c'|] eqn:E;
      [|discriminate].
    inversion Hm; subst t'.
    destruct (IH q c0 c' (ex_intro _ es Hd) E) as ([e1 H1] & [e2 H2] & H3).
    split; [|split].
    + exists e1. simpl. now rewrite find_set_entry_same.
    + exists e2. simpl. now rewrite find_set_entry_same.
    + change ((y :: d) ++ [x])%list with (y :: (d ++ [x]))%list.
      rewrite !remove_cons by apply app_last_not_nil.
      now rewrite find_set_entry_same, Ey, set_set_entry, H3.
Qed.

Lemma frame_write (d : path) (x : string) : forall (q : path) t t' data,
  q <> [] ->
  tree_write t ((d ++ [x]) ++ q)%list data = Some t' ->
  dir_at t' d /\ dir_at t' (d ++ [x])%list
  /\ remove t' (d ++ [x])%list = remove t (d ++ [x])%list.
Proof.
  induction d as [|y d IH]; intros q t t' data Hq Hw.
  - destruct t as [|es]; [destruct q; discriminate|].
    change (([] ++ [x]) ++ q)%list with (x :: q) in Hw.
    rewrite tree_write_cons in Hw by exact Hq.
    destruct (find_entry x es) as [c0|] eqn:Ex; [|discriminate].
    destruct (tree_write c0 q data) as [c'|] eqn:E; [|discriminate].
    inversion Hw; subst t'. destruct (tree_write_is_dir _ _ _ _ E) as [es' ->].
    split; [eexists; reflexivity|]. split.
    + exists es'. simpl. now rewrite find_set_entry_same.
    + simpl. now rewrite del_set_entry.
  - destruct t as [|es0]; [discriminate|].
    change (((y :: d) ++ [x]) ++ q)%list
      with (y :: ((d ++ [x]) ++ q))%list in Hw.
    rewrite tree_write_cons in Hw
      by (intros E; apply app_eq_nil in E; destruct E as [E _];
          exact (app_last_not_nil _ _ E)).
    destruct (find_entry y es0) as [c0|] eqn:Ey; [|discriminate].
    destruct (tree_write c0 ((d ++ [x]) ++ q)%list data) as [c'|] eqn:E;
      [|discriminate].
    inversion Hw; subst t'.
    destruct (IH q c0 c' data Hq E) as ([e1 H1] & [e2 H2] & H3).
    split; [|split].
    + exists e1. simpl. now rewrite find_set_entry_same.
    + exists e2. simpl. now rewrite find_set_entry_same.
    + change ((y :: d) ++ [x])%list with (y :: (d ++ [x]))%list.
      rewrite !remove_cons by apply app_last_not_nil.
      now rewrite find_set_entry_same, Ey, set_set_entry, H3.
Qed.

Lemma only_below_refl d x t : only_below d x t t.
Proof. intros H. now repeat split. Qed.

Lemma only_below_trans d x a b c :
  only_below d x a b -> only_below d x b c -> only_below d x a c.
Proof.
  intros Hab Hbc Ha.
  destruct (Hab Ha) as (Hb & E1 & N1).
  destruct (Hbc Hb) as (Hc & E2 & N2).
  split; [exact Hc|]. split; [congruence | auto].
Qed.

Lemma dir_no_file t p : dir_at t p -> no_file_at t p.
Proof. intros [es H] c. rewrite H. discriminate. Qed.

Lemma only_below_makedirs d x (q : path) t t' :
  tree_makedirs t ((d ++ [x]) ++ q)%list = Some t' -> only_below d x t t'.
Proof.
  intros Hm Hd. destruct (frame_makedirs _ _ _ _ _ Hd Hm) as (H1 & H2 & H3).
  split; [exact H1|]. split; [exact H3|]. intros _. now apply dir_no_file.
Qed.

Lemma only_below_write d x (q : path) t t' data :
  q <> [] ->
  tree_write t ((d ++ [x]) ++ q)%list data = Some t' -> only_below d x t t'.
Proof.
  intros Hq Hw Hd. destruct (frame_write _ _ _ _ _ _ Hq Hw) as (H1 & H2 & H3).
  split; [exact H1|]. split; [exact H3|]. intros _. now apply dir_no_file.
Qed.

Lemma remove_absent (p : path) : forall t,
  lookup t p = None -> remove t p = t.
Proof.
  induction p as [|x p IH]; intros t H; [discriminate|].
  destruct t as [|es]; [reflexivity|].
  destruct p as [|y p].
  - simpl in *. destruct (find_entry x es) eqn:E; [discriminate|].
    now rewrite del_entry_absent.
  - rewrite remove_cons by discriminate.
    change (lookup (Dir es) (x :: y :: p))
      with (match find_entry x es with
            | Some c => lookup c (y :: p) | None => None end) in H.
    destruct (find_entry x es) as [c|] eqn:E; [|reflexivity].
    rewrite (IH _ H). now rewrite (set_entry_found _ _ _ E).
Qed.

Lemma lookup_removed (p : path) : forall t,
  p <> [] -> lookup (remove t p) p = None.
Proof.
  induction p as [|x p IH]; intros t Hp; [congruence|].
  destruct t as [|es]; [reflexivity|].
  destruct p as [|y p].
  - simpl. now rewrite find_del_entry.
  - rewrite remove_cons by discriminate.
    destruct (find_entry x es) as [c|] eqn:E.
    + change (lookup (Dir (set_entry x (remove c (y :: p)) es)) (x :: y :: p))
        with (match find_entry x (set_entry x (remove c (y :: p)) es) with
              | Some c' => lookup c' (y :: p) | None => None end).
      rewrite find_set_entry_same. apply IH. discriminate.
    + change (lookup (Dir es) (x :: y :: p))
        with (match find_entry x es with
              | Some c => lookup c (y :: p) | None => None end).
      now rewrite E.
Qed.

Lemma remove_keeps_parent (d : path) (x : string) : forall t,
  dir_at t d -> dir_at (remove t (d ++ [x])%list) d.
Proof.
  induction d as [|y d IH]; intros t [es H].
  - simpl in H. inversion H; subst. eexists. reflexivity.
  - destruct t as [|es0]; [discriminate|]. simpl in H.
    destruct (find_entry y es0) as [c|] eqn:E; [|discriminate].
    change ((y :: d) ++ [x])%list with (y :: (d ++ [x]))%list.
    rewrite remove_cons by apply app_last_not_nil. rewrite E.
    destruct (IH c (ex_intro _ es H)) as [es' H'].
    exists es'. simpl. now rewrite find_set_entry_same.
Qed.

(** ** Independence from the trace *)

Lemma stable_ret {A} (a : A) : stable (ret a).
Proof. intros w w2 E. now split. Qed.

Lemma stable_lift {A} (x : result A) : stable (lift x).
Proof. intros w w2 E. now split. Qed.

Lemma stable_bind {A B} (m : M A) (k : A -> M B) :
  stable m -> (forall a, stable (k a)) -> stable (bind m k).
Proof.
  intros Hm Hk w w2 E. unfold bind.
  destruct (Hm w w2 E) as [H1 H2].
  destruct (m w) as [r w']; destruct (m w2) as [r2 w2'].
  simpl in H1, H2. subst r2.
  destruct r as [a|e]; [now apply Hk | now split].
Qed.

Lemma stable_for_each {A X} (body : A -> X -> M A) (xs : list X) :
  (forall acc x, stable (body acc x)) ->
  forall acc, stable (for_each body acc xs).
Proof.
  intros Hb. induction xs as [|x xs IH]; intros acc; simpl.
  - apply stable_ret.
  - apply stable_bind; [apply Hb | intros a; apply IH].
Qed.

Ltac stable_call :=
  let E := fresh "E" in
  intros [t tr] [t2 tr2] E; simpl in E; subst t2;
  cbv beta delta [print path_exists makedirs listdir read_text write_text
                  copy rmtree find_data_yaml set_fs];
  cbn [fs trace];
  repeat match goal with
         | |- context [match ?x with _ => _ end] => destruct x
         end;
  split; reflexivity.

Lemma stable_print m : stable (print m).
Proof. stable_call. Qed.

Lemma stable_path_exists p : stable (path_exists p).
Proof. stable_call. Qed.

Lemma stable_makedirs p : stable (makedirs p).
Proof. stable_call. Qed.

Lemma stable_listdir p : stable (listdir p).
Proof. stable_call. Qed.

Lemma stable_read_text p : stable (read_text p).
Proof. stable_call. Qed.

Lemma stable_write_text p data : stable (write_text p data).
Proof. stable_call. Qed.

Lemma stable_copy src dst : stable (copy src dst).
Proof. stable_call. Qed.

Lemma stable_rmtree p : stable (rmtree p).
Proof. stable_call. Qed.

Lemma stable_find_data_yaml p : stable (find_data_yaml p).
Proof. stable_call. Qed.

Ltac stable_steps :=
  repeat (cbv zeta;
          lazymatch goal with
          | |- stable (bind _ _) => apply stable_bind; [|intro]
          | |- stable (for_each _ _ _) => apply stable_for_each; intros ? ?
          | |- stable (if ?b then _ else _) => destruct b
          | |- stable (match ?x with _ => _ end) => destruct x
          | |- stable (ret _) => apply stable_ret
          | |- stable (lift _) => apply stable_lift
          | |- stable (print _) => apply stable_print
          | |- stable (path_exists _) => apply stable_path_exists
          | |- stable (makedirs _) => apply stable_makedirs
          | |- stable (listdir _) => apply stable_listdir
          | |- stable (read_text _) => apply stable_read_text
          | |- stable (write_text _ _) => apply stable_write_text
          | |- stable (copy _ _) => apply stable_copy
          | |- stable (rmtree _) => apply stable_rmtree
          | |- stable (find_data_yaml _) => apply stable_find_data_yaml
          end).

Section MergeStable.

Variable yaml_safe_load : string -> result yaml.
Variable yaml_dump : yaml -> string.

Lemma stable_convert_image ds img_dir lbl_dir io lo sc count img :
  stable (convert_image ds img_dir lbl_dir io lo sc count img).
Proof. unfold convert_image. stable_steps. Qed.

Lemma stable_convert_split ds io lo sc count split_name :
  stable (convert_split ds io lo sc count split_name).
Proof.
  unfold convert_split. stable_steps. apply stable_convert_image.
Qed.

Lemma stable_convert_labels ds out split :
  stable (convert_labels yaml_safe_load ds out split).
Proof.
  unfold convert_labels. stable_steps. apply stable_convert_split.
Qed.

Lemma stable_merge_one raw out totals entry :
  stable (merge_one yaml_safe_load raw out totals entry).
Proof.
  unfold merge_one. stable_steps; apply stable_convert_labels.
Qed.

Lemma stable_rebuild_output raw out :
  stable (rebuild_output yaml_safe_load yaml_dump raw out).
Proof.
  unfold rebuild_output. stable_steps. apply stable_merge_one.
Qed.

End MergeStable.

(** ** prepare_dataset *)

Section MergeTwice.

Variable yaml_safe_load : string -> result yaml.
Variable yaml_dump : yaml -> string.
Variables (raw_dir parent : path) (name : string).

Let output_dir : path := (parent ++ [name])%list.

Lemma preserves_rebuild_output :
  preserves (only_below parent name)
    (rebuild_output yaml_safe_load yaml_dump raw_dir output_dir).
Proof.
  assert (Hrefl := only_below_refl parent name).
  assert (Htrans := only_below_trans parent name).
  unfold rebuild_output.
  apply preserves_bind; try assumption.
  { apply preserves_merge_loop; try assumption.
    - intros q t t' Hm. exact (only_below_makedirs _ _ _ _ _ Hm).
    - intros s q t t' data _ Hw. unfold output_dir in Hw.
      rewrite <- app_assoc in Hw.
      apply (only_below_write _ _ _ _ _ _ (fun E => nil_cons (eq_sym E)) Hw).
    - intros s x t t' data _ Hw. unfold output_dir in Hw.
      rewrite <- app_assoc in Hw.
      apply (only_below_write _ _ _ _ _ _ (fun E => nil_cons (eq_sym E)) Hw). }
  intros totals. apply preserves_bind; try assumption.
  { apply preserves_write_text; try assumption.
    intros t t' Hw.
    apply (only_below_write _ _ _ _ _ _ (fun E => nil_cons (eq_sym E)) Hw). }
  intros _.
  repeat (apply preserves_bind; try assumption;
          [now apply preserves_print | intros _]).
  now apply preserves_ret.
Qed.

Lemma prepare_dataset_clears w :
  no_file_at (fs w) output_dir ->
  prepare_dataset yaml_safe_load yaml_dump raw_dir output_dir w
  = rebuild_output yaml_safe_load yaml_dump raw_dir output_dir
      (World (remove (fs w) output_dir) (trace w ++ [Print MsgPreparing])).
Proof.
  intros Hn.
  unfold prepare_dataset, clear_output.
  unfold bind at 1 2 3, print. unfold output_dir at 1.
  rewrite path_exists_below. fold output_dir.
  unfold rmtree, ret, set_fs.
  cbn [fs trace].
  destruct (lookup (fs w) output_dir) as [[c|es]|] eqn:El.
  - exfalso. exact (Hn c El).
  - cbn [fs]. rewrite ?El.
    destruct output_dir eqn:Eo;
      [exfalso; exact (app_last_not_nil _ _ Eo)|].
    cbn [fs trace]. rewrite ?El. reflexivity.
  - now rewrite (remove_absent _ _ El).
Qed.

(** With the empty text as output directory nothing is cleared. *)
Lemma clear_output_empty_path w : clear_output [] w = (Ok tt, w).
Proof. reflexivity. Qed.

Lemma prepare_dataset_blocked w c :
  lookup (fs w) output_dir = Some (File c) ->
  prepare_dataset yaml_safe_load yaml_dump raw_dir output_dir w
  = (Raise OSError, World (fs w) (trace w ++ [Print MsgPreparing])).
Proof.
  intros El.
  unfold prepare_dataset, clear_output.
  unfold bind at 1 2 3, print. unfold output_dir at 1.
  rewrite path_exists_below. fold output_dir.
  unfold rmtree, ret, set_fs.
  cbn [fs trace]. rewrite El. cbn [fs]. rewrite ?El.
  destruct output_dir; cbn [fs trace]; rewrite ?El; reflexivity.
Qed.

Lemma prepare_dataset_outside w w2 :
  no_file_at (fs w) output_dir -> no_file_at (fs w2) output_dir ->
  remove (fs w) output_dir = remove (fs w2) output_dir ->
  fst (prepare_dataset yaml_safe_load yaml_dump raw_dir output_dir w)
  = fst (prepare_dataset yaml_safe_load yaml_dump raw_dir output_dir w2)
  /\ fs (snd (prepare_dataset yaml_safe_load yaml_dump raw_dir output_dir w))
     = fs (snd (prepare_dataset yaml_safe_load yaml_dump raw_dir output_dir
                  w2)).
Proof.
  intros H1 H2 E.
  rewrite (prepare_dataset_clears _ H1), (prepare_dataset_clears _ H2).
  apply stable_rebuild_output. exact E.
Qed.

Lemma prepare_dataset_twice w :
  dir_at (fs w) parent ->
  let w1 :=
    snd (prepare_dataset yaml_safe_load yaml_dump raw_dir output_dir w) in
  fst (prepare_dataset yaml_safe_load yaml_dump raw_dir output_dir w1)
  = fst (prepare_dataset yaml_safe_load yaml_dump raw_dir output_dir w)
  /\ fs (snd (prepare_dataset yaml_safe_load yaml_dump raw_dir output_dir w1))
     = fs w1.
Proof.
  intros Hd w1.
  assert (Hcases : (exists c, lookup (fs w) output_dir = Some (File c))
                   \/ no_file_at (fs w) output_dir).
  { destruct (lookup (fs w) output_dir) as [[c|es]|] eqn:El;
      [left; now exists c | right; intros c; rewrite El; discriminate
      | right; intros c; rewrite El; discriminate]. }
  destruct Hcases as [[c El]|Hn].
  - assert (E1 : w1 = World (fs w) (trace w ++ [Print MsgPreparing])).
    { unfold w1. now rewrite (prepare_dataset_blocked _ _ El). }
    rewrite (prepare_dataset_blocked w c El).
    rewrite (prepare_dataset_blocked w1 c) by (rewrite E1; exact El).
    rewrite E1. now split.
  - assert (Hw1 : only_below parent name (remove (fs w) output_dir) (fs w1)).
    { unfold w1. rewrite (prepare_dataset_clears _ Hn).
      destruct (rebuild_output yaml_safe_load yaml_dump raw_dir output_dir _)
        as [r w'] eqn:Er.
      exact (preserves_rebuild_output _ _ _ Er). }
    destruct (Hw1 (remove_keeps_parent _ _ _ Hd)) as (_ & E & N).
    fold output_dir in E, N.
    assert (Hgone : lookup (remove (fs w) output_dir) output_dir = None)
      by apply lookup_removed, app_last_not_nil.
    apply (prepare_dataset_outside w1 w).
    + apply N. intros c. rewrite Hgone. discriminate.
    + exact Hn.
    + rewrite E. now apply remove_absent.
Qed.

End MergeTwice.

(** C7: [prepare_dataset] removes the output directory and then rebuilds
    it, so a run equals the rebuild started from the tree without the
    output directory; two starting trees that agree outside the output
    directory give the same result and the same final tree; and running
    the merge again on the tree left by a run gives that same tree and
    the same result. The output directory is given by its parent, which
    is an existing directory, and its name. *)
Theorem merge_replaces_prior_output
    yaml_safe_load yaml_dump (raw_dir parent : path) (name : string) :
  let output_dir := (parent ++ [name])%list in
  let merge := prepare_dataset yaml_safe_load yaml_dump raw_dir output_dir in
  (forall w,
     no_file_at (fs w) output_dir ->
     merge w
     = rebuild_output yaml_safe_load yaml_dump raw_dir output_dir
         (World (remove (fs w) output_dir) (trace w ++ [Print MsgPreparing])))
  /\ (forall w w2,
        no_file_at (fs w) output_dir -> no_file_at (fs w2) output_dir ->
        remove (fs w) output_dir = remove (fs w2) output_dir ->
        fst (merge w) = fst (merge w2)
        /\ fs (snd (merge w)) = fs (snd (merge w2)))
  /\ (forall w,
        dir_at (fs w) parent ->
        fst (merge (snd (merge w))) = fst (merge w)
        /\ fs (snd (merge (snd (merge w)))) = fs (snd (merge w))).
Proof.
  intros output_dir merge. split; [|split].
  - intros w Hn. now apply prepare_dataset_clears.
  - intros w w2 H1 H2 E. now apply prepare_dataset_outside.
  - intros w Hd.
    exact (prepare_dataset_twice yaml_safe_load yaml_dump raw_dir parent name
             w Hd).
Qed.

Lemma merge_replaces_prior_output_witness :
  let merge := prepare_dataset sample_safe_load sample_dump ["raw"] ["merged"]
  in
  fs (snd (merge (snd (merge (sample_world "0 0.5 0.5 0.2 0.2")))))
  = fs (snd (merge (sample_world "0 0.5 0.5 0.2 0.2"))).
Proof.
  intros merge.
  destruct (merge_replaces_prior_output sample_safe_load sample_dump
              ["raw"] [] "merged") as (_ & _ & H).
  apply (H (sample_world "0 0.5 0.5 0.2 0.2")).
  eexists. reflexivity.
Defined.

(** ** One synthetic dataset *)

Lemma convert_line_of_kept sc line c o :
  kept_from sc line c o -> convert_line sc line = Ok (Some o).
Proof.
  unfold kept_from, convert_line.
  intros [Hlen (old & n & name & Hi & Hn & Hlt & Hg & Hc & Hr & ->)].
  apply Nat.ltb_ge in Hlen. rewrite Hlen, Hi. simpl. rewrite Hn. simpl.
  apply Z.ltb_lt in Hlt. rewrite Hlt, Hg. simpl. rewrite Hc. simpl.
  destruct Hr as [Hr _]. apply Z.leb_le in Hr. now rewrite Hr.
Qed.

Lemma bind_returns {A B} (m : M A) (k : A -> M B) w a w' :
  m w = (Ok a, w') -> bind m k w = k a w'.
Proof. intros H. unfold bind. now rewrite H. Qed.

(** Evaluation of one call on a tree whose shape is known; [rw] rewrites
    with the facts about its unknown parts. *)
Ltac eval_call rw :=
  cbv beta delta [print path_exists makedirs listdir read_text write_text
                  copy find_data_yaml set_fs lift ret];
  repeat (progress (
    cbn -[String.append splitext_root Str.endswith_any Str.lower readlines
          convert_lines Str.join merged_manifest source_classes_of
          IMAGE_SUFFIXES Z.add];
    rewrite ?String.eqb_refl; try rw));
  rewrite <- ?app_assoc; reflexivity.

(** Evaluation of a computation, call by call; [sub] settles the calls
    of [convert_labels]. *)
Ltac run rw sub :=
  cbv beta iota zeta delta [negb]; try rw; cbv beta iota zeta delta [negb];
  lazymatch goal with
  | |- bind ?m ?k ?w = _ =>
      erewrite bind_returns by run rw sub; run rw sub
  | |- for_each _ _ (_ :: _) _ = _ => cbn [for_each]; run rw sub
  | |- convert_split _ _ _ _ _ _ _ = _ => unfold convert_split; run rw sub
  | |- convert_image _ _ _ _ _ _ _ _ _ = _ =>
      unfold convert_image; run rw sub
  | |- merge_one _ _ _ _ _ _ = _ => unfold merge_one; run rw sub
  | |- convert_labels _ _ _ _ _ = _ => sub
  | |- _ => eval_call rw
  end.

Section Synthetic.

Variable yaml_safe_load : string -> result yaml.
Variable yaml_dump : yaml -> string.
Variables (name split img_file image manifest label : string).
Variables (config sc : yaml) (line : string) (c : Z) (o : string).

Hypothesis source_split : In split ["train"; "valid"; "test"].
Hypothesis recognized :
  Str.endswith_any (Str.lower img_file) IMAGE_SUFFIXES = true.
Hypothesis manifest_loads : yaml_safe_load manifest = Ok config.
Hypothesis manifest_classes : source_classes_of config = Ok sc.
Hypothesis one_line : readlines label = [line].
Hypothesis line_kept : kept_from sc line c o.

Let raw : node := synthetic_raw name split img_file image manifest label.
Let merged : node := merged_split name img_file image o.

Lemma one_line_converted : convert_lines sc [line] = Ok [o].
Proof. simpl. now rewrite (convert_line_of_kept _ _ _ _ line_kept). Qed.

Lemma convert_labels_train tr :
  convert_labels yaml_safe_load ["raw"; name] ["merged"] "train"
    (World (Dir [("raw", raw)]) tr)
  = (Ok 1,
     World (Dir [("raw", raw); ("merged", Dir [("train", merged)])])
       (tr ++ [Print (MsgSourceClasses sc)])).
Proof.
  pose proof one_line_converted as Hlines.
  unfold raw, merged, synthetic_raw, merged_split, convert_labels.
  destruct source_split as [<-|[<-|[<-|[]]]];
    run ltac:(rewrite ?recognized, ?manifest_loads, ?manifest_classes,
                ?one_line, ?Hlines) ltac:(fail).
Qed.

Lemma convert_labels_valid tr train :
  convert_labels yaml_safe_load ["raw"; name] ["merged"] "valid"
    (World (Dir [("raw", raw); ("merged", Dir [("train", train)])]) tr)
  = (Ok 1,
     World (Dir [("raw", raw);
                 ("merged", Dir [("train", train); ("valid", merged)])])
       (tr ++ [Print (MsgSourceClasses sc)])).
Proof.
  pose proof one_line_converted as Hlines.
  unfold raw, merged, synthetic_raw, merged_split, convert_labels.
  destruct source_split as [<-|[<-|[<-|[]]]];
    run ltac:(rewrite ?recognized, ?manifest_loads, ?manifest_classes,
                ?one_line, ?Hlines) ltac:(fail).
Qed.

End Synthetic.

(** C1, as amended: for a raw directory holding one dataset of the
    configured list, with its data.yaml, one image with a recognized
    extension in one of its split folders and a label file with one line
    whose class maps to a canonical class, [prepare_dataset] returns the
    path of the merged data.yaml and leaves a merged directory with, in
    each of its train and valid folders, the renamed image and the label
    file holding the line with the canonical index substituted, and with
    the manifest: the image and the label file are there twice. *)
Theorem merge_of_one_dataset
    yaml_safe_load yaml_dump entry split img_file image manifest label
    config sc line c o tr :
  In entry ROBOFLOW_DATASETS ->
  In split ["train"; "valid"; "test"] ->
  Str.endswith_any (Str.lower img_file) IMAGE_SUFFIXES = true ->
  yaml_safe_load manifest = Ok config ->
  source_classes_of config = Ok sc ->
  readlines label = [line] ->
  kept_from sc line c o ->
  let name := fst entry in
  let raw := synthetic_raw name split img_file image manifest label in
  let merged := merged_split name img_file image o in
  let manifest_text := yaml_dump (merged_manifest ["merged"]) in
  prepare_dataset yaml_safe_load yaml_dump ["raw"] ["merged"]
    (World (Dir [("raw", raw)]) tr)
  = (Ok ["merged"; "data.yaml"],
     World (Dir [("raw", raw);
                 ("merged",
                  Dir [("train", merged); ("valid", merged);
                       ("data.yaml", File manifest_text)])])
       (tr ++ [Print MsgPreparing; Print (MsgProcessing name);
               Print (MsgSourceClasses sc); Print (MsgSourceClasses sc);
               Print (MsgAdded 1 1); Print MsgPrepared;
               Print (MsgTotalTrain 1); Print (MsgTotalValid 1);
               Print (MsgClasses TARGET_CLASSES)])).
Proof.
  intros Hentry Hsplit Hext Hload Hsc Hread Hkept name raw merged
    manifest_text.
  unfold prepare_dataset, clear_output, rebuild_output, ROBOFLOW_DATASETS.
  subst name raw merged manifest_text.
  unfold ROBOFLOW_DATASETS in Hentry. simpl in Hentry.
  destruct Hentry as [<-|[<-|[<-|[<-|[<-|[<-|[<-|[]]]]]]]];
    run ltac:(idtac)
        ltac:(idtac;
              lazymatch goal with
              | |- convert_labels _ _ _ "train" _ = _ =>
                  eapply convert_labels_train; eassumption
              | |- convert_labels _ _ _ "valid" _ = _ =>
                  eapply convert_labels_valid; eassumption
              end).
Qed.

Lemma merge_of_one_dataset_witness :
  fst (prepare_dataset sample_safe_load sample_dump ["raw"] ["merged"]
         (sample_world "0 0.5 0.5 0.2 0.2"))
  = Ok ["merged"; "data.yaml"].
Proof.
  assert (Hkept : kept_from (YList [YStr "phone"]) "0 0.5 0.5 0.2 0.2" 1
                    "1 0.5 0.5 0.2 0.2").
  { split; [vm_compute; lia|].
    exists 0, 1, "phone". repeat split; try reflexivity; lia. }
  exact (f_equal fst
           (merge_of_one_dataset sample_safe_load sample_dump
              ("phone_1",
               "https://app.roboflow.com/ds/5ReObgnLbQ?key=HTPSgVzDLW")
              "train" "a.jpg" "JPEG" "names: [phone]" "0 0.5 0.5 0.2 0.2"
              (YMap [(YStr "names", YList [YStr "phone"])])
              (YList [YStr "phone"]) "0 0.5 0.5 0.2 0.2" 1
              "1 0.5 0.5 0.2 0.2" []
              (or_introl eq_refl) (or_introl eq_refl) eq_refl eq_refl eq_refl
              eq_refl Hkept)).
Defined.

(** C1 as stated fails on the sample dataset: after the merge, the merged
    directory holds the renamed image twice and the label file twice, once
    under train and once under valid. *)
Lemma merge_of_sample_has_two_images :
  (map fst (image_files sample_merged), map fst (label_files sample_merged))
  = ([["train"; "images"; "phone_1_a.jpg"];
      ["valid"; "images"; "phone_1_a.jpg"]],
     [["train"; "labels"; "phone_1_a.txt"];
      ["valid"; "labels"; "phone_1_a.txt"]])
  /\ List.length (image_files sample_merged) <> 1%nat
  /\ List.length (label_files sample_merged) <> 1%nat.
Proof.
  assert (E1 : List.length (image_files sample_merged) = 2%nat)
    by (vm_compute; reflexivity).
  assert (E2 : List.length (label_files sample_merged) = 2%nat)
    by (vm_compute; reflexivity).
  split; [vm_compute; reflexivity|].
  split; [rewrite E1 | rewrite E2]; discriminate.
Qed.

(** * Further properties of the script *)

(** ** normalize_class and the lines of a label file *)

(** X1: [normalize_class] never raises: every target of CLASS_MAPPING is
    in TARGET_CLASSES, so [index] always finds it. The result is -1 or
    one of 0..3, and it is a class index exactly when the lower-cased,
    stripped argument is a key of the table. *)
Theorem normalize_class_range (s : string) :
  exists i,
    normalize_class s = Ok i
    /\ (i = -1 \/ 0 <= i <= 3)
    /\ (0 <= i <-> In (Str.strip (Str.lower s)) (map fst CLASS_MAPPING)).
Proof.
  destruct (in_dec string_dec (Str.strip (Str.lower s))
              (map fst CLASS_MAPPING)) as [Hin|Hout].
  - pose proof Hin as Hin'. apply in_map_iff in Hin'.
    destruct Hin' as [[k t] [Hk Hkt]]. simpl in Hk. subst k.
    unfold normalize_class.
    rewrite (scan_mapping_present _ _ _ class_mapping_keys_normal Hkt).
    destruct (target_index t (class_mapping_target _ _ Hkt))
      as (i & Hi & Hr & _).
    exists i. split; [exact Hi|]. split; [now right|]. split; [auto | lia].
  - exists (-1). unfold normalize_class.
    rewrite (scan_mapping_absent _ _ class_mapping_keys_normal Hout).
    split; [reflexivity|]. split; [now left|]. split; [lia | contradiction].
Qed.

(** X2: a kept line keeps every field after the first as it was: the
    box geometry and any further fields are the fields of the source
    line, in order; only the class field changes, and the fields are
    separated by single spaces. *)
Theorem kept_line_keeps_geometry sc line o :
  convert_line sc line = Ok (Some o) ->
  tl (Str.split o) = tl (Str.split (Str.strip line))
  /\ List.length (Str.split o) = List.length (Str.split (Str.strip line))
  /\ exists c, 0 <= c <= 3
       /\ o = Str.join " " (Str.of_int c :: tl (Str.split (Str.strip line))).
Proof.
  intros H. destruct (convert_line_kept _ _ _ H) as [c Hk].
  destruct (kept_from_split _ _ _ _ Hk) as (Hr & Hs & _).
  split; [now rewrite Hs|]. split; [exact (kept_from_fields _ _ _ _ Hk)|].
  exists c. split; [exact Hr|].
  destruct Hk as [_ (old & n & name & _ & _ & _ & _ & _ & _ & E)]. exact E.
Qed.

Lemma kept_line_keeps_geometry_witness :
  tl (Str.split "2 0.25 0.5 0.1 0.2 extra")
  = tl (Str.split (Str.strip "  0   0.25 0.5	0.1 0.2 extra ")).
Proof.
  apply (kept_line_keeps_geometry (YList [YStr "Book"])
           "  0   0.25 0.5	0.1 0.2 extra " "2 0.25 0.5 0.1 0.2 extra").
  reflexivity.
Defined.

Lemma convert_lines_raises sc line e before after kept :
  convert_lines sc before = Ok kept ->
  convert_line sc line = Raise e ->
  convert_lines sc (before ++ line :: after) = Raise e.
Proof.
  revert kept. induction before as [|l before IH]; intros kept Hb Hl; simpl.
  - now rewrite Hl.
  - simpl in Hb.
    destruct (convert_line sc l) as [k|]; [|discriminate].
    destruct (convert_lines sc before) as [more|]; [|discriminate].
    simpl. now rewrite (IH _ eq_refl Hl).
Qed.

(** X3: a line of at least five fields whose first field is not an
    integer literal makes [int] raise ValueError; the loop over the lines
    stops there, so nothing of that label file is kept, and the image
    step raises after the image has been copied, without writing a label
    file. *)
Theorem non_integer_class_aborts :
  (forall sc line before after kept,
     (5 <= List.length (Str.split (Str.strip line)))%nat ->
     Str.int (hd EmptyString (Str.split (Str.strip line))) = Raise ValueError ->
     convert_lines sc before = Ok kept ->
     convert_lines sc (before ++ line :: after) = Raise ValueError)
  /\ (forall dataset_dir img_dir lbl_dir output_dir split sc count img_file
             w w1 text e,
        Str.endswith_any (Str.lower img_file) IMAGE_SUFFIXES = true ->
        copy (os_path_join img_dir [img_file])
          (os_path_join (os_path_join output_dir [split; "images"])
             [path_name dataset_dir ++ "_" ++ img_file]) w = (Ok tt, w1) ->
        lookup (fs w1)
          (os_path_join lbl_dir [splitext_root img_file ++ ".txt"])
          = Some (File text) ->
        convert_lines sc (readlines text) = Raise e ->
        convert_image dataset_dir img_dir lbl_dir
          (os_path_join output_dir [split; "images"])
          (os_path_join output_dir [split; "labels"]) sc count img_file w
        = (Raise e, w1)).
Proof.
  split.
  - intros sc line before after kept Hlen Hi Hb.
    apply (convert_lines_raises _ _ _ _ _ _ Hb).
    unfold convert_line. apply Nat.ltb_ge in Hlen. now rewrite Hlen, Hi.
  - intros dataset_dir img_dir lbl_dir output_dir split sc count img_file
      w w1 text e Hext Hc Hl He.
    rewrite (convert_image_after_copy dataset_dir img_dir lbl_dir output_dir
               split sc count img_file Hext w w1 Hc).
    now rewrite Hl, He.
Qed.

Lemma non_integer_class_aborts_witness :
  convert_lines (YList [YStr "phone"])
    (["0 0.5 0.5 0.1 0.1"] ++ "0.0 0.5 0.5 0.1 0.1" :: ["0 1 1 1 1"])
  = Raise ValueError.
Proof.
  destruct non_integer_class_aborts as [H _].
  apply (H (YList [YStr "phone"]) "0.0 0.5 0.5 0.1 0.1"
           ["0 0.5 0.5 0.1 0.1"] ["0 1 1 1 1"] ["1 0.5 0.5 0.1 0.1"]).
  - vm_compute. lia.
  - reflexivity.
  - reflexivity.
Defined.

(** X4: a class index below minus the length of the class list passes
    the test [old_class_id < len(source_classes)] and then makes the
    indexing raise IndexError: the line is not dropped, the run stops. *)
Theorem index_below_range_raises items line old :
  (5 <= List.length (Str.split (Str.strip line)))%nat ->
  Str.int (hd EmptyString (Str.split (Str.strip line))) = Ok old ->
  old < - Z.of_nat (List.length items) ->
  convert_line (YList items) line = Raise IndexError.
Proof.
  intros Hlen Hi Hlow. unfold convert_line.
  apply Nat.ltb_ge in Hlen. rewrite Hlen, Hi. simpl.
  assert (E : (old <? Z.of_nat (List.length items)) = true)
    by (apply Z.ltb_lt; lia).
  rewrite E. unfold py_position.
  assert (E0 : (old <? 0) = true) by (apply Z.ltb_lt; lia).
  rewrite E0.
  assert (E1 : (0 <=? old + Z.of_nat (List.length items)) = false)
    by (apply Z.leb_gt; lia).
  now rewrite E1.
Qed.

Lemma index_below_range_raises_witness :
  convert_line (YList [YStr "phone"; YStr "book"]) "-3 0.5 0.5 0.1 0.1"
  = Raise IndexError.
Proof.
  apply (index_below_range_raises [YStr "phone"; YStr "book"]
           "-3 0.5 0.5 0.1 0.1" (-3)).
  - vm_compute. lia.
  - reflexivity.
  - simpl. lia.
Defined.

(** X5: a manifest without a [names] entry gives the empty class list,
    and with an empty class list no line is ever kept: whatever the label
    file holds, [new_lines] is empty when the loop ends normally. *)
Theorem no_names_no_annotations :
  (forall entries,
     (forall y v, In (y, v) entries -> is_key "names" y = false) ->
     source_classes_of (YMap entries) = Ok (YList []))
  /\ (forall lines new_lines,
        convert_lines (YList []) lines = Ok new_lines -> new_lines = []).
Proof.
  split.
  - intros entries H. unfold source_classes_of.
    assert (E : dict_get "names" entries (YList []) = YList []).
    { induction entries as [|[y v] entries IH]; [reflexivity|].
      simpl. rewrite (H y v) by now left.
      apply IH. intros y' v' Hin. apply (H y' v'). now right. }
    now rewrite E.
  - intros lines new_lines Hc.
    destruct new_lines as [|o rest]; [reflexivity|]. exfalso.
    destruct (convert_lines_in _ _ _ Hc o (or_introl eq_refl))
      as (line & _ & Hl).
    destruct (convert_line_kept _ _ _ Hl)
      as [c [_ (old & n & name & _ & Hn & Hlt & Hg & _)]].
    simpl in Hn. inversion Hn; subst n. simpl in Hg.
    unfold py_position in Hg. simpl in Hg.
    destruct (old <? 0) eqn:E0.
    + destruct ((0 <=? old + 0) && (old + 0 <? 0)) eqn:E1; [|discriminate].
      apply andb_true_iff in E1. destruct E1 as [A B].
      apply Z.leb_le in A. apply Z.ltb_lt in B. lia.
    + apply Z.ltb_ge in E0. lia.
Qed.

Lemma no_names_no_annotations_witness :
  source_classes_of (YMap [(YStr "nc", YInt 2); (YStr "train", YStr "x")])
  = Ok (YList []).
Proof.
  destruct no_names_no_annotations as [H _].
  apply H. intros y v Hin. simpl in Hin.
  destruct Hin as [E|[E|[]]]; inversion E; reflexivity.
Defined.

(** ** The scan for data.yaml, again *)

Lemma lookup_app (p q : path) : forall t,
  lookup t (p ++ q)%list
  = match lookup t p with
    | Some n => lookup n q
    | None => None
    end.
Proof.
  induction p as [|x p IH]; intros t; [reflexivity|].
  simpl. destruct t as [|es]; [reflexivity|].
  destruct (find_entry x es); [apply IH | reflexivity].
Qed.

Lemma has_file_found name es c :
  find_entry name es = Some (File c) -> has_file name es = true.
Proof.
  unfold has_file. induction es as [|[y d] es IH]; [discriminate|].
  simpl. destruct (String.eqb y name).
  - intros [= ->]. reflexivity.
  - exact IH.
Qed.

Lemma walk_find_complete (root : path) : forall n c,
  lookup n (root ++ ["data.yaml"])%list = Some (File c) ->
  walk_find "data.yaml" n <> None.
Proof.
  induction root as [|x root IH]; intros n c H.
  - destruct n as [|es]; [discriminate|]. simpl in H.
    destruct (find_entry "data.yaml" es) as [d|] eqn:E; [|discriminate].
    inversion H; subst d. rewrite walk_find_dir.
    rewrite (has_file_found _ _ _ E). discriminate.
  - destruct n as [|es]; [discriminate|].
    change ((x :: root) ++ ["data.yaml"])%list
      with (x :: (root ++ ["data.yaml"]))%list in H.
    simpl in H.
    destruct (find_entry x es) as [child|] eqn:E; [|discriminate].
    pose proof (IH _ _ H) as Hchild.
    rewrite walk_find_dir. destruct (has_file "data.yaml" es); [discriminate|].
    intros Hnone. apply walk_subdirs_none in Hnone.
    destruct (find_entry_in _ _ _ E) as [y Hy].
    rewrite Forall_forall in Hnone. exact (Hchild (Hnone _ Hy)).
Qed.



(** ** Counts *)

Lemma bind_returned {A B} (m : M A) (k : A -> M B) w b w' :
  bind m k w = (Ok b, w') ->
  exists a w1, m w = (Ok a, w1) /\ k a w1 = (Ok b, w').
Proof.
  unfold bind. destruct (m w) as [[a|e] w1]; [|discriminate].
  intros H. now exists a, w1.
Qed.

Lemma convert_image_count ds img_dir lbl_dir io lo sc count img w n w' :
  convert_image ds img_dir lbl_dir io lo sc count img w = (Ok n, w') ->
  n = count \/ n = count + 1.
Proof.
  unfold convert_image.
  destruct (negb _); [intros [= <- _]; now left|].
  intros H.
  apply bind_returned in H. destruct H as (_ & w1 & _ & H).
  apply bind_returned in H. destruct H as (present & w2 & _ & H).
  destruct present; [|inversion H; now left].
  apply bind_returned in H. destruct H as (text & w3 & _ & H).
  apply bind_returned in H. destruct H as (new_lines & w4 & _ & H).
  destruct new_lines; [inversion H; now left|].
  apply bind_returned in H. destruct H as (_ & w5 & _ & H).
  inversion H. now right.
Qed.

Lemma for_each_count {X} (body : Z -> X -> M Z) (xs : list X) :
  (forall acc x w n w',
     body acc x w = (Ok n, w') -> n = acc \/ n = acc + 1) ->
  forall acc w n w',
    for_each body acc xs w = (Ok n, w') ->
    acc <= n <= acc + Z.of_nat (List.length xs).
Proof.
  intros Hb. induction xs as [|x xs IH]; intros acc w n w' H.
  - inversion H; subst. simpl. lia.
  - simpl in H. apply bind_returned in H.
    destruct H as (a & w1 & H1 & H2).
    specialize (IH _ _ _ _ H2).
    pose proof (Hb _ _ _ _ _ H1) as Ha.
    change (List.length (x :: xs)) with (S (List.length xs)). lia.
Qed.

Lemma for_each_grows {X} (body : Z -> X -> M Z) (xs : list X) :
  (forall acc x w n w', body acc x w = (Ok n, w') -> acc <= n) ->
  forall acc w n w', for_each body acc xs w = (Ok n, w') -> acc <= n.
Proof.
  intros Hb. induction xs as [|x xs IH]; intros acc w n w' H.
  - inversion H; subst. lia.
  - simpl in H. apply bind_returned in H.
    destruct H as (a & w1 & H1 & H2).
    specialize (IH _ _ _ _ H2). pose proof (Hb _ _ _ _ _ H1). lia.
Qed.

(** X7: the count is a count of label files written: one image step
    leaves it unchanged or adds one; a file whose name has no recognized
    image extension is skipped without any effect; one source split adds
    at most the number of entries of its images folder, and nothing when
    that folder is missing; and [convert_labels] never returns a negative
    count. *)
Theorem count_bounds :
  (forall ds img_dir lbl_dir io lo sc count img w n w',
     convert_image ds img_dir lbl_dir io lo sc count img w = (Ok n, w') ->
     n = count \/ n = count + 1)
  /\ (forall ds img_dir lbl_dir io lo sc count img w,
        Str.endswith_any (Str.lower img) IMAGE_SUFFIXES = false ->
        convert_image ds img_dir lbl_dir io lo sc count img w = (Ok count, w))
  /\ (forall ds io lo sc count split_name w n w',
        convert_split ds io lo sc count split_name w = (Ok n, w') ->
        match lookup (fs w) (os_path_join ds [split_name; "images"]) with
        | None => n = count /\ w' = w
        | Some (Dir es) => count <= n <= count + Z.of_nat (List.length es)
        | Some (File _) => False
        end)
  /\ (forall yaml_safe_load ds out split w n w',
        convert_labels yaml_safe_load ds out split w = (Ok n, w') -> 0 <= n).
Proof.
  assert (Hsplit : forall ds io lo sc count split_name w n w',
            convert_split ds io lo sc count split_name w = (Ok n, w') ->
            match lookup (fs w) (os_path_join ds [split_name; "images"]) with
            | None => n = count /\ w' = w
            | Some (Dir es) => count <= n <= count + Z.of_nat (List.length es)
            | Some (File _) => False
            end).
  { intros ds io lo sc count split_name w n w' H.
    unfold convert_split in H. unfold bind at 1 in H.
    rewrite path_exists_below in H. unfold bind, listdir in H.
    destruct (lookup (fs w) (os_path_join ds [split_name; "images"]))
      as [[d|es]|] eqn:E; simpl in H.
    - rewrite E in H. discriminate.
    - rewrite E in H.
      apply for_each_count in H;
        [|intros; eapply convert_image_count; eassumption].
      now rewrite length_map in H.
    - inversion H. now split. }
  split; [|split; [|split]].
  - intros. eapply convert_image_count; eassumption.
  - intros ds img_dir lbl_dir io lo sc count img w H.
    unfold convert_image. now rewrite H.
  - exact Hsplit.
  - intros yaml_safe_load ds out split w n w' H.
    unfold convert_labels in H.
    apply bind_returned in H. destruct H as (_ & w1 & _ & H).
    apply bind_returned in H. destruct H as (_ & w2 & _ & H).
    apply bind_returned in H. destruct H as (found & w3 & _ & H).
    destruct found as [data_yaml|].
    + apply bind_returned in H. destruct H as (text & w4 & _ & H).
      apply bind_returned in H. destruct H as (config & w5 & _ & H).
      apply bind_returned in H. destruct H as (sc & w6 & _ & H).
      apply bind_returned in H. destruct H as (_ & w7 & _ & H).
      apply for_each_grows in H; [exact H|].
      intros acc x w0 n0 w0' H0. specialize (Hsplit _ _ _ _ _ _ _ _ _ H0).
      destruct (lookup (fs w0) _) as [[d|es]|]; [contradiction | lia | lia].
    + apply bind_returned in H. destruct H as (_ & w4 & _ & H).
      inversion H. lia.
Qed.

Lemma count_bounds_witness :
  convert_image ["raw"; "phone_1"] ["raw"; "phone_1"; "train"; "images"]
    ["raw"; "phone_1"; "train"; "labels"] ["merged"; "train"; "images"]
    ["merged"; "train"; "labels"] (YList [YStr "phone"]) 7 "notes.md"
    (sample_world "0 0.5 0.5")
  = (Ok 7, sample_world "0 0.5 0.5").
Proof.
  destruct count_bounds as (_ & H & _).
  apply H. reflexivity.
Defined.

(** ** Files outside the output directory *)

Lemma find_del_entry_other x y es :
  x <> y -> find_entry y (del_entry x es) = find_entry y es.
Proof.
  intros Hne. induction es as [|[z d] es IH]; simpl; [reflexivity|].
  destruct (String.eqb_spec z x) as [->|Hzx].
  - rewrite IH. destruct (String.eqb_spec x y); [contradiction | reflexivity].
  - simpl. now rewrite IH.
Qed.

Lemma under_cons x (out p : path) :
  ~ under (x :: out) (x :: p) -> ~ under out p.
Proof. intros H [q ->]. apply H. now exists q. Qed.

Lemma remove_is_dir es (out : path) : exists es', remove (Dir es) out = Dir es'.
Proof.
  destruct out as [|x [|y out]]; simpl; try (eexists; reflexivity).
  destruct (find_entry x es); eexists; reflexivity.
Qed.

Lemma same_outside_remove (out : path) : forall t,
  same_outside out t (remove t out).
Proof.
  induction out as [|x out IH]; intros t p c Hp.
  - exfalso. apply Hp. now exists p.
  - destruct t as [|es]; [reflexivity|].
    destruct p as [|y p].
    + destruct (remove_is_dir es (x :: out)) as [es' ->]. simpl.
      split; discriminate.
    + destruct out as [|x' out].
      * simpl. destruct (String.eqb_spec x y) as [->|Hxy].
        -- exfalso. apply Hp. now exists p.
        -- now rewrite find_del_entry_other.
      * rewrite remove_cons by discriminate.
        destruct (find_entry x es) as [c0|] eqn:Ex; [|reflexivity].
        simpl. rewrite find_set_entry.
        destruct (String.eqb_spec x y) as [->|Hxy]; [|reflexivity].
        rewrite Ex. apply IH. now apply under_cons in Hp.
Qed.

Lemma same_outside_refl out t : same_outside out t t.
Proof. intros p c _. reflexivity. Qed.

Lemma same_outside_trans out a b c :
  same_outside out a b -> same_outside out b c -> same_outside out a c.
Proof.
  intros Hab Hbc p x Hp. rewrite (Hbc p x Hp). apply (Hab p x Hp).
Qed.

Lemma same_outside_makedirs out (q : path) t t' :
  tree_makedirs t q = Some t' -> same_outside out t t'.
Proof.
  intros Hm p c _. split.
  - exact (lookup_file_makedirs _ _ _ _ _ Hm).
  - exact (makedirs_keeps_files _ _ _ _ _ Hm).
Qed.

Lemma same_outside_write (out q : path) t t' data :
  tree_write t (out ++ q)%list data = Some t' -> same_outside out t t'.
Proof.
  intros Hw p c Hp.
  assert (Hne : p <> (out ++ q)%list).
  { intros ->. apply Hp. now exists q. }
  split.
  - intros H. destruct (lookup_file_write _ _ _ _ _ _ Hw H) as [[E _]|H'];
      [contradiction | exact H'].
  - exact (lookup_write_other _ _ _ _ _ _ Hw Hne).
Qed.

Lemma preserves_clear_output out :
  preserves (same_outside out) (clear_output out).
Proof.
  intros w r w' H. unfold clear_output, bind, path_exists, rmtree in H.
  destruct out as [|x out']; [inversion H; apply same_outside_refl|].
  destruct (lookup (fs w) (x :: out')) as [[c|es]|] eqn:E;
    cbv beta iota in H; rewrite ?E in H;
    inversion H; subst; cbn [fs set_fs].
  - apply same_outside_refl.
  - apply same_outside_remove.
  - apply same_outside_refl.
Qed.

Lemma preserves_same_outside_convert_labels yaml_safe_load ds out split :
  preserves (same_outside out) (convert_labels yaml_safe_load ds out split).
Proof.
  apply preserves_convert_labels.
  - apply same_outside_refl.
  - apply same_outside_trans.
  - intros q t t' Hm. exact (same_outside_makedirs _ _ _ _ Hm).
  - intros s q t t' data _ Hw. rewrite <- app_assoc in Hw.
    exact (same_outside_write _ _ _ _ _ Hw).
  - intros s x t t' data _ Hw. rewrite <- app_assoc in Hw.
    exact (same_outside_write _ _ _ _ _ Hw).
Qed.

Lemma preserves_same_outside_prepare yaml_safe_load yaml_dump raw out :
  preserves (same_outside out)
    (prepare_dataset yaml_safe_load yaml_dump raw out).
Proof.
  assert (Hrefl := same_outside_refl out).
  assert (Htrans := same_outside_trans out).
  unfold prepare_dataset, rebuild_output.
  apply preserves_bind; try assumption.
  { now apply preserves_print. }
  intros _. apply preserves_bind; try assumption.
  { apply preserves_clear_output. }
  intros _. apply preserves_bind; try assumption.
  { apply preserves_merge_loop; try assumption.
    - intros q t t' Hm. exact (same_outside_makedirs _ _ _ _ Hm).
    - intros s q t t' data _ Hw. rewrite <- app_assoc in Hw.
      exact (same_outside_write _ _ _ _ _ Hw).
    - intros s x t t' data _ Hw. rewrite <- app_assoc in Hw.
      exact (same_outside_write _ _ _ _ _ Hw). }
  intros totals. apply preserves_bind; try assumption.
  { apply preserves_write_text; try assumption.
    intros t t' Hw. exact (same_outside_write _ _ _ _ _ Hw). }
  intros _.
  repeat (apply preserves_bind; try assumption;
          [now apply preserves_print | intros _]).
  now apply preserves_ret.
Qed.

(** X8: [convert_labels] and [prepare_dataset] read the raw datasets but
    change nothing outside the output directory: whether they return or
    raise, a path that is not the output directory or below it holds a
    regular file with some content afterwards exactly when it did
    before. With the two directories of the main program, raw_datasets
    and merged_dataset below one output directory, the downloaded files
    are therefore never altered by the merge. *)
Theorem merge_leaves_the_rest_alone :
  (forall yaml_safe_load ds out split w r w' p c,
     convert_labels yaml_safe_load ds out split w = (r, w') ->
     ~ under out p ->
     (lookup (fs w') p = Some (File c) <-> lookup (fs w) p = Some (File c)))
  /\ (forall yaml_safe_load yaml_dump raw out w r w' p c,
        prepare_dataset yaml_safe_load yaml_dump raw out w = (r, w') ->
        ~ under out p ->
        (lookup (fs w') p = Some (File c) <-> lookup (fs w) p = Some (File c)))
  /\ (forall yaml_safe_load yaml_dump (output_dir q : path) w r w' c,
        prepare_dataset yaml_safe_load yaml_dump
          (os_path_join output_dir ["raw_datasets"])
          (os_path_join output_dir ["merged_dataset"]) w = (r, w') ->
        (lookup (fs w') (os_path_join output_dir ("raw_datasets" :: q))
         = Some (File c)
         <-> lookup (fs w) (os_path_join output_dir ("raw_datasets" :: q))
             = Some (File c))).
Proof.
  split; [|split].
  - intros yaml_safe_load ds out split w r w' p c Hrun Hp.
    exact (preserves_same_outside_convert_labels _ _ _ _ _ _ _ Hrun p c Hp).
  - intros yaml_safe_load yaml_dump raw out w r w' p c Hrun Hp.
    exact (preserves_same_outside_prepare _ _ _ _ _ _ _ Hrun p c Hp).
  - intros yaml_safe_load yaml_dump output_dir q w r w' c Hrun.
    apply (preserves_same_outside_prepare _ _ _ _ _ _ _ Hrun).
    intros [q' E]. rewrite <- app_assoc in E. apply app_inv_head in E.
    simpl in E. inversion E.
Qed.

Lemma merge_leaves_the_rest_alone_witness :
  lookup
    (fs (snd (prepare_dataset sample_safe_load sample_dump ["raw"] ["merged"]
                (sample_world "0 0.5 0.5 0.2 0.2"))))
    ["raw"; "phone_1"; "train"; "labels"; "a.txt"]
  = Some (File "0 0.5 0.5 0.2 0.2").
Proof.
  destruct merge_leaves_the_rest_alone as (_ & H & _).
  destruct (prepare_dataset sample_safe_load sample_dump ["raw"] ["merged"]
              (sample_world "0 0.5 0.5 0.2 0.2")) as [r w'] eqn:Hrun.
  apply (H _ _ _ _ _ _ _ ["raw"; "phone_1"; "train"; "labels"; "a.txt"]
           "0 0.5 0.5 0.2 0.2" Hrun).
  - intros [q E]. inversion E.
  - reflexivity.
Defined.

(** ** prepare_dataset: the manifest *)

Lemma find_del_entry_any x y es :
  find_entry y (del_entry x es)
  = if String.eqb x y then None else find_entry y es.
Proof.
  destruct (String.eqb_spec x y) as [->|Hne].
  - apply find_del_entry.
  - now apply find_del_entry_other.
Qed.

Lemma lookup_remove_absent (q : path) : forall t (p : path),
  lookup t p = None -> lookup (remove t q) p = None.
Proof.
  induction q as [|x q IH]; intros t p H.
  - destruct t; exact H.
  - destruct t as [|es]; [exact H|].
    destruct p as [|y p]; [discriminate|].
    destruct q as [|x' q].
    + simpl in *. rewrite find_del_entry_any.
      destruct (String.eqb x y); [reflexivity | exact H].
    + rewrite remove_cons by discriminate.
      destruct (find_entry x es) as [c0|] eqn:Ex; [|exact H].
      simpl in *. rewrite find_set_entry.
      destruct (String.eqb_spec x y) as [->|Hxy]; [|exact H].
      rewrite Ex in H. now apply IH.
Qed.

Lemma tree_write_absent_parent (d : path) : forall t x data,
  lookup t d = None -> tree_write t (d ++ [x])%list data = None.
Proof.
  induction d as [|y d IH]; intros t x data H; [discriminate|].
  destruct t as [|es]; [reflexivity|].
  change ((y :: d) ++ [x])%list with (y :: (d ++ [x]))%list.
  rewrite tree_write_cons by apply app_last_not_nil.
  simpl in H. destruct (find_entry y es) as [c|]; [|reflexivity].
  now rewrite (IH _ _ _ H).
Qed.

Lemma merge_loop_nothing_present yaml_safe_load raw out entries :
  forall totals w,
    (forall e, In e entries -> lookup (fs w) (raw ++ [fst e])%list = None) ->
    for_each (merge_one yaml_safe_load raw out) totals entries w
    = (Ok totals, w).
Proof.
  induction entries as [|e entries IH]; intros totals w H; [reflexivity|].
  simpl. unfold bind at 1. unfold merge_one at 1.
  unfold bind at 1. rewrite path_exists_below.
  rewrite (H e (or_introl eq_refl)).
  simpl. apply IH. intros e' He'. apply H. now right.
Qed.

(** Without any dataset directory the merge removes the output directory
    and fails when it writes data.yaml. *)
Lemma prepare_without_datasets
    yaml_safe_load yaml_dump (raw_dir parent : path) (name : string) w :
  (forall e, In e ROBOFLOW_DATASETS ->
     lookup (fs w) (raw_dir ++ [fst e])%list = None) ->
  no_file_at (fs w) (parent ++ [name])%list ->
  prepare_dataset yaml_safe_load yaml_dump raw_dir (parent ++ [name])%list w
  = (Raise OSError,
     World (remove (fs w) (parent ++ [name])%list)
       (trace w ++ [Print MsgPreparing])).
Proof.
  intros Habsent Hn.
  rewrite (prepare_dataset_clears yaml_safe_load yaml_dump raw_dir parent
             name w Hn).
  unfold rebuild_output. unfold bind at 1.
  rewrite merge_loop_nothing_present.
  - unfold bind, write_text. cbn [fs].
    rewrite tree_write_absent_parent; [reflexivity|].
    apply lookup_removed, app_last_not_nil.
  - intros e He. cbn [fs]. apply lookup_remove_absent. now apply Habsent.
Qed.

(** X9: when none of the configured dataset directories exists below the
    raw directory, [prepare_dataset] still removes the output directory
    first; the loop then skips every dataset, nothing creates the output
    directory again, and writing data.yaml raises: the run ends with an
    OSError and the previous merge output is gone. *)
Theorem merge_without_datasets_fails
    yaml_safe_load yaml_dump (raw_dir parent : path) (name : string) w :
  (forall e, In e ROBOFLOW_DATASETS ->
     lookup (fs w) (raw_dir ++ [fst e])%list = None) ->
  no_file_at (fs w) (parent ++ [name])%list ->
  prepare_dataset yaml_safe_load yaml_dump raw_dir (parent ++ [name])%list w
  = (Raise OSError,
     World (remove (fs w) (parent ++ [name])%list)
       (trace w ++ [Print MsgPreparing]))
  /\ lookup (remove (fs w) (parent ++ [name])%list) (parent ++ [name])%list
     = None.
Proof.
  intros Habsent Hn.
  split; [|apply lookup_removed, app_last_not_nil].
  now apply prepare_without_datasets.
Qed.

Lemma merge_without_datasets_fails_witness :
  prepare_dataset sample_safe_load sample_dump ["elsewhere"] ["raw"]
    (sample_world "0 0.5 0.5")
  = (Raise OSError, World (Dir []) [Print MsgPreparing]).
Proof.
  destruct (merge_without_datasets_fails sample_safe_load sample_dump
              ["elsewhere"] [] "raw" (sample_world "0 0.5 0.5")) as [H _].
  - intros e _. reflexivity.
  - intros c. discriminate.
  - exact H.
Defined.

(** What a returning run of [prepare_dataset] leaves: the path returned,
    the file written there, the last lines printed. *)
Lemma prepare_dataset_returned
    yaml_safe_load yaml_dump (raw_dir output_dir : path) w p w' :
  prepare_dataset yaml_safe_load yaml_dump raw_dir output_dir w = (Ok p, w') ->
  p = os_path_join output_dir ["data.yaml"]
  /\ lookup (fs w') p = Some (File (yaml_dump (merged_manifest output_dir)))
  /\ exists tr total_train total_valid,
       trace w'
       = (tr ++ [Print MsgPrepared; Print (MsgTotalTrain total_train);
                 Print (MsgTotalValid total_valid);
                 Print (MsgClasses TARGET_CLASSES)])%list.
Proof.
  intros H. unfold prepare_dataset in H.
  apply bind_returned in H. destruct H as (_ & w1 & _ & H).
  apply bind_returned in H. destruct H as (_ & w2 & _ & H).
  unfold rebuild_output in H.
  apply bind_returned in H. destruct H as (totals & w3 & _ & H).
  apply bind_returned in H. destruct H as (u & w4 & Hw & H).
  unfold write_text in Hw.
  destruct (tree_write (fs w3) (os_path_join output_dir ["data.yaml"])
              (yaml_dump (merged_manifest output_dir))) as [t|] eqn:Et;
    [|discriminate].
  inversion Hw; subst w4. clear Hw.
  unfold bind, print, ret in H. cbn [fs trace set_fs] in H.
  inversion H; subst p w'. cbn [fs trace].
  split; [reflexivity|]. split; [exact (lookup_written _ _ _ _ Et)|].
  exists (trace w3), (fst totals), (snd totals).
  now rewrite <- !app_assoc.
Qed.

(** X10: when [prepare_dataset] returns, it returns the path of data.yaml
    in the output directory, that file holds the dump of the merged
    manifest (the four canonical names under keys 0..3, nc = 4, the two
    split folders), and the last four lines printed are the summary. *)
Theorem merge_writes_the_manifest
    yaml_safe_load yaml_dump (raw_dir output_dir : path) w p w' :
  prepare_dataset yaml_safe_load yaml_dump raw_dir output_dir w = (Ok p, w') ->
  p = os_path_join output_dir ["data.yaml"]
  /\ lookup (fs w') p = Some (File (yaml_dump (merged_manifest output_dir)))
  /\ merged_manifest output_dir
     = YMap [ (YStr "path", YStr (path_text output_dir));
              (YStr "train", YStr "train/images");
              (YStr "val", YStr "valid/images");
              (YStr "names",
               YMap [(YInt 0, YStr "person"); (YInt 1, YStr "phone");
                     (YInt 2, YStr "material"); (YInt 3, YStr "headphones")]);
              (YStr "nc", YInt 4) ]
  /\ exists tr total_train total_valid,
       trace w'
       = (tr ++ [Print MsgPrepared; Print (MsgTotalTrain total_train);
                 Print (MsgTotalValid total_valid);
                 Print (MsgClasses TARGET_CLASSES)])%list.
Proof.
  intros H.
  destruct (prepare_dataset_returned _ _ _ _ _ _ _ H) as (Hp & Hl & Htr).
  split; [exact Hp|]. split; [exact Hl|]. split; [reflexivity | exact Htr].
Qed.

Lemma merge_writes_the_manifest_witness :
  lookup
    (fs (snd (prepare_dataset sample_safe_load sample_dump ["raw"] ["merged"]
                (sample_world "0 0.5 0.5 0.2 0.2"))))
    ["merged"; "data.yaml"]
  = Some (File (sample_dump (merged_manifest ["merged"]))).
Proof.
  destruct (prepare_dataset sample_safe_load sample_dump ["raw"] ["merged"]
              (sample_world "0 0.5 0.5 0.2 0.2")) as [r w'] eqn:Hrun.
  assert (Hr : r = Ok ["merged"; "data.yaml"]).
  { change r with (fst (r, w')). rewrite <- Hrun. vm_compute. reflexivity. }
  subst r.
  destruct (merge_writes_the_manifest _ _ _ _ _ _ _ Hrun) as (_ & H & _).
  exact H.
Defined.

(** ** download_datasets: the commands of a run *)

(** A path that exists after [os.makedirs] existed before or is one of
    the directories on the way to the one asked for. *)
Lemma makedirs_new_paths (q : path) : forall t t' (p : path),
  tree_makedirs t q = Some t' ->
  lookup t' p <> None ->
  lookup t p <> None \/ exists r, q = (p ++ r)%list.
Proof.
  induction q as [|x q IH]; intros t t' p Hm Hp.
  - destruct t; simpl in Hm; [discriminate|]. inversion Hm; subst. now left.
  - destruct t as [|es]; simpl in Hm; [discriminate|].
    destruct (tree_makedirs
                match find_entry x es with Some c0 => c0 | None => Dir [] end q)
      as [c'|] eqn:E; [|discriminate].
    inversion Hm; subst t'. clear Hm.
    destruct p as [|y p]; [left; discriminate|].
    simpl in Hp. rewrite find_set_entry in Hp. simpl.
    destruct (String.eqb_spec x y) as [->|Hxy]; [|now left].
    destruct (IH _ _ _ E Hp) as [H|[r ->]].
    + destruct (find_entry y es) as [c0|]; [now left|].
      destruct p as [|z p]; [|simpl in H; congruence].
      right. now exists q.
    + right. now exists r.
Qed.

Lemma absent_after_makedirs (d : path) (x y : string) t t' :
  x <> y ->
  tree_makedirs t (d ++ [x])%list = Some t' ->
  absent t' (d ++ [y])%list = absent t (d ++ [y])%list.
Proof.
  intros Hne Hm. unfold absent.
  destruct (lookup t (d ++ [y])%list) as [n|] eqn:E.
  - pose proof (makedirs_keeps_paths _ _ _ (d ++ [y])%list Hm) as H.
    destruct (lookup t' (d ++ [y])%list); [reflexivity|].
    exfalso. apply H; congruence.
  - destruct (lookup t' (d ++ [y])%list) as [n|] eqn:E'; [|reflexivity].
    destruct (makedirs_new_paths _ _ _ (d ++ [y])%list Hm) as [H|[r Hr]].
    + congruence.
    + congruence.
    + rewrite <- app_assoc in Hr. apply app_inv_head in Hr.
      inversion Hr. congruence.
Qed.

Lemma absent_below_makedirs (d : path) (y : string) t t' :
  tree_makedirs t d = Some t' ->
  absent t' (d ++ [y])%list = absent t (d ++ [y])%list.
Proof.
  intros Hm. unfold absent.
  destruct (lookup t (d ++ [y])%list) as [n|] eqn:E.
  - pose proof (makedirs_keeps_paths _ _ _ (d ++ [y])%list Hm) as H.
    destruct (lookup t' (d ++ [y])%list); [reflexivity|].
    exfalso. apply H; congruence.
  - destruct (lookup t' (d ++ [y])%list) as [n|] eqn:E'; [|reflexivity].
    destruct (makedirs_new_paths _ _ _ (d ++ [y])%list Hm) as [H|[r Hr]].
    + congruence.
    + congruence.
    + exfalso. apply (f_equal (@List.length string)) in Hr.
      rewrite !length_app in Hr. simpl in Hr. lia.
Qed.

Lemma commands_run_system cmds : commands_run (map System cmds) = cmds.
Proof. induction cmds as [|c cmds IH]; simpl; [reflexivity | now rewrite IH]. Qed.

Section FetchRun.

Variable run_command : shell_cmd -> node -> node.
Variable output_dir : path.

Lemma download_loop_commands entries :
  NoDup (map fst entries) ->
  commands_keep run_command output_dir entries ->
  forall w w',
    for_each (download_one run_command output_dir) tt entries w = (Ok tt, w') ->
    exists evs,
      trace w' = (trace w ++ evs)%list
      /\ commands_run evs
         = flat_map (dataset_commands output_dir)
             (filter (fun e => absent (fs w) (output_dir ++ [fst e])%list)
                entries).
Proof.
  induction entries as [|e0 entries IH]; intros Hnd Hkeep w w' Hrun.
  - inversion Hrun; subst. exists []. now rewrite app_nil_r.
  - simpl in Hnd. inversion Hnd as [|? ? Hfresh Hnd']; subst.
    assert (Hkeep' : commands_keep run_command output_dir entries).
    { intros c t e He. apply Hkeep. now right. }
    simpl in Hrun. apply bind_returned in Hrun.
    destruct Hrun as ([] & w1 & H1 & Hrest).
    destruct (IH Hnd' Hkeep' _ _ Hrest) as (evs & Ht & Hc).
    simpl filter. unfold absent at 1.
    destruct (lookup (fs w) (output_dir ++ [fst e0])%list) as [n|] eqn:E0.
    + rewrite download_one_present in H1 by congruence.
      inversion H1; subst w1. cbn [fs trace] in *.
      exists (Print (MsgAlreadyExists (fst e0)) :: evs). split.
      * rewrite Ht. now rewrite <- app_assoc.
      * exact Hc.
    + rewrite (download_one_absent _ _ _ _ E0) in H1.
      destruct (tree_makedirs (fs w) (output_dir ++ [fst e0])%list)
        as [t1|] eqn:Em; [|discriminate].
      inversion H1; subst w1. cbn [fs trace] in *.
      exists ((Print (MsgDownloading (fst e0))
               :: map System (dataset_commands output_dir e0)) ++ evs)%list.
      split.
      * rewrite Ht. now rewrite <- app_assoc.
      * rewrite commands_run_app. cbn [commands_run].
        rewrite commands_run_system. cbn [flat_map]. f_equal.
        rewrite Hc. f_equal. apply filter_ext_in. intros e He.
        assert (Hne : fst e0 <> fst e).
        { intros Heq. apply Hfresh. rewrite Heq. now apply in_map. }
        simpl fold_left. rewrite !Hkeep by now right.
        exact (absent_after_makedirs _ _ _ _ _ Hne Em).
Qed.

End FetchRun.

Lemma dataset_names_distinct : NoDup (map fst ROBOFLOW_DATASETS).
Proof.
  repeat (constructor; [simpl; intuition discriminate|]). constructor.
Qed.

(** X11: in a run of [download_datasets] that returns, the commands run
    are exactly the download, extract and delete commands of the entries
    whose directory was missing when the run started, entry by entry in
    the order of the list, provided the external commands neither create
    nor delete the directories of the configured datasets. *)
Theorem download_runs_missing_only
    (run_command : shell_cmd -> node -> node) (output_dir : path) w w' :
  commands_keep run_command output_dir ROBOFLOW_DATASETS ->
  download_datasets run_command output_dir w = (Ok tt, w') ->
  exists evs,
    trace w' = (trace w ++ evs)%list
    /\ commands_run evs
       = flat_map (dataset_commands output_dir)
           (filter (fun e => absent (fs w) (output_dir ++ [fst e])%list)
              ROBOFLOW_DATASETS).
Proof.
  intros Hkeep Hrun. unfold download_datasets in Hrun.
  apply bind_returned in Hrun. destruct Hrun as (u & w0 & Hm & Hrun).
  apply bind_returned in Hrun. destruct Hrun as ([] & w1 & Hloop & Hp).
  unfold makedirs in Hm.
  destruct (tree_makedirs (fs w) output_dir) as [t0|] eqn:Em; [|discriminate].
  inversion Hm; subst w0. clear Hm.
  destruct (download_loop_commands run_command output_dir _
              dataset_names_distinct Hkeep _ _ Hloop) as (evs & Ht & Hc).
  inversion Hp; subst w'. cbn [fs trace] in *.
  exists (evs ++ [Print MsgAllDownloaded])%list. split.
  - rewrite Ht. now rewrite <- app_assoc.
  - rewrite commands_run_app. cbn [commands_run]. rewrite app_nil_r, Hc.
    cbn [fs set_fs]. f_equal. apply filter_ext. intros e.
    exact (absent_below_makedirs _ _ _ _ Em).
Qed.

Lemma download_runs_missing_only_witness :
  exists evs,
    trace (snd (download_datasets (fun _ t => t) ["raw"]
                  (sample_world "0 0.5 0.5")))
    = ([] ++ evs)%list
    /\ commands_run evs
       = flat_map (dataset_commands ["raw"])
           (filter (fun e => absent (sample_tree "0 0.5 0.5")
                               (["raw"] ++ [fst e])%list)
              ROBOFLOW_DATASETS).
Proof.
  destruct (download_datasets (fun _ t => t) ["raw"]
              (sample_world "0 0.5 0.5")) as [r w'] eqn:Hrun.
  assert (Hr : r = Ok tt).
  { change r with (fst (r, w')). rewrite <- Hrun. vm_compute. reflexivity. }
  subst r.
  apply (download_runs_missing_only (fun _ t => t) ["raw"]
           (sample_world "0 0.5 0.5") w').
  - intros c t e _. reflexivity.
  - exact Hrun.
Defined.

(** ** finetune_model: the path of the exported model *)

Lemma prefix_app (old s t : string) :
  String.prefix old s = true -> String.prefix old (s ++ t) = true.
Proof.
  revert s. induction old as [|a old IH]; intros s H;
    [now destruct (s ++ t)%string|].
  destruct s as [|b s]; simpl in H; [discriminate|]. simpl.
  destruct (ascii_dec a b); [now apply IH | discriminate].
Qed.

Lemma str_append_assoc (a b c : string) :
  ((a ++ b) ++ c = a ++ (b ++ c))%string.
Proof. induction a as [|x a IH]; simpl; [reflexivity | now rewrite IH]. Qed.

(** Where [s] holds no ".pt" and the text after it starts with neither
    "p" nor "t", no occurrence starts within [s]: [replace] copies it. *)
Lemma replace_copies (s : string) (c0 : ascii) (t0 : string) :
  c0 <> "p"%char -> c0 <> "t"%char ->
  str_contains ".pt" s = false ->
  replace_from ".pt" ".onnx" 0 (s ++ String c0 t0)
  = (s ++ replace_from ".pt" ".onnx" 0 (String c0 t0))%string.
Proof.
  intros Hp Ht. induction s as [|c s IH]; intros Hs; [reflexivity|].
  cbn [str_contains] in Hs. apply orb_false_iff in Hs. destruct Hs as [Hpre Hs].
  assert (Hfull : String.prefix ".pt" (String c s ++ String c0 t0) = false).
  { cbn [String.prefix append] in Hpre |- *.
    destruct (ascii_dec "." c); [|reflexivity].
    destruct s as [|d s]; cbn [String.prefix append] in Hpre |- *.
    - destruct (ascii_dec "p" c0); [congruence | reflexivity].
    - destruct (ascii_dec "p" d); [|reflexivity].
      destruct s as [|d2 s]; cbn [String.prefix append] in Hpre |- *.
      + destruct (ascii_dec "t" c0); [congruence | reflexivity].
      + destruct (ascii_dec "t" d2); [|reflexivity].
        now destruct s. }
  change (String c s ++ String c0 t0)%string
    with (String c (s ++ String c0 t0)) in Hfull |- *.
  cbn [replace_from]. rewrite Hfull. cbn [append]. f_equal. now apply IH.
Qed.

(** Conversely, where [replace] copies [s], [s] holds no ".pt". *)
Lemma replace_copied (s : string) (c0 : ascii) (t0 t' : string) :
  c0 <> "p"%char ->
  replace_from ".pt" ".onnx" 0 (s ++ String c0 t0) = (s ++ t')%string ->
  str_contains ".pt" s = false.
Proof.
  intros Hp. induction s as [|c s IH]; intros H; [reflexivity|].
  change (String c s ++ String c0 t0)%string
    with (String c (s ++ String c0 t0)) in H.
  cbn [replace_from] in H.
  destruct (String.prefix ".pt" (String c (s ++ String c0 t0))) eqn:Hfull.
  - exfalso. cbn [String.prefix] in Hfull.
    destruct (ascii_dec "." c); [|discriminate].
    destruct s as [|d s]; cbn [String.prefix append] in Hfull.
    + destruct (ascii_dec "p" c0); [congruence | discriminate].
    + destruct (ascii_dec "p" d) as [<-|]; [|discriminate].
      cbn [append] in H. inversion H.
  - cbn [append] in H. inversion H as [H'].
    cbn [str_contains]. rewrite (IH H'), orb_false_r.
    destruct (String.prefix ".pt" (String c s)) eqn:E; [|reflexivity].
    apply prefix_app with (t := String c0 t0) in E.
    change (String c s ++ String c0 t0)%string
      with (String c (s ++ String c0 t0)) in E. congruence.
Qed.

Lemma join_app (sep : string) (p q : list string) :
  p <> [] -> q <> [] ->
  Str.join sep (p ++ q)
  = (Str.join sep p ++ sep ++ Str.join sep q)%string.
Proof.
  intros Hp Hq. induction p as [|x p IH]; [congruence|].
  destruct p as [|y p].
  - destruct q as [|z q]; [congruence | reflexivity].
  - change (Str.join sep ((x :: y :: p) ++ q))
      with (x ++ sep ++ Str.join sep ((y :: p) ++ q))%string.
    rewrite IH by discriminate.
    change (Str.join sep (x :: y :: p))
      with (x ++ sep ++ Str.join sep (y :: p))%string.
    now rewrite !str_append_assoc.
Qed.

(** The text that [finetune_model] returns, computed from the output
    directory: where the directory holds no ".pt" it is the path of
    best.onnx beside best.pt, and only there. *)
Lemma onnx_path_sibling (output_dir : path) :
  str_replace ".pt" ".onnx"
    (path_text
       (os_path_join output_dir ["anticheat_finetuned"; "weights"; "best.pt"]))
  = path_text
      (os_path_join output_dir ["anticheat_finetuned"; "weights"; "best.onnx"])
  <-> str_contains ".pt" (path_text output_dir) = false.
Proof.
  unfold path_text, str_replace.
  destruct output_dir as [|x l]; [split; intros _; reflexivity|].
  rewrite !(join_app "/" (x :: l)) by discriminate.
  set (s := Str.join "/" (x :: l)).
  change ("/" ++ Str.join "/" ["anticheat_finetuned"; "weights"; "best.pt"])%string
    with (String "/" "anticheat_finetuned/weights/best.pt").
  split.
  - apply replace_copied. discriminate.
  - intros H. rewrite replace_copies by (discriminate || assumption).
    reflexivity.
Qed.

Lemma tbind_returned {S A B} (m : T S A) (k : A -> T S B) s b s' :
  tbind m k s = (Ok b, s') ->
  exists a s1, m s = (Ok a, s1) /\ k a s1 = (Ok b, s').
Proof.
  unfold tbind. destruct (m s) as [[a|e] s1]; [|discriminate].
  intros H. now exists a, s1.
Qed.

Lemma calls_made_app (a b : list training_event) :
  calls_made (a ++ b) = (calls_made a ++ calls_made b)%list.
Proof.
  induction a as [|[m|c] a IH]; simpl; [reflexivity | exact IH | now rewrite IH].
Qed.

(** X12: when [finetune_model] returns, it returns the path of best.pt
    below the output directory with every ".pt" replaced by ".onnx", and
    that is the text it printed. The replacement runs over the whole path:
    what is returned is the path of best.onnx beside best.pt exactly when
    the text of the output directory holds no ".pt" itself. *)
Theorem exported_path_beside_weights
    (S : Type) (library : library_call -> S -> result unit * S)
    (base_model_path : string) (data_yaml output_dir : path)
    (s s' : session S) (p : string) :
  finetune_model library base_model_path data_yaml output_dir s = (Ok p, s') ->
  p = str_replace ".pt" ".onnx"
        (path_text
           (os_path_join output_dir
              ["anticheat_finetuned"; "weights"; "best.pt"]))
  /\ (p = path_text
            (os_path_join output_dir
               ["anticheat_finetuned"; "weights"; "best.onnx"])
      <-> str_contains ".pt" (path_text output_dir) = false)
  /\ exists evs,
       snd s' = (evs ++ [Said (MsgOnnxSaved p); Said MsgCopyThisFile])%list.
Proof.
  intros H. unfold finetune_model in H.
  do 8 (apply tbind_returned in H; destruct H as (? & ? & _ & H);
        cbv beta zeta in H).
  unfold tbind, say, tret in H. cbn [fst snd] in H.
  inversion H; subst p s'. clear H.
  split; [reflexivity|]. split; [apply onnx_path_sibling|].
  cbn [snd]. eexists. rewrite <- app_assoc. reflexivity.
Qed.

Lemma exported_path_beside_weights_witness :
  fst (finetune_model (fun _ (st : unit) => (Ok tt, st)) "yolo11s.pt"
         ["training_output"; "merged_dataset"; "data.yaml"]
         ["training_output"] (tt, []))
  = Ok "training_output/anticheat_finetuned/weights/best.onnx".
Proof.
  destruct (finetune_model (fun _ (st : unit) => (Ok tt, st)) "yolo11s.pt"
              ["training_output"; "merged_dataset"; "data.yaml"]
              ["training_output"] (tt, [])) as [r s'] eqn:Hrun.
  assert (Hr : exists p, r = Ok p).
  { change r with (fst (r, s')). rewrite <- Hrun. vm_compute. now eexists. }
  destruct Hr as [p ->].
  destruct (exported_path_beside_weights _ _ _ _ _ _ _ _ Hrun) as (_ & H & _).
  cbn [fst]. f_equal. apply H. vm_compute. reflexivity.
Defined.

(** ** finetune_model: the calls into the library *)

Ltac in_list := cbn [In]; repeat (first [left; reflexivity | right]).

(** Closes one outcome of a run of [finetune_model], given by [H]. *)
Ltac calls_done H :=
  inversion H; subst; cbn [snd firstn nth Nat.sub];
  rewrite ?calls_made_app; cbn [calls_made app];
  rewrite <- ?app_assoc; cbn [app];
  repeat split; try lia; try discriminate; try in_list;
  try (intros ? He; inversion He; subst; eauto).

(** The library calls of one run, whether it returns or raises. *)
Lemma finetune_model_calls
    (S : Type) (library : library_call -> S -> result unit * S)
    (base_model_path : string) (data_yaml output_dir : path)
    (s s' : session S) (r : result string) :
  finetune_model library base_model_path data_yaml output_dir s = (r, s') ->
  exists train_kwargs export_kwargs n,
    let best_model_path :=
      path_text
        (os_path_join output_dir
           ["anticheat_finetuned"; "weights"; "best.pt"]) in
    let calls :=
      [ YOLO base_model_path; Train base_model_path train_kwargs;
        YOLO best_model_path; Export best_model_path export_kwargs ] in
    In ("data", PStr (path_text data_yaml)) train_kwargs
    /\ In ("project", PStr (path_text output_dir)) train_kwargs
    /\ In ("name", PStr "anticheat_finetuned") train_kwargs
    /\ In ("format", PStr "onnx") export_kwargs
    /\ (1 <= n <= 4)%nat
    /\ calls_made (snd s') = (calls_made (snd s) ++ firstn n calls)%list
    /\ (forall p, r = Ok p -> n = 4%nat)
    /\ (forall e, r = Raise e ->
        exists st st',
          library (nth (n - 1) calls (YOLO base_model_path)) st
          = (Raise e, st')).
Proof.
  intros H. unfold finetune_model, tbind, say, call, tret in H.
  cbn [fst snd] in H.
  match type of H with
  | context [Train _ ?tk] =>
      match type of H with
      | context [Export _ ?ek] => exists tk, ek
      end
  end.
  destruct (library (YOLO base_model_path) (fst s)) as [[[]|e1] st1] eqn:E1;
    cbn [fst snd] in H; [|exists 1%nat; calls_done H].
  match type of H with
  | context [library ?c st1] =>
      destruct (library c st1) as [[[]|e2] st2] eqn:E2
  end;
    cbn [fst snd] in H; [|exists 2%nat; calls_done H].
  match type of H with
  | context [library ?c st2] =>
      destruct (library c st2) as [[[]|e3] st3] eqn:E3
  end;
    cbn [fst snd] in H; [|exists 3%nat; calls_done H].
  match type of H with
  | context [library ?c st3] =>
      destruct (library c st3) as [[[]|e4] st4] eqn:E4
  end;
    cbn [fst snd] in H; exists 4%nat; calls_done H.
Qed.

Ltac calls_match :=
  split; [reflexivity | split; [reflexivity|]];
  rewrite ?calls_made_app; cbn [calls_made app];
  rewrite <- ?app_assoc; cbn [app]; rewrite ?app_nil_r; reflexivity.

(** X13: [finetune_model] makes its four library calls in a fixed order,
    each from the state the previous one left: load the base model, train
    it, load the weights at <project>/<name>/weights/best.pt, export them.
    The first call that raises ends the run with its exception, in the
    state it left, and no later call is made; when none raises, the run
    returns the path of the exported model. *)
Theorem library_calls_in_order
    (S : Type) (library : library_call -> S -> result unit * S)
    (base_model_path : string) (data_yaml output_dir : path)
    (s : session S) :
  let best_model_path :=
    path_text
      (os_path_join output_dir ["anticheat_finetuned"; "weights"; "best.pt"]) in
  let calls :=
    [ YOLO base_model_path;
      Train base_model_path
        [ ("data", PStr (path_text data_yaml));
          ("epochs", PInt 50);
          ("imgsz", PInt 640);
          ("batch", PInt 16);
          ("patience", PInt 15);
          ("lr0", PFloat "0.001");
          ("lrf", PFloat "0.01");
          ("warmup_epochs", PInt 3);
          ("freeze", PInt 10);
          ("project", PStr (path_text output_dir));
          ("name", PStr "anticheat_finetuned");
          ("exist_ok", PBool true);
          ("device", PInt 0);
          ("verbose", PBool true) ];
      YOLO best_model_path;
      Export best_model_path
        [ ("format", PStr "onnx");
          ("imgsz", PInt 640);
          ("simplify", PBool true);
          ("dynamic", PBool false);
          ("opset", PInt 17) ] ] in
  let run := finetune_model library base_model_path data_yaml output_dir s in
  match run_calls library calls (fst s) with
  | (outcome, st, made) =>
      fst run
      = match outcome with
        | Ok _ => Ok (str_replace ".pt" ".onnx" best_model_path)
        | Raise e => Raise e
        end
      /\ fst (snd run) = st
      /\ calls_made (snd (snd run)) = (calls_made (snd s) ++ made)%list
  end.
Proof.
  cbv zeta. unfold finetune_model, tbind, say, call, tret.
  cbn [run_calls fst snd epochs imgsz batch patience lr0 lrf warmup_epochs
       freeze TRAIN_CONFIG].
  destruct (library (YOLO base_model_path) (fst s)) as [[[]|e1] st1];
    cbn [fst snd]; [|calls_match].
  match goal with
  | |- context [library ?c st1] => destruct (library c st1) as [[[]|e2] st2]
  end; cbn [fst snd]; [|calls_match].
  match goal with
  | |- context [library ?c st2] => destruct (library c st2) as [[[]|e3] st3]
  end; cbn [fst snd]; [|calls_match].
  match goal with
  | |- context [library ?c st3] => destruct (library c st3) as [[[]|e4] st4]
  end; cbn [fst snd]; calls_match.
Qed.

(** ** The main program *)

(** X14: the main program calls the library only after the merge has
    returned. When the download (unless skipped) or the merge raises, the
    program ends with that exception and nothing of the training driver
    has happened. Otherwise the merge has returned the path of data.yaml
    in merged_dataset, the file written there holds the merged manifest,
    and the library is then called in the order of [finetune_model], with
    that path as the training data. *)
Theorem main_trains_on_merged_manifest
    (yaml_safe_load : string -> result yaml) (yaml_dump : yaml -> string)
    (run_command : shell_cmd -> node -> node)
    (library : library_call -> world -> result unit * world)
    (args : arguments) (w : world) (evs : list training_event)
    (r : result unit) (s' : session world) :
  main yaml_safe_load yaml_dump run_command library args (w, evs) = (r, s') ->
  let raw_datasets_dir := os_path_join (arg_output_dir args) ["raw_datasets"] in
  let merged_dataset_dir :=
    os_path_join (arg_output_dir args) ["merged_dataset"] in
  match
    ((if arg_skip_download args then ret tt
      else download_datasets run_command raw_datasets_dir) ;;;
     prepare_dataset yaml_safe_load yaml_dump raw_datasets_dir
       merged_dataset_dir) w
  with
  | (Raise e, w1) => r = Raise e /\ s' = (w1, evs)
  | (Ok data_yaml, w1) =>
      data_yaml = os_path_join merged_dataset_dir ["data.yaml"]
      /\ lookup (fs w1) data_yaml
         = Some (File (yaml_dump (merged_manifest merged_dataset_dir)))
      /\ exists train_kwargs export_kwargs n,
           let best_model_path :=
             path_text
               (os_path_join (arg_output_dir args)
                  ["anticheat_finetuned"; "weights"; "best.pt"]) in
           In ("data", PStr (path_text data_yaml)) train_kwargs
           /\ In ("project", PStr (path_text (arg_output_dir args)))
                train_kwargs
           /\ (1 <= n <= 4)%nat
           /\ calls_made (snd s')
              = (calls_made evs
                 ++ firstn n
                      [ YOLO (arg_base_model args);
                        Train (arg_base_model args) train_kwargs;
                        YOLO best_model_path;
                        Export best_model_path export_kwargs ])%list
  end.
Proof.
  intros H raw merged. unfold main in H. fold raw merged in H.
  unfold tbind at 1 in H.
  assert (Hfirst :
    (if negb (arg_skip_download args)
     then step (download_datasets run_command raw)
     else tret tt) (w, evs)
    = (fst ((if arg_skip_download args then ret tt
             else download_datasets run_command raw) w),
       (snd ((if arg_skip_download args then ret tt
              else download_datasets run_command raw) w), evs))).
  { destruct (arg_skip_download args); cbn [negb]; [reflexivity|].
    unfold step. cbn [fst snd].
    now destruct (download_datasets run_command raw w). }
  rewrite Hfirst in H. clear Hfirst. unfold bind at 1.
  destruct ((if arg_skip_download args then ret tt
             else download_datasets run_command raw) w) as [[[]|e0] w0];
    cbn [fst snd] in H; [|inversion H; now split].
  unfold tbind at 1, step at 1 in H. cbn [fst snd] in H.
  destruct (prepare_dataset yaml_safe_load yaml_dump raw merged w0)
    as [[data_yaml|e1] w1] eqn:Hprep; [|inversion H; now split].
  destruct (prepare_dataset_returned _ _ _ _ _ _ _ Hprep) as (Hp & Hl & _).
  split; [exact Hp|]. split; [exact Hl|].
  unfold tbind at 1 in H.
  destruct (finetune_model library (arg_base_model args) data_yaml
              (arg_output_dir args) (w1, evs)) as [rf sf] eqn:Hf.
  destruct (finetune_model_calls _ _ _ _ _ _ _ _ Hf)
    as (tk & ek & n & H1 & H2 & _ & _ & Hn & Hc & _).
  exists tk, ek, n. cbv zeta. split; [exact H1|]. split; [exact H2|].
  split; [exact Hn|].
  cbn [snd] in Hc. rewrite <- Hc.
  destruct rf as [p|e2].
  - unfold tbind, say in H. cbn [fst snd] in H. inversion H. cbn [snd].
    rewrite !calls_made_app. cbn [calls_made]. now rewrite !app_nil_r.
  - now inversion H.
Qed.

Lemma main_trains_on_merged_manifest_witness :
  exists train_kwargs export_kwargs n,
    In ("data", PStr "merged_dataset/data.yaml") train_kwargs
    /\ (1 <= n <= 4)%nat
    /\ calls_made
         (snd (snd (main sample_safe_load sample_dump (fun _ t => t)
                      (fun _ w => (Ok tt, w))
                      {| arg_base_model := "yolo11s.pt";
                         arg_output_dir := [];
                         arg_skip_download := true |}
                      (downloaded_world, []))))
       = firstn n
           [ YOLO "yolo11s.pt"; Train "yolo11s.pt" train_kwargs;
             YOLO "anticheat_finetuned/weights/best.pt";
             Export "anticheat_finetuned/weights/best.pt" export_kwargs ].
Proof.
  destruct (main sample_safe_load sample_dump (fun _ t => t)
              (fun _ w => (Ok tt, w))
              {| arg_base_model := "yolo11s.pt";
                 arg_output_dir := [];
                 arg_skip_download := true |}
              (downloaded_world, [])) as [r s'] eqn:Hrun.
  pose proof (main_trains_on_merged_manifest _ _ _ _ _ _ _ _ _ Hrun) as H.
  cbv zeta in H. cbn [arg_skip_download arg_output_dir arg_base_model] in H.
  assert (Hm :
    fst ((ret tt ;;;
          prepare_dataset sample_safe_load sample_dump
            (os_path_join [] ["raw_datasets"])
            (os_path_join [] ["merged_dataset"])) downloaded_world)
    = Ok ["merged_dataset"; "data.yaml"]).
  { vm_compute. reflexivity. }
  destruct ((ret tt ;;;
             prepare_dataset sample_safe_load sample_dump
               (os_path_join [] ["raw_datasets"])
               (os_path_join [] ["merged_dataset"])) downloaded_world)
    as [[p|e] w1]; [|discriminate].
  cbn [fst] in Hm. inversion Hm; subst p.
  destruct H as (_ & _ & tk & ek & n & Hd & _ & Hn & Hc).
  exists tk, ek, n. cbn [snd]. split; [exact Hd|]. split; [exact Hn|exact Hc].
Defined.

(** X15: started with --skip-download where none of the configured
    datasets has been downloaded, the main program ends with an OSError
    raised by the merge: the library is never called, nothing of the
    training driver is printed, and a merged_dataset directory of an
    earlier run has been removed. *)
Theorem skip_download_without_datasets_fails
    (yaml_safe_load : string -> result yaml) (yaml_dump : yaml -> string)
    (run_command : shell_cmd -> node -> node)
    (library : library_call -> world -> result unit * world)
    (args : arguments) (w : world) (evs : list training_event) :
  arg_skip_download args = true ->
  (forall e, In e ROBOFLOW_DATASETS ->
     lookup (fs w)
       (os_path_join (os_path_join (arg_output_dir args) ["raw_datasets"])
          [fst e]) = None) ->
  no_file_at (fs w) (os_path_join (arg_output_dir args) ["merged_dataset"]) ->
  main yaml_safe_load yaml_dump run_command library args (w, evs)
  = (Raise OSError,
     (World
        (remove (fs w) (os_path_join (arg_output_dir args) ["merged_dataset"]))
        (trace w ++ [Print MsgPreparing]),
      evs)).
Proof.
  intros Hskip Habsent Hn. unfold main. rewrite Hskip. cbn [negb].
  unfold tbind at 1, tret. unfold tbind at 1, step. cbn [fst snd].
  now rewrite prepare_without_datasets.
Qed.

Lemma skip_download_without_datasets_fails_witness :
  main sample_safe_load sample_dump (fun _ t => t) (fun _ w => (Ok tt, w))
    {| arg_base_model := "yolo11s.pt";
       arg_output_dir := ["training_output"];
       arg_skip_download := true |}
    (sample_world "0 0.5 0.5 0.2 0.2", [])
  = (Raise OSError, (World (sample_tree "0 0.5 0.5 0.2 0.2")
                       [Print MsgPreparing], [])).
Proof.
  apply (skip_download_without_datasets_fails sample_safe_load sample_dump
           (fun _ t => t) (fun _ w => (Ok tt, w))
           {| arg_base_model := "yolo11s.pt";
              arg_output_dir := ["training_output"];
              arg_skip_download := true |}
           (sample_world "0 0.5 0.5 0.2 0.2") []).
  - reflexivity.
  - intros e _. reflexivity.
  - intros c. discriminate.
Defined.

(** ** convert_labels: the names given to the merged files *)

(** X16: the prefix that [convert_labels] puts before a file name keeps
    the configured datasets apart: two files of different datasets of
    ROBOFLOW_DATASETS never get the same name in the merged folders, and
    within one dataset the merged name determines the source name. (No
    configured name followed by "_" starts another configured name.) *)
Theorem datasets_never_share_output_names
    (raw_dir : path) (e1 e2 : string * string) (f1 f2 : string) :
  In e1 ROBOFLOW_DATASETS -> In e2 ROBOFLOW_DATASETS ->
  (path_name (os_path_join raw_dir [fst e1]) ++ "_" ++ f1
   = path_name (os_path_join raw_dir [fst e2]) ++ "_" ++ f2)%string ->
  e1 = e2 /\ f1 = f2.
Proof.
  intros H1 H2. rewrite !path_name_join.
  unfold ROBOFLOW_DATASETS in H1, H2. cbn [In] in H1, H2.
  repeat match goal with
         | H : _ \/ _ |- _ => destruct H as [H|H]
         | H : False |- _ => destruct H
         end;
    subst e1 e2; cbn [fst append]; intros H;
    first [ discriminate H
          | split; [reflexivity | now inversion H] ].
Qed.

Lemma datasets_never_share_output_names_witness :
  ("phone_2", "https://app.roboflow.com/ds/f9k54F7Azq?key=eYssUekSYc")
  = ("phone_2", "https://app.roboflow.com/ds/f9k54F7Azq?key=eYssUekSYc")
  /\ "a.jpg" = "a.jpg".
Proof.
  apply (datasets_never_share_output_names ["raw"]).
  - right. left. reflexivity.
  - right. left. reflexivity.
  - reflexivity.
Defined.

(** ** The label files of a run of convert_labels *)

Lemma no_newline_app (a b : string) :
  no_newline (a ++ b) = no_newline a && no_newline b.
Proof.
  induction a as [|c a IH]; simpl; [reflexivity|].
  now rewrite IH, andb_assoc.
Qed.

Lemma no_space_no_newline (s : string) :
  no_space s = true -> no_newline s = true.
Proof.
  induction s as [|c s IH]; simpl; [reflexivity|].
  intros H. apply andb_true_iff in H. destruct H as [Hc Hs].
  rewrite (IH Hs), andb_true_r.
  destruct (Ascii.eqb_spec c "010") as [->|]; [discriminate Hc | reflexivity].
Qed.

Lemma join_fields_no_newline (ts : list string) :
  Forall field ts -> no_newline (Str.join " " ts) = true.
Proof.
  induction ts as [|t ts IH]; intros H; [reflexivity|].
  inversion H as [|? ? [_ Ht] Hts]; subst.
  destruct ts as [|t' ts]; [now apply no_space_no_newline|].
  change (Str.join " " (t :: t' :: ts))
    with (t ++ " " ++ Str.join " " (t' :: ts))%string.
  rewrite !no_newline_app, (no_space_no_newline _ Ht), (IH Hts).
  reflexivity.
Qed.

(** A kept line holds no newline. *)
Lemma kept_line_no_newline sc line o :
  convert_line sc line = Ok (Some o) -> no_newline o = true.
Proof.
  intros H. destruct (convert_line_kept _ _ _ H) as [c Hk].
  destruct (kept_from_split _ _ _ _ Hk) as (_ & Hs & _).
  pose proof (split_fields o) as Hf. rewrite Hs in Hf.
  destruct Hk as (_ & old & n & name & _ & _ & _ & _ & _ & _ & ->).
  now apply join_fields_no_newline.
Qed.

Lemma text_lines_one (l : string) :
  no_newline l = true -> text_lines l = [l].
Proof.
  induction l as [|c l IH]; simpl; [reflexivity|].
  intros H. apply andb_true_iff in H. destruct H as [Hc Hl].
  destruct (Ascii.eqb c "010"); [discriminate|]. now rewrite (IH Hl).
Qed.

Lemma text_lines_cons (l rest : string) :
  no_newline l = true ->
  text_lines (l ++ String "010" rest) = l :: text_lines rest.
Proof.
  induction l as [|c l IH]; simpl; [reflexivity|].
  intros H. apply andb_true_iff in H. destruct H as [Hc Hl].
  destruct (Ascii.eqb c "010"); [discriminate|]. now rewrite (IH Hl).
Qed.

(** The lines of a text made by joining newline-free lines are those
    lines. *)
Lemma text_lines_join (ls : list string) :
  ls <> [] ->
  Forall (fun l => no_newline l = true) ls ->
  text_lines (Str.join (String "010" EmptyString) ls) = ls.
Proof.
  induction ls as [|l ls IH]; intros Hne H; [congruence|].
  inversion H as [|? ? Hl Hls]; subst.
  destruct ls as [|l' ls]; [now apply text_lines_one|].
  change (Str.join (String "010" EmptyString) (l :: l' :: ls))
    with (l ++ String "010" (Str.join (String "010" EmptyString) (l' :: ls)))%string.
  rewrite (text_lines_cons _ _ Hl), IH; [reflexivity | discriminate | exact Hls].
Qed.

Lemma kept_lines_text sc lines new_lines :
  convert_lines sc lines = Ok new_lines -> new_lines <> [] ->
  text_lines (Str.join (String "010" EmptyString) new_lines) = new_lines.
Proof.
  intros Hc Hne. apply text_lines_join; [exact Hne|].
  apply Forall_forall. intros o Ho.
  destruct (convert_lines_in _ _ _ Hc _ Ho) as (line & _ & Hl).
  exact (kept_line_no_newline _ _ _ Hl).
Qed.

(** *** The scan for data.yaml does not see new directories *)

Lemma has_file_set_entry name x c' es :
  is_file c' = false ->
  (forall c, find_entry x es = Some c -> is_file c = false) ->
  has_file name (set_entry x c' es) = has_file name es.
Proof.
  intros Hc'. unfold has_file.
  induction es as [|[y d] es IH]; intros Hx; simpl.
  - now rewrite Hc', andb_false_r.
  - simpl in Hx. destruct (String.eqb_spec y x) as [->|Hyx]; simpl.
    + now rewrite Hc', (Hx d eq_refl), !andb_false_r.
    + now rewrite (IH Hx).
Qed.

Lemma walk_subdirs_set_entry name x c' es :
  is_file c' = false ->
  (forall c, find_entry x es = Some c -> is_file c = false) ->
  walk_find name c'
  = walk_find name match find_entry x es with
                   | Some c => c
                   | None => Dir []
                   end ->
  walk_subdirs name (set_entry x c' es) = walk_subdirs name es.
Proof.
  intros Hc'.
  induction es as [|[y d] es IH]; intros Hx Hw; simpl in *.
  - destruct c'; [discriminate|]. now rewrite Hw.
  - destruct (String.eqb_spec y x) as [->|Hyx]; simpl.
    + specialize (Hx d eq_refl).
      destruct c'; [discriminate|]. destruct d; [discriminate|].
      now rewrite Hw.
    + now rewrite (IH Hx Hw).
Qed.

Lemma walk_find_makedirs_eq name p : forall t t',
  tree_makedirs t p = Some t' -> walk_find name t' = walk_find name t.
Proof.
  induction p as [|x p IH]; intros t t' Hm.
  - destruct t; simpl in Hm; [discriminate | now inversion Hm].
  - destruct t as [|es]; simpl in Hm; [discriminate|].
    destruct (tree_makedirs
                match find_entry x es with Some c0 => c0 | None => Dir [] end p)
      as [c'|] eqn:E; [|discriminate].
    inversion Hm; subst t'. clear Hm.
    assert (Hc' : is_file c' = false).
    { destruct (makedirs_is_dir _ _ _ E) as [es' ->]. reflexivity. }
    assert (Hx : forall c, find_entry x es = Some c -> is_file c = false).
    { intros c Hc. rewrite Hc in E. destruct c; [|reflexivity].
      destruct p; discriminate. }
    rewrite !walk_find_dir, (has_file_set_entry _ _ _ _ Hc' Hx).
    now rewrite (walk_subdirs_set_entry _ _ _ _ Hc' Hx (IH _ _ E)).
Qed.

Lemma scan_makedirs name ds : forall p t t',
  tree_makedirs t p = Some t' ->
  match lookup t' ds with Some n => walk_find name n | None => None end
  = match lookup t ds with Some n => walk_find name n | None => None end.
Proof.
  induction ds as [|y ds IH]; intros p t t' Hm.
  - simpl. exact (walk_find_makedirs_eq _ _ _ _ Hm).
  - destruct t as [|es]; [destruct p; discriminate|].
    destruct p as [|x p]; simpl in Hm.
    + now inversion Hm.
    + destruct (tree_makedirs
                  match find_entry x es with Some c0 => c0 | None => Dir [] end
                  p) as [c'|] eqn:E; [|discriminate].
      inversion Hm; subst t'. clear Hm.
      simpl. rewrite find_set_entry.
      destruct (String.eqb_spec x y) as [->|Hxy]; [|reflexivity].
      rewrite (IH _ _ _ E).
      destruct (find_entry y es) as [c0|]; [reflexivity|].
      destruct ds; reflexivity.
Qed.

(** *** The relation kept by the loops *)

Section LabelProvenance.

Variables (dataset_dir output_dir : path) (split : string) (sc : yaml).

Let R := labels_from dataset_dir output_dir split sc.

Lemma labels_from_refl t : R t t.
Proof. split; [apply same_outside_refl | intros s q text H; now left]. Qed.

Lemma labels_from_trans a b c : R a b -> R b c -> R a c.
Proof.
  intros [Sab Fab] [Sbc Fbc]. split; [exact (same_outside_trans _ _ _ _ Sab Sbc)|].
  intros s q text H.
  destruct (Fbc _ _ _ H) as [Hb|(src & nl & Hb)]; [exact (Fab _ _ _ Hb)|].
  right. exists src, nl.
  destruct Hb as (sn & img & Hin & Hrec & Hp & Hsrc & Hrest).
  exists sn, img. repeat split; try assumption; try apply Hrest.
  intros src_lbl Hout. apply (Sab _ _ Hout). exact (Hsrc Hout).
Qed.

Lemma labels_from_makedirs p t t' :
  tree_makedirs t p = Some t' -> R t t'.
Proof.
  intros Hm. split; [exact (same_outside_makedirs _ _ _ _ Hm)|].
  intros s q text H. left. exact (lookup_file_makedirs _ _ _ _ _ Hm H).
Qed.

Lemma labels_from_write_image s q t t' data :
  tree_write t (os_path_join (os_path_join output_dir [s; "images"]) q) data
  = Some t' ->
  R t t'.
Proof.
  intros Hw. split.
  - rewrite <- app_assoc in Hw. exact (same_outside_write _ _ _ _ _ Hw).
  - intros s' q' text H.
    destruct (lookup_file_write _ _ _ _ _ _ Hw H) as [[E _]|H']; [|now left].
    exfalso. exact (images_not_labels _ _ _ _ _ E).
Qed.

Lemma labels_from_write_label split_name img_file t t' src l ls :
  In split_name ["train"; "valid"; "test"] ->
  Str.endswith_any (Str.lower img_file) IMAGE_SUFFIXES = true ->
  lookup t (os_path_join (os_path_join dataset_dir [split_name; "labels"])
              [splitext_root img_file ++ ".txt"]) = Some (File src) ->
  convert_lines sc (readlines src) = Ok (l :: ls) ->
  tree_write t
    (os_path_join (os_path_join output_dir [split; "labels"])
       [path_name dataset_dir ++ "_" ++ (splitext_root img_file ++ ".txt")])
    (Str.join (String "010" EmptyString) (l :: ls)) = Some t' ->
  R t t'.
Proof.
  intros Hin Hrec Hsrc Hc Hw. split.
  - rewrite <- app_assoc in Hw. exact (same_outside_write _ _ _ _ _ Hw).
  - intros s q text H.
    destruct (lookup_file_write _ _ _ _ _ _ Hw H) as [[E Et]|H']; [|now left].
    right. exists src, (l :: ls), split_name, img_file.
    split; [exact Hin|]. split; [exact Hrec|]. split; [exact E|].
    split; [intros src_lbl _; exact Hsrc|]. split; [exact Hc|].
    split; [discriminate | exact Et].
Qed.

Lemma preserves_labels_convert_image split_name count img_file :
  In split_name ["train"; "valid"; "test"] ->
  preserves R
    (convert_image dataset_dir
       (os_path_join dataset_dir [split_name; "images"])
       (os_path_join dataset_dir [split_name; "labels"])
       (os_path_join output_dir [split; "images"])
       (os_path_join output_dir [split; "labels"]) sc count img_file).
Proof.
  intros Hin w r w' H.
  destruct (Str.endswith_any (Str.lower img_file) IMAGE_SUFFIXES) eqn:Hrec.
  2:{ unfold convert_image in H. rewrite Hrec in H. inversion H.
      apply labels_from_refl. }
  destruct (copy
              (os_path_join (os_path_join dataset_dir [split_name; "images"])
                 [img_file])
              (os_path_join (os_path_join output_dir [split; "images"])
                 [path_name dataset_dir ++ "_" ++ img_file]) w)
    as [[[]|e] w1] eqn:Hc.
  2:{ rewrite (convert_image_copy_fails _ _ _ _ _ _ _ _ Hrec _ _ _ Hc) in H.
      inversion H. apply labels_from_refl. }
  rewrite (convert_image_after_copy _ _ _ _ _ _ _ _ Hrec _ _ Hc) in H.
  destruct (copy_returns _ _ _ _ Hc) as (data & dst' & _ & Hd & Hw & _).
  assert (R1 : R (fs w) (fs w1)).
  { destruct Hd as [-> | ->].
    - exact (labels_from_write_image _ _ _ _ _ Hw).
    - rewrite <- app_assoc in Hw. exact (labels_from_write_image _ _ _ _ _ Hw). }
  destruct (lookup (fs w1)
              (os_path_join (os_path_join dataset_dir [split_name; "labels"])
                 [splitext_root img_file ++ ".txt"]))
    as [[src|es]|] eqn:El; try (inversion H; subst; exact R1).
  destruct (convert_lines sc (readlines src)) as [[|l ls]|e] eqn:Ec;
    try (inversion H; subst; exact R1).
  match type of H with
  | context [tree_write ?a ?b ?c] => destruct (tree_write a b c) as [t|] eqn:Et
  end; inversion H; subst; [|exact R1].
  apply (labels_from_trans _ _ _ R1). cbn [fs set_fs].
  exact (labels_from_write_label _ _ _ _ _ _ _ Hin Hrec El Ec Et).
Qed.

Lemma preserves_for_each_in {A X} (body : A -> X -> M A) (xs : list X) :
  (forall acc x, In x xs -> preserves R (body acc x)) ->
  forall acc, preserves R (for_each body acc xs).
Proof.
  induction xs as [|x xs IH]; intros Hb acc; simpl.
  - apply preserves_ret, labels_from_refl.
  - apply preserves_bind; [exact labels_from_trans | apply Hb; now left|].
    intros a. apply IH. intros acc' y Hy. apply Hb. now right.
Qed.

Lemma preserves_labels_convert_split split_name count :
  In split_name ["train"; "valid"; "test"] ->
  preserves R
    (convert_split dataset_dir (os_path_join output_dir [split; "images"])
       (os_path_join output_dir [split; "labels"]) sc count split_name).
Proof.
  intros Hin. unfold convert_split.
  apply preserves_bind; [exact labels_from_trans| |].
  { apply preserves_path_exists, labels_from_refl. }
  intros present. destruct (negb present);
    [apply preserves_ret, labels_from_refl|].
  apply preserves_bind; [exact labels_from_trans| |].
  { apply preserves_listdir, labels_from_refl. }
  intros files.
  apply preserves_for_each;
    [exact labels_from_refl | exact labels_from_trans|].
  intros acc x. now apply preserves_labels_convert_image.
Qed.

Lemma preserves_labels_splits count :
  preserves R
    (for_each
       (convert_split dataset_dir (os_path_join output_dir [split; "images"])
          (os_path_join output_dir [split; "labels"]) sc)
       count ["train"; "valid"; "test"]).
Proof.
  apply preserves_for_each_in.
  intros acc x Hx. now apply preserves_labels_convert_split.
Qed.

End LabelProvenance.

(** A run of [bind] raised in its first part or went on from its result. *)
Lemma bind_cases {A B} (m : M A) (k : A -> M B) w r w' :
  bind m k w = (r, w') ->
  (exists e, m w = (Raise e, w') /\ r = Raise e)
  \/ exists a w1, m w = (Ok a, w1) /\ k a w1 = (r, w').
Proof.
  unfold bind. destruct (m w) as [[a|e] w1].
  - intros H. right. now exists a, w1.
  - intros [= <- <-]. left. now exists e.
Qed.

Lemma makedirs_cases p w r w' :
  makedirs p w = (r, w') ->
  (r = Raise OSError /\ w' = w)
  \/ exists t, tree_makedirs (fs w) p = Some t /\ r = Ok tt /\ w' = set_fs w t.
Proof.
  unfold makedirs. destruct (tree_makedirs (fs w) p) as [t|].
  - intros [= <- <-]. right. now exists t.
  - intros [= <- <-]. now left.
Qed.

(** Every file that a run of [convert_labels] leaves below a labels folder
    of the output was there before with the same text, or was written by
    the run for an image of the dataset: with the class list of the
    dataset's data.yaml, from the label file of that image. *)
Lemma convert_labels_label_provenance
    yaml_safe_load dataset_dir output_dir split w r w' s q text :
  convert_labels yaml_safe_load dataset_dir output_dir split w = (r, w') ->
  lookup (fs w') (os_path_join (os_path_join output_dir [s; "labels"]) q)
  = Some (File text) ->
  lookup (fs w) (os_path_join (os_path_join output_dir [s; "labels"]) q)
  = Some (File text)
  \/ exists sc src new_lines,
       dataset_classes yaml_safe_load (fs w) dataset_dir sc
       /\ label_file_from (fs w) dataset_dir output_dir split sc
            (os_path_join (os_path_join output_dir [s; "labels"]) q)
            text src new_lines.
Proof.
  intros Hrun Hl. unfold convert_labels in Hrun.
  apply bind_cases in Hrun.
  destruct Hrun as [(e & Hm & _)|([] & w1 & Hm1 & Hrun)].
  { destruct (makedirs_cases _ _ _ _ Hm) as [[_ ->]|(t & _ & Hr & _)];
      [now left | discriminate]. }
  destruct (makedirs_cases _ _ _ _ Hm1) as [[Hr _]|(t1 & E1 & _ & ->)];
    [discriminate|]. clear Hm1.
  apply bind_cases in Hrun.
  destruct Hrun as [(e & Hm & _)|([] & w2 & Hm2 & Hrun)].
  { destruct (makedirs_cases _ _ _ _ Hm) as [[_ ->]|(t & _ & Hr & _)];
      [|discriminate].
    cbn [fs set_fs] in Hl. left. exact (lookup_file_makedirs _ _ _ _ _ E1 Hl). }
  destruct (makedirs_cases _ _ _ _ Hm2) as [[Hr _]|(t2 & E2 & _ & ->)];
    [discriminate|]. clear Hm2. cbn [fs set_fs] in E2.
  assert (Hback : forall p c,
            lookup t2 p = Some (File c) -> lookup (fs w) p = Some (File c)).
  { intros p c H. apply (lookup_file_makedirs _ _ _ _ _ E1).
    exact (lookup_file_makedirs _ _ _ _ _ E2 H). }
  pose proof (scan_makedirs "data.yaml" dataset_dir _ _ _ E2) as Hs2.
  pose proof (scan_makedirs "data.yaml" dataset_dir _ _ _ E1) as Hs1.
  rewrite Hs1 in Hs2. clear Hs1.
  apply bind_cases in Hrun.
  destruct Hrun as [(e & Hm & _)|(found & w3 & Hm3 & Hrun)];
    [discriminate Hm|].
  unfold find_data_yaml in Hm3. cbn [fs set_fs] in Hm3.
  inversion Hm3 as [[Hfound Hw3]]. clear Hm3. subst w3.
  destruct (lookup t2 dataset_dir) as [n2|] eqn:En2.
  2:{ subst found. unfold bind, print, ret in Hrun. inversion Hrun; subst.
      cbn [fs] in Hl. left. exact (Hback _ _ Hl). }
  destruct (walk_find "data.yaml" n2) as [root|] eqn:Ew2.
  2:{ subst found. unfold bind, print, ret in Hrun. inversion Hrun; subst.
      cbn [fs] in Hl. left. exact (Hback _ _ Hl). }
  subst found.
  apply bind_cases in Hrun.
  destruct Hrun as [(e & Hm & _)|(ytext & w4 & Hm4 & Hrun)].
  { unfold read_text in Hm. cbn [fs set_fs] in Hm.
    destruct (lookup t2 _) as [[]|]; inversion Hm; subst;
      cbn [fs] in Hl; left; exact (Hback _ _ Hl). }
  unfold read_text in Hm4. cbn [fs set_fs] in Hm4.
  destruct (lookup t2
              (os_path_join dataset_dir (os_path_join root ["data.yaml"])))
    as [[ytext'|es]|] eqn:Ey; try discriminate.
  inversion Hm4; subst ytext' w4. clear Hm4.
  apply bind_cases in Hrun.
  destruct Hrun as [(e & Hm & _)|(config & w5 & Hm5 & Hrun)].
  { unfold lift in Hm. inversion Hm; subst.
    cbn [fs] in Hl. left. exact (Hback _ _ Hl). }
  unfold lift in Hm5. inversion Hm5 as [[Eload Hw5]]. subst w5. clear Hm5.
  apply bind_cases in Hrun.
  destruct Hrun as [(e & Hm & _)|(sc & w6 & Hm6 & Hrun)].
  { unfold lift in Hm. inversion Hm; subst.
    cbn [fs] in Hl. left. exact (Hback _ _ Hl). }
  unfold lift in Hm6. inversion Hm6 as [[Esc Hw6]]. subst w6. clear Hm6.
  apply bind_cases in Hrun.
  destruct Hrun as [(e & Hm & _)|([] & w7 & Hm7 & Hrun)];
    [discriminate Hm|].
  unfold print in Hm7. inversion Hm7; subst w7. clear Hm7.
  destruct (preserves_labels_splits dataset_dir output_dir split sc 0 _ _ _ Hrun)
    as [_ Hfiles].
  cbn [fs set_fs] in Hfiles.
  destruct (Hfiles _ _ _ Hl) as [H|(src & nl & H)];
    [left; exact (Hback _ _ H)|].
  right. exists sc, src, nl. split.
  - destruct (lookup (fs w) dataset_dir) as [n|] eqn:En; [|discriminate].
    exists n, root, ytext, config.
    repeat split; try assumption; [congruence | exact (Hback _ _ Ey)].
  - destruct H as (sn & img & Hin & Hrec & Hp & Hsrc & Hrest).
    exists sn, img. repeat split; try assumption; try apply Hrest.
    intros src_lbl Hout. apply Hback. exact (Hsrc Hout).
Qed.

(** The lines of a label file written for the dataset are the kept lines
    of the source label file. *)
Lemma label_file_lines t dataset_dir output_dir split sc p text src new_lines :
  label_file_from t dataset_dir output_dir split sc p text src new_lines ->
  convert_lines sc (readlines src) = Ok new_lines
  /\ text_lines text = new_lines.
Proof.
  intros (sn & img & _ & _ & _ & _ & Hc & Hne & ->).
  split; [exact Hc | exact (kept_lines_text _ _ _ Hc Hne)].
Qed.

(** C5: a line with fewer than five fields is skipped without error and
    contributes nothing to [new_lines]; every line of [new_lines] has at
    least five fields and comes from a source line with at least five; and
    every file that a run of [convert_labels] creates or changes below a
    labels folder of the output is the label file of an image of the
    dataset: its lines are the kept lines of that image's source label
    file, converted with the class list of the dataset's data.yaml, so
    each of its lines has at least five fields and comes from a line of
    the source label file that has at least five. *)
Theorem short_lines_never_merged :
  (forall sc line,
     (List.length (Str.split (Str.strip line)) < 5)%nat ->
     convert_line sc line = Ok None
     /\ forall before after,
          convert_lines sc (before ++ line :: after)
          = convert_lines sc (before ++ after))
  /\ (forall sc lines new_lines,
        convert_lines sc lines = Ok new_lines ->
        forall o, In o new_lines ->
          (5 <= List.length (Str.split o))%nat
          /\ exists line, In line lines
               /\ (5 <= List.length (Str.split (Str.strip line)))%nat
               /\ convert_line sc line = Ok (Some o))
  /\ (forall yaml_safe_load dataset_dir output_dir split w r w' s q text,
        convert_labels yaml_safe_load dataset_dir output_dir split w = (r, w') ->
        lookup (fs w') ((output_dir ++ [s; "labels"]) ++ q)%list
          = Some (File text) ->
        lookup (fs w) ((output_dir ++ [s; "labels"]) ++ q)%list
          = Some (File text)
        \/ exists sc src new_lines,
             dataset_classes yaml_safe_load (fs w) dataset_dir sc
             /\ label_file_from (fs w) dataset_dir output_dir split sc
                  ((output_dir ++ [s; "labels"]) ++ q)%list text src new_lines
             /\ convert_lines sc (readlines src) = Ok new_lines
             /\ text_lines text = new_lines
             /\ Forall
                  (fun o =>
                     (5 <= List.length (Str.split o))%nat
                     /\ exists line,
                          In line (readlines src)
                          /\ (5 <= List.length (Str.split (Str.strip line)))%nat
                          /\ convert_line sc line = Ok (Some o))
                  (text_lines text)).
Proof.
  assert (Hlines : forall sc lines new_lines,
            convert_lines sc lines = Ok new_lines ->
            forall o, In o new_lines ->
              (5 <= List.length (Str.split o))%nat
              /\ exists line, In line lines
                   /\ (5 <= List.length (Str.split (Str.strip line)))%nat
                   /\ convert_line sc line = Ok (Some o)).
  { intros sc lines new_lines Hc o Ho.
    destruct (convert_lines_in _ _ _ Hc _ Ho) as (line & Hin & Hl).
    destruct (convert_line_kept _ _ _ Hl) as [c Hk].
    pose proof (kept_from_fields _ _ _ _ Hk) as Hf.
    destruct Hk as [Hlen _].
    split; [lia|]. exists line. repeat split; assumption. }
  split; [|split].
  - intros sc line Hshort.
    pose proof (convert_line_short sc line Hshort) as H.
    split; [exact H|]. intros before after. now apply convert_lines_skip.
  - exact Hlines.
  - intros yaml_safe_load dataset_dir output_dir split w r w' s q text Hrun Hl.
    destruct (convert_labels_label_provenance _ _ _ _ _ _ _ _ _ _ Hrun Hl)
      as [H|(sc & src & nl & Hsc & Hfrom)]; [now left | right].
    destruct (label_file_lines _ _ _ _ _ _ _ _ _ Hfrom) as [Hc Ht].
    exists sc, src, nl.
    split; [exact Hsc|]. split; [exact Hfrom|]. split; [exact Hc|].
    split; [exact Ht|]. rewrite Ht.
    apply Forall_forall. intros o Ho. exact (Hlines _ _ _ Hc o Ho).
Qed.

Lemma short_lines_never_merged_witness :
  exists sc src new_lines,
    dataset_classes sample_safe_load (sample_tree "0 0.5 0.5 0.2 0.2")
      ["raw"; "phone_1"] sc
    /\ label_file_from (sample_tree "0 0.5 0.5 0.2 0.2") ["raw"; "phone_1"]
         ["merged"] "train" sc
         ["merged"; "train"; "labels"; "phone_1_a.txt"]
         "1 0.5 0.5 0.2 0.2" src new_lines
    /\ Forall (fun o => (5 <= List.length (Str.split o))%nat)
         (text_lines "1 0.5 0.5 0.2 0.2").
Proof.
  destruct (convert_labels sample_safe_load ["raw"; "phone_1"] ["merged"]
              "train" (sample_world "0 0.5 0.5 0.2 0.2")) as [r w'] eqn:Hrun.
  assert (Hl : lookup (fs w') ((["merged"] ++ ["train"; "labels"])
                                 ++ ["phone_1_a.txt"])%list
               = Some (File "1 0.5 0.5 0.2 0.2")).
  { change w' with (snd (r, w')). rewrite <- Hrun. vm_compute. reflexivity. }
  destruct short_lines_never_merged as (_ & _ & H).
  destruct (H _ _ _ _ _ _ _ _ _ _ Hrun Hl)
    as [Hold|(sc & src & nl & Hsc & Hfrom & _ & _ & Hall)].
  - vm_compute in Hold. discriminate.
  - exists sc, src, nl. split; [exact Hsc|]. split; [exact Hfrom|].
    eapply Forall_impl; [|exact Hall]. intros o [Ho _]. exact Ho.
Defined.




(** ** Every image of the dataset is copied *)

Lemma str_app_inv_head (a b c : string) :
  (a ++ b = a ++ c)%string -> b = c.
Proof.
  induction a as [|x a IH]; simpl; [auto|]. intros [= H]. exact (IH H).
Qed.

Lemma find_entry_listed x c es :
  find_entry x es = Some c -> In x (map fst es).
Proof.
  induction es as [|[y d] es IH]; simpl; [discriminate|].
  destruct (String.eqb_spec y x) as [->|_]; [now left|].
  intros H. right. exact (IH H).
Qed.

(** A loop that returns has kept, step by step, what every step keeps. *)
Lemma for_each_keeps {A X} (body : A -> X -> M A) (I Q : world -> Prop)
    (xs : list X) :
  (forall acc x w a w', In x xs -> I w -> body acc x w = (Ok a, w') ->
     I w' /\ (Q w -> Q w')) ->
  forall acc w a w', I w -> for_each body acc xs w = (Ok a, w') ->
    I w' /\ (Q w -> Q w').
Proof.
  induction xs as [|x xs IH]; intros Hstep acc w a w' HI H.
  - inversion H; subst. now split.
  - simpl in H. apply bind_returned in H. destruct H as (a1 & w1 & H1 & H).
    destruct (Hstep _ _ _ _ _ (or_introl eq_refl) HI H1) as [HI1 HQ1].
    destruct (IH (fun acc x w a w' Hx => Hstep acc x w a w' (or_intror Hx))
                 _ _ _ _ HI1 H) as [HI' HQ'].
    split; [exact HI' | auto].
Qed.

(** A loop that returns has done, for each element, what its step does,
    when the later steps keep it. *)
Lemma for_each_reaches {A X} (body : A -> X -> M A) (I Q : world -> Prop)
    (x0 : X) (xs : list X) :
  (forall acc x w a w', In x xs -> I w -> body acc x w = (Ok a, w') ->
     I w' /\ (Q w -> Q w')) ->
  (forall acc w a w', I w -> body acc x0 w = (Ok a, w') -> Q w') ->
  In x0 xs ->
  forall acc w a w', I w -> for_each body acc xs w = (Ok a, w') -> Q w'.
Proof.
  induction xs as [|x xs IH]; intros Hstep Hx0 Hin acc w a w' HI H;
    [destruct Hin|].
  simpl in H. apply bind_returned in H. destruct H as (a1 & w1 & H1 & H).
  destruct (Hstep _ _ _ _ _ (or_introl eq_refl) HI H1) as [HI1 HQ1].
  assert (Hrest := fun acc x w a w' Hx =>
                     Hstep acc x w a w' (or_intror Hx)).
  destruct Hin as [->|Hin].
  - apply (for_each_keeps body I Q xs Hrest _ _ _ _ HI1 H).
    exact (Hx0 _ _ _ _ HI H1).
  - exact (IH Hrest Hx0 Hin _ _ _ _ HI1 H).
Qed.

Section ImagesCopied.

Variables (dataset_dir output_dir : path) (split : string) (sc : yaml).
Variables (t0 : node) (img_file : string).

Hypothesis apart : forall q, ~ under output_dir (dataset_dir ++ q)%list.
Hypothesis recognized :
  Str.endswith_any (Str.lower img_file) IMAGE_SUFFIXES = true.

Let images_out : path := (output_dir ++ [split; "images"])%list.
Let labels_out : path := (output_dir ++ [split; "labels"])%list.
Let dst : path :=
  os_path_join images_out [path_name dataset_dir ++ "_" ++ img_file].
Let copied (t : node) : Prop :=
  image_copied t0 t dataset_dir output_dir split img_file.
Let unchanged (w : world) : Prop := same_outside output_dir t0 (fs w).

(** Two images of the dataset are copied to the same place only when
    they have the same name. *)
Lemma same_place_same_name (img2 : string) (d d2 : path) :
  d = dst \/ d = os_path_join dst [img_file] ->
  d2 = os_path_join images_out [path_name dataset_dir ++ "_" ++ img2]
  \/ d2 = os_path_join
            (os_path_join images_out [path_name dataset_dir ++ "_" ++ img2])
            [img2] ->
  d2 = d -> img2 = img_file.
Proof.
  unfold dst. intros [-> | ->] [-> | ->] H.
  - apply app_inv_head in H. injection H as H.
    apply str_app_inv_head in H. now inversion H.
  - apply (f_equal (@List.length string)) in H.
    rewrite !length_app in H. simpl in H. lia.
  - apply (f_equal (@List.length string)) in H.
    rewrite !length_app in H. simpl in H. lia.
  - apply app_inj_tail in H. now destruct H.
Qed.

(** A write keeps the image where it is, or puts there the data of an
    image of the same name. *)
Lemma copied_write t t' p data :
  copied t ->
  tree_write t p data = Some t' ->
  (p = dst \/ p = os_path_join dst [img_file] ->
   exists split_name,
     In split_name ["train"; "valid"; "test"]
     /\ lookup t0
          (os_path_join (os_path_join dataset_dir [split_name; "images"])
             [img_file]) = Some (File data)) ->
  copied t'.
Proof.
  intros (d & x & s & Hd & Hl & Hs & H0) Hw Hp.
  destruct (list_eq_dec string_dec p d) as [->|Hne].
  - destruct (Hp Hd) as (s' & Hs' & H0').
    exists d, data, s'. repeat split; try assumption.
    exact (lookup_written _ _ _ _ Hw).
  - exists d, x, s. repeat split; try assumption.
    apply (lookup_write_other _ _ _ _ _ _ Hw); [congruence | exact Hl].
Qed.

Lemma source_unchanged w split_name img data :
  unchanged w ->
  lookup (fs w)
    (os_path_join (os_path_join dataset_dir [split_name; "images"]) [img])
  = Some (File data) <->
  lookup t0
    (os_path_join (os_path_join dataset_dir [split_name; "images"]) [img])
  = Some (File data).
Proof.
  intros Hu. apply Hu. rewrite <- app_assoc. apply apart.
Qed.

(** One image step keeps the files outside the output, keeps the image
    copied, and copies it when it is the step of that image. *)
Lemma copied_convert_image split_name count img2 w r w' :
  In split_name ["train"; "valid"; "test"] ->
  unchanged w ->
  convert_image dataset_dir
    (os_path_join dataset_dir [split_name; "images"])
    (os_path_join dataset_dir [split_name; "labels"])
    images_out labels_out sc count img2 w = (r, w') ->
  unchanged w'
  /\ (copied (fs w) -> copied (fs w'))
  /\ (img2 = img_file -> (exists n, r = Ok n) -> copied (fs w')).
Proof.
  intros Hin Hu H.
  split.
  { destruct (preserves_labels_convert_image dataset_dir output_dir split sc
                split_name count img2 Hin _ _ _ H) as [Hs _].
    exact (same_outside_trans _ _ _ _ Hu Hs). }
  destruct (Str.endswith_any (Str.lower img2) IMAGE_SUFFIXES) eqn:Hrec.
  2:{ unfold convert_image in H. rewrite Hrec in H. inversion H; subst.
      split; [auto|]. intros ->. congruence. }
  destruct (copy
              (os_path_join (os_path_join dataset_dir [split_name; "images"])
                 [img2])
              (os_path_join images_out [path_name dataset_dir ++ "_" ++ img2])
              w) as [[[]|e] w1] eqn:Hc.
  2:{ unfold images_out, labels_out in *.
      rewrite (convert_image_copy_fails _ _ _ _ _ _ _ _ Hrec _ _ _ Hc) in H.
      inversion H; subst. split; [auto|]. intros _ [n Hn]. discriminate. }
  unfold images_out, labels_out in H.
  rewrite (convert_image_after_copy _ _ _ _ _ _ _ _ Hrec _ _ Hc) in H.
  destruct (copy_returns _ _ _ _ Hc) as (data & d2 & Hsrc & Hd2 & Hw & _).
  rewrite path_name_join in Hd2.
  assert (H0 : lookup t0
                 (os_path_join
                    (os_path_join dataset_dir [split_name; "images"]) [img2])
               = Some (File data)).
  { now apply (source_unchanged w). }
  assert (K1 : copied (fs w) -> copied (fs w1)).
  { intros Hcop. apply (copied_write _ _ _ _ Hcop Hw).
    intros Hp.
    assert (E : img2 = img_file).
    { apply (same_place_same_name img2 d2 d2); [exact Hp | exact Hd2|].
      reflexivity. }
    subst img2. now exists split_name. }
  assert (E1 : img2 = img_file -> copied (fs w1)).
  { intros ->. exists d2, data, split_name.
    repeat split; try assumption. exact (lookup_written _ _ _ _ Hw). }
  assert (K2 : copied (fs w1) -> copied (fs w')).
  { intros Hcop.
    destruct (lookup (fs w1)
                (os_path_join
                   (os_path_join dataset_dir [split_name; "labels"])
                   [splitext_root img2 ++ ".txt"]))
      as [[src|es]|]; try (inversion H; subst; exact Hcop).
    destruct (convert_lines sc (readlines src)) as [[|l ls]|e];
      try (inversion H; subst; exact Hcop).
    match type of H with
    | context [tree_write ?a ?b ?c] =>
        destruct (tree_write a b c) as [t|] eqn:Et
    end; inversion H; subst; [|exact Hcop].
    cbn [fs set_fs]. apply (copied_write _ _ _ _ Hcop Et).
    intros [Hp | Hp]; exfalso; unfold dst, images_out in Hp.
    - apply (images_not_labels output_dir split split
               [path_name dataset_dir ++ "_" ++ splitext_root img2 ++ ".txt"]
               [path_name dataset_dir ++ "_" ++ img_file]).
      exact Hp.
    - rewrite <- (app_assoc _ [_] [img_file]) in Hp.
      exact (images_not_labels _ _ _ _ _ Hp). }
  split; [auto|]. intros E _. auto.
Qed.

(** One source folder: its images are copied, the others are kept. *)
Lemma copied_convert_split split_name count w n w' :
  In split_name ["train"; "valid"; "test"] ->
  unchanged w ->
  convert_split dataset_dir images_out labels_out sc count split_name w
  = (Ok n, w') ->
  unchanged w'
  /\ (copied (fs w) -> copied (fs w'))
  /\ ((exists data,
         lookup t0
           (os_path_join (os_path_join dataset_dir [split_name; "images"])
              [img_file]) = Some (File data)) ->
      copied (fs w')).
Proof.
  intros Hin Hu H. unfold convert_split in H.
  apply bind_returned in H. destruct H as (present & w1 & Hp & H).
  rewrite path_exists_below in Hp. inversion Hp; subst w1. clear Hp.
  destruct (lookup (fs w) (os_path_join dataset_dir [split_name; "images"]))
    as [n0|] eqn:Edir; subst present; cbn [negb] in H.
  2:{ inversion H; subst n w'. split; [exact Hu|]. split; [auto|].
      intros [data Hd]. apply (source_unchanged w) in Hd; [|exact Hu].
      rewrite lookup_app, Edir in Hd. discriminate. }
  apply bind_returned in H. destruct H as (files & w1 & Hls & H).
  unfold listdir in Hls. rewrite Edir in Hls.
  destruct n0 as [|es]; [discriminate|]. inversion Hls; subst files w1.
  clear Hls.
  assert (Hstep : forall acc x w a w',
            In x (map fst es) -> unchanged w ->
            convert_image dataset_dir
              (os_path_join dataset_dir [split_name; "images"])
              (os_path_join dataset_dir [split_name; "labels"])
              images_out labels_out sc acc x w = (Ok a, w') ->
            unchanged w' /\ (copied (fs w) -> copied (fs w'))).
  { intros acc x w2 a w2' _ Hu2 Hrun.
    destruct (copied_convert_image _ _ _ _ _ _ Hin Hu2 Hrun) as (A & B & _).
    now split. }
  destruct (for_each_keeps _ unchanged (fun w => copied (fs w)) _ Hstep
              _ _ _ _ Hu H) as [Hu' Hk].
  split; [exact Hu'|]. split; [exact Hk|].
  intros [data Hd]. apply (source_unchanged w) in Hd; [|exact Hu].
  rewrite lookup_app, Edir in Hd. simpl in Hd.
  destruct (find_entry img_file es) as [c|] eqn:Ef; [|discriminate].
  apply (for_each_reaches _ unchanged (fun w => copied (fs w)) img_file
           _ Hstep) with (acc := count) (w := w) (a := n);
    [|exact (find_entry_listed _ _ _ Ef) | exact Hu | exact H].
  intros acc w2 a w2' Hu2 Hrun.
  destruct (copied_convert_image _ _ _ _ _ _ Hin Hu2 Hrun) as (_ & _ & C).
  apply C; [reflexivity | now exists a].
Qed.

(** The three source folders. *)
Lemma copied_splits count w n w' split_name data :
  unchanged w ->
  for_each (convert_split dataset_dir images_out labels_out sc) count
    ["train"; "valid"; "test"] w = (Ok n, w') ->
  In split_name ["train"; "valid"; "test"] ->
  lookup t0
    (os_path_join (os_path_join dataset_dir [split_name; "images"])
       [img_file]) = Some (File data) ->
  copied (fs w').
Proof.
  intros Hu H Hin Hd.
  apply (for_each_reaches
           (convert_split dataset_dir images_out labels_out sc)
           unchanged (fun w => copied (fs w)) split_name
           ["train"; "valid"; "test"]) with (acc := count) (w := w) (a := n);
    try assumption.
  - intros acc x w2 a w2' Hx Hu2 Hrun.
    destruct (copied_convert_split _ _ _ _ _ Hx Hu2 Hrun) as (A & B & _).
    now split.
  - intros acc w2 a w2' Hu2 Hrun.
    destruct (copied_convert_split _ _ _ _ _ Hin Hu2 Hrun) as (_ & _ & C).
    apply C. now exists data.
Qed.

End ImagesCopied.

(** A run of [convert_labels] that returns, on a dataset with a data.yaml
    that lies outside the output directory, has copied every image of the
    dataset that has a recognized extension. *)
Lemma convert_labels_copies_all
    yaml_safe_load dataset_dir output_dir split w n w' split_name img_file
    data :
  (forall q, ~ under output_dir (dataset_dir ++ q)%list) ->
  ~ no_manifest (fs w) dataset_dir ->
  convert_labels yaml_safe_load dataset_dir output_dir split w = (Ok n, w') ->
  In split_name ["train"; "valid"; "test"] ->
  Str.endswith_any (Str.lower img_file) IMAGE_SUFFIXES = true ->
  lookup (fs w)
    (os_path_join (os_path_join dataset_dir [split_name; "images"])
       [img_file]) = Some (File data) ->
  image_copied (fs w) (fs w') dataset_dir output_dir split img_file.
Proof.
  intros Hapart Hman Hrun Hin Hrec Hd. unfold convert_labels in Hrun.
  apply bind_returned in Hrun. destruct Hrun as ([] & w1 & Hm1 & Hrun).
  destruct (makedirs_cases _ _ _ _ Hm1) as [[Hr _]|(t1 & E1 & _ & ->)];
    [discriminate|]. clear Hm1.
  apply bind_returned in Hrun. destruct Hrun as ([] & w2 & Hm2 & Hrun).
  destruct (makedirs_cases _ _ _ _ Hm2) as [[Hr _]|(t2 & E2 & _ & ->)];
    [discriminate|]. clear Hm2. cbn [fs set_fs] in E2.
  pose proof (scan_makedirs "data.yaml" dataset_dir _ _ _ E2) as Hs2.
  pose proof (scan_makedirs "data.yaml" dataset_dir _ _ _ E1) as Hs1.
  rewrite Hs1 in Hs2. clear Hs1.
  apply bind_returned in Hrun. destruct Hrun as (found & w3 & Hm3 & Hrun).
  unfold find_data_yaml in Hm3. cbn [fs set_fs] in Hm3.
  inversion Hm3 as [[Hfound Hw3]]. clear Hm3. subst w3.
  unfold no_manifest in Hman.
  destruct (lookup t2 dataset_dir) as [n2|] eqn:En2;
    [|destruct (lookup (fs w) dataset_dir); [congruence | now destruct Hman]].
  destruct (walk_find "data.yaml" n2) as [root|] eqn:Ew2;
    [|destruct (lookup (fs w) dataset_dir); [congruence | now destruct Hman]].
  subst found.
  apply bind_returned in Hrun. destruct Hrun as (ytext & w4 & Hm4 & Hrun).
  unfold read_text in Hm4. cbn [fs set_fs] in Hm4.
  destruct (lookup t2 _) as [[ytext'|es]|]; try discriminate.
  inversion Hm4; subst ytext' w4. clear Hm4.
  apply bind_returned in Hrun. destruct Hrun as (config & w5 & Hm5 & Hrun).
  unfold lift in Hm5. inversion Hm5 as [[Eload Hw5]]. subst w5. clear Hm5.
  apply bind_returned in Hrun. destruct Hrun as (sc & w6 & Hm6 & Hrun).
  unfold lift in Hm6. inversion Hm6 as [[Esc Hw6]]. subst w6. clear Hm6.
  apply bind_returned in Hrun. destruct Hrun as ([] & w7 & Hm7 & Hrun).
  unfold print in Hm7. inversion Hm7; subst w7. clear Hm7.
  eapply (copied_splits dataset_dir output_dir split sc (fs w) img_file
            Hapart Hrec 0 _ n w' split_name data); try eassumption.
  cbn [fs set_fs].
  apply (same_outside_trans _ _ t1).
  - exact (same_outside_makedirs _ _ _ _ E1).
  - exact (same_outside_makedirs _ _ _ _ E2).
Qed.


